(* A shallow embedding of the Aseprite loader of paq_aseprite.h (pennie-quinn/paq)
   and of the zlib decoder it carries, with the properties of its documentation. *)

From Stdlib Require Import ZArith Lia.
From stdpp Require Import base gmap list.

Open Scope Z_scope.

(* ------------------------------------------------------------------------- *)
(** * Machine integers *)

(** Conversion of an integer to the C [int] (two's complement, 32 bits). *)
Definition to_int32 (z : Z) : Z :=
  let m := z mod 2 ^ 32 in if m >=? 2 ^ 31 then m - 2 ^ 32 else m.

(** Conversion to [int16_t]. *)
Definition to_int16 (z : Z) : Z :=
  let m := z mod 2 ^ 16 in if m >=? 2 ^ 15 then m - 2 ^ 16 else m.

Definition to_u8 (z : Z) : Z := z mod 2 ^ 8.
Definition to_u16 (z : Z) : Z := z mod 2 ^ 16.
Definition to_u32 (z : Z) : Z := z mod 2 ^ 32.

(* ------------------------------------------------------------------------- *)
(** * Machine state: the memory byte source of [ASE__start_mem] and the heap *)

(** [buf] is the memory block [buf_orig .. buf_orig_end], [pos] is
    [buf - buf_orig]; the heap maps every live block to its bytes. *)
Record Mach := mkMach {
  m_buf : list Z;
  m_pos : Z;
  m_heap : gmap Z (list Z);
  m_next : Z
}.

(** Result of a run of C code: it returns, an [assert] stops the process, or
    it never returns. *)
Inductive outcome (A : Type) : Type :=
| Ret (a : A)
| Abort
| Hang.
Arguments Ret {A} a.
Arguments Abort {A}.
Arguments Hang {A}.

Definition LD (A : Type) : Type := Mach -> outcome (A * Mach).

Definition ld_ret {A} (a : A) : LD A := fun m => Ret (a, m).
Definition ld_bind {A B} (c : LD A) (k : A -> LD B) : LD B :=
  fun m => match c m with
           | Ret (a, m') => k a m'
           | Abort => Abort
           | Hang => Hang
           end.
Definition ld_get : LD Mach := fun m => Ret (m, m).
Definition ld_put (m : Mach) : LD unit := fun _ => Ret (tt, m).

Declare Scope ld_scope.
Notation "'let!' x ':=' c 'in' k" := (ld_bind c (fun x => k))
  (at level 200, x name, c at level 100, k at level 200) : ld_scope.
Notation "c ;; k" := (ld_bind c (fun _ => k))
  (at level 100, right associativity) : ld_scope.
Open Scope ld_scope.

(** [assert(b)]: with [NDEBUG] the check is compiled away. *)
Definition c_assert (ndebug : bool) (b : bool) : LD unit :=
  fun m => if ndebug || b then Ret (tt, m) else Abort.

(** The byte at offset [p] of the memory block (outside of it the C code reads
    memory it does not own; the model reads 0 there). *)
Definition byte_at (buf : list Z) (p : Z) : Z :=
  if p <? 0 then 0 else nth (Z.to_nat p) buf 0.

(** [ASE__mem_read]: copies up to [size] bytes and stops at [buf_end]. *)
Definition ASE__mem_read (size : Z) : LD (list Z) :=
  fun m =>
    let len := Z.of_nat (length (m_buf m)) in
    let count := if m_pos m >=? len then 0 else Z.min size (len - m_pos m) in
    let bytes := map (fun k => byte_at (m_buf m) (m_pos m + Z.of_nat k))
                     (seq 0 (Z.to_nat count)) in
    Ret (bytes, mkMach (m_buf m) (m_pos m + count) (m_heap m) (m_next m)).

(** [ASE__mem_skip] for a nonnegative count. *)
Definition ASE__mem_skip (bytes : Z) : LD unit :=
  fun m =>
    let len := Z.of_nat (length (m_buf m)) in
    let p' := if m_pos m >=? len then m_pos m else Z.min (m_pos m + bytes) len in
    Ret (tt, mkMach (m_buf m) p' (m_heap m) (m_next m)).

(** [ASE__mem_tell] and [ASE__mem_seek]. *)
Definition ASE__mem_tell : LD Z := fun m => Ret (m_pos m, m).
Definition ASE__mem_seek (pos : Z) : LD unit :=
  fun m => Ret (tt, mkMach (m_buf m) pos (m_heap m) (m_next m)).

(** [ASE__read8], [ASE__read16], [ASE__read32]: a short read gives 0. The
    32-bit value is returned as its unsigned bit pattern; each use converts it
    to the type it is stored in. *)
Definition ASE__read8 : LD Z :=
  let! v := ASE__mem_read 1 in
  match v with [b0] => ld_ret b0 | _ => ld_ret 0 end.

Definition ASE__read16 : LD Z :=
  let! v := ASE__mem_read 2 in
  match v with [b0; b1] => ld_ret (Z.lor (Z.shiftl b1 8) b0) | _ => ld_ret 0 end.

Definition ASE__read32 : LD Z :=
  let! v := ASE__mem_read 4 in
  match v with
  | [b0; b1; b2; b3] =>
      ld_ret (Z.lor (Z.lor (Z.shiftl b3 24) (Z.shiftl b2 16))
                    (Z.lor (Z.shiftl b1 8) b0))
  | _ => ld_ret 0
  end.

(** [malloc] hands out a fresh block (its contents are indeterminate; the
    model fills it with zeros); [free (NULL)] does nothing. *)
Definition c_malloc (n : Z) : LD Z :=
  fun m =>
    let p := m_next m in
    Ret (p, mkMach (m_buf m) (m_pos m) (<[p := repeat 0 (Z.to_nat n)]> (m_heap m)) (p + 1)).

Definition c_free (p : Z) : LD unit :=
  fun m =>
    if p =? 0 then Ret (tt, m)
    else Ret (tt, mkMach (m_buf m) (m_pos m) (delete p (m_heap m)) (m_next m)).

(** [realloc] may move the block: the model always moves it. *)
Definition c_realloc (p n : Z) : LD Z :=
  let! q := c_malloc n in
  c_free p ;;
  ld_ret q.

(** Writes the bytes [bs] into heap block [p] starting at offset [off]. *)
Definition heap_write (p off : Z) (bs : list Z) : LD unit :=
  fun m =>
    match m_heap m !! p with
    | Some blk =>
        let blk' := take (Z.to_nat off) blk ++ bs ++ drop (Z.to_nat off + length bs) blk in
        Ret (tt, mkMach (m_buf m) (m_pos m) (<[p := blk']> (m_heap m)) (m_next m))
    | None => Ret (tt, m)
    end.

Fixpoint read_bytes (n : nat) : LD (list Z) :=
  match n with
  | O => ld_ret []
  | S n' => let! b := ASE__read8 in let! bs := read_bytes n' in ld_ret (b :: bs)
  end.

(** [ASE_DOC_read_string]: a u16 length, then that many bytes into a fresh
    block with a terminating zero ([Length != EOF] always holds for a
    [uint16_t]). *)
Definition ASE_DOC_read_string : LD Z :=
  let! len := ASE__read16 in
  let! s := c_malloc (len + 1) in
  let! bs := read_bytes (Z.to_nat len) in
  heap_write s 0 (bs ++ [0]) ;;
  ld_ret s.

(* ------------------------------------------------------------------------- *)
(** * Constants *)

Definition ASE_FILE_MAGIC := 0xA5E0.
Definition ASE_FILE_FRAME_MAGIC := 0xF1FA.
Definition ASE_DEPTH_RGBA := 32.
Definition ASE_DEPTH_GRAYSCALE := 16.
Definition ASE_DEPTH_INDEXED := 8.
Definition ASE_FILE_CHUNK_FLI_COLOR2 := 4.
Definition ASE_FILE_CHUNK_FLI_COLOR := 11.
Definition ASE_FILE_CHUNK_LAYER := 0x2004.
Definition ASE_FILE_CHUNK_CEL := 0x2005.
Definition ASE_FILE_CHUNK_CEL_EXTRA := 0x2006.
Definition ASE_FILE_CHUNK_MASK := 0x2016.
Definition ASE_FILE_CHUNK_PATH := 0x2017.
Definition ASE_FILE_CHUNK_FRAME_TAGS := 0x2018.
Definition ASE_FILE_CHUNK_PALETTE := 0x2019.
Definition ASE_FILE_CHUNK_USER_DATA := 0x2020.
Definition ASE_FILE_CHUNK_SLICES := 0x2021.
Definition ASE_FILE_CHUNK_SLICE := 0x2022.
Definition ASE_FILE_LAYER_IMAGE := 0.
Definition ASE_FILE_LAYER_GROUP := 1.
Definition ASE_FILE_RAW_CEL := 0.
Definition ASE_FILE_LINK_CEL := 1.
Definition ASE_FILE_COMPRESSED_CEL := 2.
Definition ASE_PALETTE_FLAG_HAS_NAME := 1.
Definition ASE_LAYER_VISIBLE := 1.
Definition ASE_LAYER_BACKGROUND := 8.
Definition ASE_LOOP_FORWARD := 0.
Definition ASE_LOOP_REVERSE := 1.
Definition ASE_LOOP_PINGPONG := 2.

(* ------------------------------------------------------------------------- *)
(** * Document structs *)

Record ASE_Layer := mkLayer {
  ly_name : Z;          (* char * *)
  ly_flags : Z;         (* uint16_t *)
  ly_type : Z;          (* uint16_t *)
  ly_blendmode : Z;     (* uint16_t *)
  ly_opacity : Z;       (* uint8_t *)
  ly_child_level : Z;   (* int *)
  ly_parent : Z;        (* int *)
  ly_visible : Z        (* int *)
}.

Definition ASE_Layer_zero : ASE_Layer := mkLayer 0 0 0 0 0 0 0 0.

(** Sizes of the structs on an LP64 host (only the sizes of the heap arrays
    depend on them). *)
Definition sizeof_ASE_Layer := 32.
Definition sizeof_ASE_Cel := 32.
Definition sizeof_ASE_Frame := 16.
Definition sizeof_ASE_Tag := 16.

Record ASE_Cel := mkCel {
  cel_layer : Z;        (* uint16_t *)
  cel_x : Z;            (* int16_t *)
  cel_y : Z;            (* int16_t *)
  cel_w : Z;            (* int16_t *)
  cel_h : Z;            (* int16_t *)
  cel_opacity : Z;      (* uint8_t *)
  cel_data : Z;         (* uint8_t * *)
  cel_is_linked : Z;    (* int *)
  cel_frame : Z         (* int *)
}.

Definition ASE_Cel_zero : ASE_Cel := mkCel 0 0 0 0 0 0 0 0 0.

(** A frame: [cels] is the heap array, [cel_array] its contents. *)
Record ASE_Frame := mkFrame {
  fr_duration : Z;
  fr_ncels : Z;
  fr_cels : Z;
  fr_cel_array : list ASE_Cel
}.

Definition ASE_Frame_zero : ASE_Frame := mkFrame 0 0 0 [].

Record ASE_Tag := mkTag {
  tag_from : Z;         (* int16_t *)
  tag_to : Z;           (* int16_t *)
  tag_dir : Z;          (* int16_t *)
  tag_name : Z          (* char * *)
}.

Definition ASE_Tag_zero : ASE_Tag := mkTag 0 0 0 0.

(** [ASE_Palette] as the bytes of the struct on a little-endian host:
    [uint8_t ncolors] at offset 0, three padding bytes, then
    [ASE_Pixel32 colors[256]] at offset 4, each pixel as r, g, b, a. *)
Definition ASE_Palette := list Z.
Definition ASE_Palette_size : nat := 1028.
Definition pal_ncolors (p : ASE_Palette) : Z := nth 0 p 0.
Definition pal_color_off (k : Z) : Z := 4 + 4 * k.
Definition pal_color (p : ASE_Palette) (k : Z) : Z * Z * Z * Z :=
  let o := Z.to_nat (pal_color_off k) in
  (nth o p 0, nth (o + 1) p 0, nth (o + 2) p 0, nth (o + 3) p 0).

Record ASE_Sprite := mkSprite {
  sp_width : Z;
  sp_height : Z;
  sp_depth : Z;
  sp_palette : ASE_Palette;
  sp_nlayers : Z;
  sp_layers : Z;
  sp_layer_array : list ASE_Layer;
  sp_nframes : Z;
  sp_frames : Z;
  sp_frame_array : list ASE_Frame;
  sp_ntags : Z;
  sp_tags : Z;
  sp_tag_array : list ASE_Tag
}.

(** The all-zero sprite that [memset(Sprite, 0, sizeof(ASE_Sprite))] leaves. *)
Definition ASE_Sprite_zero : ASE_Sprite :=
  mkSprite 0 0 0 (repeat 0 ASE_Palette_size) 0 0 [] 0 0 [] 0 0 [].

Record ASE_DOC_Header := mkHeader {
  h_size : Z; h_magic : Z; h_frames : Z; h_width : Z; h_height : Z;
  h_depth : Z; h_flags : Z; h_speed : Z; h_next : Z; h_frit : Z;
  h_transparent_index : Z; h_ncolors : Z; h_pixel_w : Z; h_pixel_h : Z
}.

Definition ASE_DOC_Header_zero : ASE_DOC_Header :=
  mkHeader 0 0 0 0 0 0 0 0 0 0 0 0 0 0.

(* ------------------------------------------------------------------------- *)
(** * Document header *)

(** [ASE_DOC_Header_read]: fills the header, checks magic and depth
    (returning 0 before the normalisations and before the seek), normalises
    [ncolors] and the pixel ratio, and seeks to [Pos + 128]. *)
Definition ASE_DOC_Header_read : LD (bool * ASE_DOC_Header) :=
  let! pos := ASE__mem_tell in
  let! size := ASE__read32 in
  let! magic := ASE__read16 in
  let! frames := ASE__read16 in
  let! width := ASE__read16 in
  let! height := ASE__read16 in
  let! depth := ASE__read16 in
  let! flags := ASE__read32 in
  let! speed := ASE__read16 in
  let! next := ASE__read32 in
  let! frit := ASE__read32 in
  let! ti := ASE__read8 in
  ASE__mem_skip 3 ;;
  let! ncolors := ASE__read16 in
  let! pixel_h := ASE__read8 in
  let! pixel_w := ASE__read8 in
  let O := mkHeader size magic frames width height depth flags speed next frit
                    ti ncolors pixel_w pixel_h in
  if negb (magic =? ASE_FILE_MAGIC) then ld_ret (false, O)
  else if negb ((depth =? ASE_DEPTH_RGBA) || (depth =? ASE_DEPTH_GRAYSCALE)
                || (depth =? ASE_DEPTH_INDEXED)) then ld_ret (false, O)
  else
    let ncolors' := if ncolors =? 0 then 256 else ncolors in
    let '(pw, ph) := if (pixel_w =? 0) || (pixel_h =? 0) then (1, 1)
                     else (pixel_w, pixel_h) in
    ASE__mem_seek (to_int32 (pos + 128)) ;;
    ld_ret (true, mkHeader size magic frames width height depth flags speed next
                            frit ti ncolors' pw ph).

(** [ASE_FrameHeader_read]: size, magic, chunk count, duration, 6 bytes. *)
Record ASE_FrameHeader := mkFrameHeader {
  fh_size : Z; fh_magic : Z; fh_chunks : Z; fh_duration : Z
}.

Definition ASE_FrameHeader_read : LD ASE_FrameHeader :=
  let! size := ASE__read32 in
  let! magic := ASE__read16 in
  let! chunks := ASE__read16 in
  let! duration := ASE__read16 in
  ASE__mem_skip 6 ;;
  ld_ret (mkFrameHeader size magic chunks duration).

(** [ASE_DOC_ChunkHeader_read]: 4-byte size and 2-byte type. *)
Record ASE_DOC_ChunkHeader := mkChunkHeader {
  ch_size : Z; ch_type : Z; ch_start : Z
}.

Definition ASE_DOC_ChunkHeader_read : LD ASE_DOC_ChunkHeader :=
  let! pos := ASE__mem_tell in
  let! size := ASE__read32 in
  let! type := ASE__read16 in
  ld_ret (mkChunkHeader size type (pos + 6)).

(* ------------------------------------------------------------------------- *)
(** * Palette chunk *)

(** Stores a byte of the palette struct. *)
Definition pal_set (p : ASE_Palette) (off v : Z) : ASE_Palette :=
  <[Z.to_nat off := v]> p.

(** [R.colors[k].rgba = v]: the four bytes of [v], low byte first. *)
Definition pal_store_rgba (p : ASE_Palette) (k v : Z) : ASE_Palette :=
  let o := pal_color_off k in
  pal_set (pal_set (pal_set (pal_set p o (Z.land v 255))
                            (o + 1) (Z.land (Z.shiftr v 8) 255))
                   (o + 2) (Z.land (Z.shiftr v 16) 255))
          (o + 3) (Z.land (Z.shiftr v 24) 255).

(** The swap of the red and blue bytes of [R.colors[j]]; for [j = -1] these
    are the bytes at offsets 0 and 2 of the struct, i.e. [ncolors] and a
    padding byte. *)
Definition pal_swap_rb (p : ASE_Palette) (j : Z) : ASE_Palette :=
  let o := pal_color_off j in
  let tmp := nth (Z.to_nat o) p 0 in
  pal_set (pal_set p o (nth (Z.to_nat (o + 2)) p 0)) (o + 2) tmp.

(** One iteration of the loop of [ASE_Palette_read] after its two reads:
    [R.colors[R.ncolors++].rgba = v], then the red/blue swap of
    [R.colors[R.ncolors-1]] ([ncolors] is a [uint8_t], the index an [int]). *)
Definition ASE_Palette_entry (R : ASE_Palette) (v : Z) : ASE_Palette :=
  let k := pal_ncolors R in
  let R1 := pal_store_rgba R k v in
  let R2 := pal_set R1 0 (to_u8 (k + 1)) in
  pal_swap_rb R2 (pal_ncolors R2 - 1).

Fixpoint ASE_Palette_loop (n : nat) (R : ASE_Palette) : LD ASE_Palette :=
  match n with
  | O => ld_ret R
  | S n' =>
      let! flags := ASE__read16 in
      let! v := ASE__read32 in
      let R' := ASE_Palette_entry R v in
      (if Z.land flags ASE_PALETTE_FLAG_HAS_NAME =? 0 then ld_ret tt
       else let! name := ASE_DOC_read_string in c_free name) ;;
      ASE_Palette_loop n' R'
  end.

(** [ASE_Palette_read]: [for (int i=From; i <= To; ++i)] runs [To - From + 1]
    times. *)
Definition ASE_Palette_read (Prev : ASE_Palette) : LD ASE_Palette :=
  let! newsize := ASE__read32 in
  let! from := ASE__read32 in
  let! to := ASE__read32 in
  ASE__mem_skip 8 ;;
  let From := to_int32 from in
  let To := to_int32 to in
  ASE_Palette_loop (Z.to_nat (To - From + 1)) Prev.

(* ------------------------------------------------------------------------- *)
(** * Layer chunk *)

Record ASE_LayerHeader := mkLayerHeader {
  lh_flags : Z; lh_type : Z; lh_child_level : Z; lh_default_w : Z;
  lh_default_h : Z; lh_blendmode : Z; lh_opacity : Z; lh_name : Z
}.

(** The walk of the branch [H.child_level < *CurrentLevel]:
    [while (Levels--) { PL = layers + Parent; if (PL->parent == -1) break;
    Parent = PL->parent; }]. *)
Fixpoint walk_up (layers : list ASE_Layer) (parent : Z) (levels : nat) : Z :=
  match levels with
  | O => parent
  | S l =>
      let pl := nth (Z.to_nat parent) layers ASE_Layer_zero in
      if ly_parent pl =? -1 then parent else walk_up layers (ly_parent pl) l
  end.

(** The ancestor index that the branch [H.child_level < *CurrentLevel]
    computes (its local [Parent] at the end of the branch). *)
Definition layer_ancestor (layers : list ASE_Layer) (prev cur level : Z) : Z :=
  let parent := ly_parent (nth (Z.to_nat prev) layers ASE_Layer_zero) in
  if parent >=? 0 then walk_up layers parent (Z.to_nat (cur - level)) else parent.

(** The running state [PrevLayer], [CurrentLevel] of [ASE__decode_main];
    [PrevLayer] points at the last created layer, which the model names by
    its index ([-1] for NULL); reads through it read that array element. *)
Record LayerState := mkLayerState { ls_prev : Z; ls_level : Z }.

(** The part of [ASE_Layer_read] after the header has been read: [Sprite] has
    already received [ASE_DOC_AddLayer], whose new zero layer is the last
    element; returns the layer's [parent] field. *)
Definition ASE_Layer_parent (layers : list ASE_Layer) (nlayers : Z)
    (st : LayerState) (level : Z) : Z :=
  if level =? 0 then -1
  else if ls_level st =? level then
    ly_parent (nth (Z.to_nat (ls_prev st)) layers ASE_Layer_zero)
  else if level >? ls_level st then nlayers - 2
  else
    (* the walk computes [layer_ancestor], which the branch does not store:
       the field keeps the 0 of [memset] *)
    let _ := layer_ancestor layers (ls_prev st) (ls_level st) level in
    0.

(** [ASE_DOC_AddLayer]: grows the array by one zeroed layer. *)
Definition ASE_DOC_AddLayer (S : ASE_Sprite) : LD ASE_Sprite :=
  let n := sp_nlayers S + 1 in
  let! p := c_realloc (sp_layers S) (n * sizeof_ASE_Layer) in
  ld_ret (mkSprite (sp_width S) (sp_height S) (sp_depth S) (sp_palette S)
             n p (sp_layer_array S ++ [ASE_Layer_zero])
             (sp_nframes S) (sp_frames S) (sp_frame_array S)
             (sp_ntags S) (sp_tags S) (sp_tag_array S)).

Definition set_layers (S : ASE_Sprite) (ls : list ASE_Layer) : ASE_Sprite :=
  mkSprite (sp_width S) (sp_height S) (sp_depth S) (sp_palette S)
           (sp_nlayers S) (sp_layers S) ls
           (sp_nframes S) (sp_frames S) (sp_frame_array S)
           (sp_ntags S) (sp_tags S) (sp_tag_array S).

(** The decode of an Image or Group layer once it has been added. *)
Definition ASE_Layer_decode (H : ASE_LayerHeader) (S : ASE_Sprite)
    (st : LayerState) : ASE_Sprite * LayerState :=
  let idx := sp_nlayers S - 1 in
  let ls := sp_layer_array S in
  let image := lh_type H =? ASE_FILE_LAYER_IMAGE in
  let bg := negb (Z.land (lh_flags H) ASE_LAYER_BACKGROUND =? 0) in
  let L := mkLayer (lh_name H) (lh_flags H) (lh_type H)
             (if image && negb bg then lh_blendmode H else 0)
             (if image && negb bg then lh_opacity H else 0)
             (lh_child_level H)
             (ASE_Layer_parent ls (sp_nlayers S) st (lh_child_level H))
             (Z.land (lh_flags H) ASE_LAYER_VISIBLE) in
  (set_layers S (<[Z.to_nat idx := L]> ls), mkLayerState idx (lh_child_level H)).

(** [ASE_Layer_read]: returns whether a layer was created. *)
Definition ASE_Layer_read (S : ASE_Sprite) (st : LayerState)
    : LD (bool * ASE_Sprite * LayerState) :=
  let! flags := ASE__read16 in
  let! type := ASE__read16 in
  let! child_level := ASE__read16 in
  let! dw := ASE__read16 in
  let! dh := ASE__read16 in
  let! blendmode := ASE__read16 in
  let! opacity := ASE__read8 in
  ASE__mem_skip 3 ;;
  let! name := ASE_DOC_read_string in
  let H := mkLayerHeader flags type child_level dw dh blendmode opacity name in
  if (type =? ASE_FILE_LAYER_IMAGE) || (type =? ASE_FILE_LAYER_GROUP) then
    let! S1 := ASE_DOC_AddLayer S in
    let '(S2, st') := ASE_Layer_decode H S1 st in
    ld_ret (true, S2, st')
  else
    c_free name ;;
    ld_ret (false, S, st).

(* ------------------------------------------------------------------------- *)
(** * Tags chunk and the next-frame function *)

Definition ASE_DOC_AddTag (S : ASE_Sprite) (T : ASE_Tag) : LD ASE_Sprite :=
  let n := sp_ntags S + 1 in
  let! p := c_realloc (sp_tags S) (n * sizeof_ASE_Tag) in
  ld_ret (mkSprite (sp_width S) (sp_height S) (sp_depth S) (sp_palette S)
             (sp_nlayers S) (sp_layers S) (sp_layer_array S)
             (sp_nframes S) (sp_frames S) (sp_frame_array S)
             n p (sp_tag_array S ++ [T])).

Fixpoint ASE_Tags_loop (n : nat) (S : ASE_Sprite) : LD ASE_Sprite :=
  match n with
  | O => ld_ret S
  | S n' =>
      let! from := ASE__read16 in
      let! to := ASE__read16 in
      let! dir := ASE__read8 in
      let dir' := if (dir =? ASE_LOOP_FORWARD) || (dir =? ASE_LOOP_REVERSE)
                     || (dir =? ASE_LOOP_PINGPONG) then dir else ASE_LOOP_FORWARD in
      ASE__read32 ;; ASE__read32 ;;
      ASE__mem_skip 4 ;;
      let! name := ASE_DOC_read_string in
      let! S' := ASE_DOC_AddTag S (mkTag (to_int16 from) (to_int16 to) dir' name) in
      ASE_Tags_loop n' S'
  end.

(** [ASE_Tags_read]. *)
Definition ASE_Tags_read (S : ASE_Sprite) : LD ASE_Sprite :=
  let! count := ASE__read16 in
  ASE__read32 ;; ASE__read32 ;;
  ASE_Tags_loop (Z.to_nat count) S.

(** [ASE_get_next_frame]. *)
Definition ASE_get_next_frame (tag : ASE_Tag) (frame : Z) : Z :=
  if tag_dir tag =? ASE_LOOP_FORWARD then
    let f := frame + 1 in if f >? tag_to tag then tag_from tag else f
  else if tag_dir tag =? ASE_LOOP_REVERSE then
    let f := frame - 1 in if f <? tag_from tag then tag_to tag else f
  else if tag_dir tag =? ASE_LOOP_PINGPONG then
    if frame >=? 0 then
      let f := frame + 1 in
      if f >? tag_to tag then
        (if tag_to tag - tag_from tag =? 0 then 0 else -1)
      else f
    else
      let f := frame - 1 in if f <? tag_from tag then 0 else f
  else frame.

(* ------------------------------------------------------------------------- *)
(** * [ASE_free] *)

Fixpoint free_all (ps : list Z) : LD unit :=
  match ps with
  | [] => ld_ret tt
  | p :: ps' => c_free p ;; free_all ps'
  end.

(** The pointers the loops of [ASE_free] pass to [free], in order:
    [for (i=0; i < n; ++i)] visits the first [n] array elements. *)
Definition nth_prefix {A} (n : Z) (l : list A) (d : A) : list A :=
  map (fun i => nth i l d) (seq 0 (Z.to_nat n)).

Definition frame_frees (F : ASE_Frame) : list Z :=
  map cel_data (nth_prefix (fr_ncels F) (fr_cel_array F) ASE_Cel_zero) ++ [fr_cels F].

Definition ASE_free_list (S : ASE_Sprite) : list Z :=
  map ly_name (nth_prefix (sp_nlayers S) (sp_layer_array S) ASE_Layer_zero)
  ++ [sp_layers S]
  ++ concat (map frame_frees (nth_prefix (sp_nframes S) (sp_frame_array S) ASE_Frame_zero))
  ++ [sp_frames S]
  ++ map tag_name (nth_prefix (sp_ntags S) (sp_tag_array S) ASE_Tag_zero)
  ++ [sp_tags S].

(** [ASE_free] on a non-NULL sprite: frees, then [memset] to zero. *)
Definition ASE_free (S : ASE_Sprite) : LD ASE_Sprite :=
  free_all (ASE_free_list S) ;;
  ld_ret ASE_Sprite_zero.

(* ------------------------------------------------------------------------- *)
(** * The zlib decoder (stb_image zlib, v0.2) *)

Module Zlib.

(** [stbi__zhuffman]. *)
Record zhuffman := mkZH {
  zh_fast : list Z;          (* uint16 fast[512] *)
  zh_firstcode : list Z;     (* uint16 firstcode[16] *)
  zh_maxcode : list Z;       (* int maxcode[17] *)
  zh_firstsymbol : list Z;   (* uint16 firstsymbol[16] *)
  zh_size : list Z;          (* uint8 size[288] *)
  zh_value : list Z          (* uint16 value[288] *)
}.

(** A table before its first build (the model reads zeros there). *)
Definition zhuffman_zero : zhuffman :=
  mkZH (repeat 0 512) (repeat 0 16) (repeat 0 17) (repeat 0 16)
       (repeat 0 288) (repeat 0 288).

Definition get (l : list Z) (i : Z) : Z := nth (Z.to_nat i) l 0.
Definition set (l : list Z) (i v : Z) : list Z :=
  if i <? 0 then l else <[Z.to_nat i := v]> l.

Definition ZFAST_BITS := 9.
Definition ZFAST_MASK := 511.

(** [stbi__bitreverse16] and [stbi__bit_reverse]. *)
Definition bitreverse16 (n : Z) : Z :=
  let n := Z.lor (Z.shiftr (Z.land n 0xAAAA) 1) (Z.shiftl (Z.land n 0x5555) 1) in
  let n := Z.lor (Z.shiftr (Z.land n 0xCCCC) 2) (Z.shiftl (Z.land n 0x3333) 2) in
  let n := Z.lor (Z.shiftr (Z.land n 0xF0F0) 4) (Z.shiftl (Z.land n 0x0F0F) 4) in
  Z.lor (Z.shiftr (Z.land n 0xFF00) 8) (Z.shiftl (Z.land n 0x00FF) 8).

Definition bit_reverse (v bits : Z) : Z := Z.shiftr (bitreverse16 v) (16 - bits).

(** The histogram [sizes[17]] of the first [num] code lengths. *)
Definition zsizes (sizelist : list Z) (num : Z) : list Z :=
  fold_left (fun sz i => set sz (get sizelist i) (get sz (get sizelist i) + 1))
            (map Z.of_nat (seq 0 (Z.to_nat num))) (repeat 0 17).

(** The loop [for (i=1; i < 16; ++i)] that assigns [next_code], [firstcode],
    [firstsymbol] and [maxcode]; [None] on "bad codelengths". *)
Fixpoint zcodes (sizes : list Z) (i : Z) (n : nat) (code k : Z)
    (nc fc fs mc : list Z) : option (list Z * list Z * list Z * list Z) :=
  match n with
  | O => Some (nc, fc, fs, mc)
  | S n' =>
      let nc := set nc i code in
      let fc := set fc i (to_u16 code) in
      let fs := set fs i (to_u16 k) in
      let code := code + get sizes i in
      if negb (get sizes i =? 0) && (code - 1 >=? Z.shiftl 1 i) then None
      else
        let mc := set mc i (Z.shiftl code (16 - i)) in
        zcodes sizes (i + 1) n' (Z.shiftl code 1) (k + get sizes i) nc fc fs mc
  end.

(** [while (j < (1 << ZFAST_BITS)) { z->fast[j] = fastv; j += (1 << s); }]. *)
Fixpoint zfill_fast (fast : list Z) (j step v : Z) (fuel : nat) : list Z :=
  match fuel with
  | O => fast
  | S f => if j <? 512 then zfill_fast (set fast j v) (j + step) step v f else fast
  end.

(** The last loop of [stbi__zbuild_huffman], over the symbols [i < num]. *)
Definition zassign (sizelist : list Z) (num : Z) (z : zhuffman) (nc : list Z)
    : zhuffman * list Z :=
  fold_left
    (fun '(z, nc) i =>
       let s := get sizelist i in
       if s =? 0 then (z, nc)
       else
         let c := get nc s - get (zh_firstcode z) s + get (zh_firstsymbol z) s in
         let fastv := Z.lor (Z.shiftl s 9) i in
         let fast := if s <=? ZFAST_BITS
                     then zfill_fast (zh_fast z) (bit_reverse (get nc s) s)
                            (Z.shiftl 1 s) fastv 512
                     else zh_fast z in
         (mkZH fast (zh_firstcode z) (zh_maxcode z) (zh_firstsymbol z)
               (set (zh_size z) c s) (set (zh_value z) c i),
          set nc s (get nc s + 1)))
    (map Z.of_nat (seq 0 (Z.to_nat num))) (z, nc).

(** [stbi__zbuild_huffman] on the table [z] (whose [size] and [value] arrays
    keep their previous contents where this build writes nothing). *)
Definition zbuild_huffman (z : zhuffman) (sizelist : list Z) (num : Z)
    : option zhuffman :=
  let sizes := set (zsizes sizelist num) 0 0 in
  if existsb (fun i => get sizes i >? Z.shiftl 1 i) (map Z.of_nat (seq 1 15))
  then None
  else
    match zcodes sizes 1 15 0 0 (repeat 0 16) (zh_firstcode z) (zh_firstsymbol z)
                 (zh_maxcode z) with
    | None => None
    | Some (nc, fc, fs, mc) =>
        let z1 := mkZH (repeat 0 512) fc (set mc 16 0x10000) fs (zh_size z) (zh_value z) in
        Some (fst (zassign sizelist num z1 nc))
    end.

(** [stbi__zbuf]: [zin] is [zbuffer .. zbuffer_end], [zout] the bytes from
    [zout_start] to [zout], [zlimit] is [zout_end - zout_start]. *)
Record zbuf := mkZB {
  zin : list Z;
  num_bits : Z;
  code_buffer : Z;
  zout : list Z;
  zlimit : Z;
  z_expandable : bool;
  z_length : zhuffman;
  z_distance : zhuffman
}.

Inductive zres (A : Type) : Type :=
| ZOk (a : A)
| ZErr
| ZLoop.
Arguments ZOk {A} a.
Arguments ZErr {A}.
Arguments ZLoop {A}.

Definition ZM (A : Type) : Type := zbuf -> zres (A * zbuf).
Definition zret {A} (a : A) : ZM A := fun z => ZOk (a, z).
Definition zbind {A B} (c : ZM A) (k : A -> ZM B) : ZM B :=
  fun z => match c z with
           | ZOk (a, z') => k a z'
           | ZErr => ZErr
           | ZLoop => ZLoop
           end.
Definition zfail {A} : ZM A := fun _ => ZErr.
Definition zget : ZM zbuf := fun z => ZOk (z, z).
Definition zput (z : zbuf) : ZM unit := fun _ => ZOk (tt, z).

Declare Scope zm_scope.
Notation "'let%' x ':=' c 'in' k" := (zbind c (fun x => k))
  (at level 200, x name, c at level 100, k at level 200) : zm_scope.
Notation "c ;;; k" := (zbind c (fun _ => k))
  (at level 100, right associativity) : zm_scope.
Open Scope zm_scope.

Definition with_bits (z : zbuf) (nb cb : Z) : zbuf :=
  mkZB (zin z) nb cb (zout z) (zlimit z) (z_expandable z) (z_length z) (z_distance z).
Definition with_in (z : zbuf) (i : list Z) : zbuf :=
  mkZB i (num_bits z) (code_buffer z) (zout z) (zlimit z) (z_expandable z)
       (z_length z) (z_distance z).
Definition with_out (z : zbuf) (o : list Z) (lim : Z) : zbuf :=
  mkZB (zin z) (num_bits z) (code_buffer z) o lim (z_expandable z)
       (z_length z) (z_distance z).
Definition with_tables (z : zbuf) (l d : zhuffman) : zbuf :=
  mkZB (zin z) (num_bits z) (code_buffer z) (zout z) (zlimit z) (z_expandable z) l d.

(** [stbi__zget8]: 0 once the input is exhausted. *)
Definition zget8 : ZM Z :=
  fun z => match zin z with
           | [] => ZOk (0, z)
           | b :: r => ZOk (b, with_in z r)
           end.

(** [stbi__fill_bits]: [do { ... } while (num_bits <= 24)] ([num_bits] is
    nonnegative here, so the fuel of 64 rounds is never the limit). *)
Fixpoint fill_bits_loop (fuel : nat) : ZM unit :=
  let% b := zget8 in
  let% z := zget in
  let cb := Z.land (Z.lor (code_buffer z) (Z.shiftl b (num_bits z))) 0xFFFFFFFF in
  let nb := num_bits z + 8 in
  zput (with_bits z nb cb) ;;;
  if nb <=? 24 then
    match fuel with O => zret tt | S f => fill_bits_loop f end
  else zret tt.

Definition fill_bits : ZM unit := fill_bits_loop 64.

(** [stbi__zreceive]. *)
Definition zreceive (n : Z) : ZM Z :=
  let% z0 := zget in
  (if num_bits z0 <? n then fill_bits else zret tt) ;;;
  let% z := zget in
  let k := Z.land (code_buffer z) (Z.shiftl 1 n - 1) in
  zput (with_bits z (num_bits z - n) (Z.shiftr (code_buffer z) n)) ;;;
  zret k.

(** The slow-path search [for (s=ZFAST_BITS+1; ; ++s) if (k < maxcode[s]) break;]
    ([maxcode[16]] is the sentinel 0x10000, above every [k]). *)
Fixpoint slow_len (mc : list Z) (k s : Z) (fuel : nat) : Z :=
  match fuel with
  | O => s
  | S f => if k <? get mc s then s else slow_len mc k (s + 1) f
  end.

(** [stbi__zhuffman_decode_slowpath]. *)
Definition zhuffman_decode_slowpath (h : zhuffman) : ZM Z :=
  let% z := zget in
  let k := bit_reverse (code_buffer z) 16 in
  let s := slow_len (zh_maxcode h) k (ZFAST_BITS + 1) 7 in
  if s =? 16 then zret (-1)
  else
    let b := Z.shiftr k (16 - s) - get (zh_firstcode h) s + get (zh_firstsymbol h) s in
    zput (with_bits z (num_bits z - s) (Z.shiftr (code_buffer z) s)) ;;;
    zret (get (zh_value h) b).

(** [stbi__zhuffman_decode]. *)
Definition zhuffman_decode (h : zhuffman) : ZM Z :=
  let% z0 := zget in
  (if num_bits z0 <? 16 then fill_bits else zret tt) ;;;
  let% z := zget in
  let b := get (zh_fast h) (Z.land (code_buffer z) ZFAST_MASK) in
  if negb (b =? 0) then
    let s := Z.shiftr b 9 in
    zput (with_bits z (num_bits z - s) (Z.shiftr (code_buffer z) s)) ;;;
    zret (Z.land b 511)
  else zhuffman_decode_slowpath h.

(** [stbi__zexpand]: fails on a fixed output buffer; a growable one doubles
    its limit until [n] more bytes fit. *)
Fixpoint grow_limit (cur n limit : Z) (fuel : nat) : option Z :=
  match fuel with
  | O => None
  | S f => if cur + n >? limit then grow_limit cur n (limit * 2) f else Some limit
  end.

Definition zexpand (n : Z) : ZM unit :=
  fun z =>
    if negb (z_expandable z) then ZErr
    else match grow_limit (Z.of_nat (length (zout z))) n (zlimit z) 64 with
         | Some lim => ZOk (tt, with_out z (zout z) lim)
         | None => ZLoop
         end.

Definition zlength_base : list Z :=
  [3;4;5;6;7;8;9;10;11;13;15;17;19;23;27;31;35;43;51;59;
   67;83;99;115;131;163;195;227;258;0;0].
Definition zlength_extra : list Z :=
  [0;0;0;0;0;0;0;0;1;1;1;1;2;2;2;2;3;3;3;3;4;4;4;4;5;5;5;5;0;0;0].
Definition zdist_base : list Z :=
  [1;2;3;4;5;7;9;13;17;25;33;49;65;97;129;193;
   257;385;513;769;1025;1537;2049;3073;4097;6145;8193;12289;16385;24577;0;0].
Definition zdist_extra : list Z :=
  [0;0;0;0;1;1;2;2;3;3;4;4;5;5;6;6;7;7;8;8;9;9;10;10;11;11;12;12;13;13;0;0].

(** The back-reference copy [do *zout++ = *p++; while (--len);] from
    [p = zout - dist]; the bytes past those written are those of the fresh
    output block (zeros in the model, as [c_malloc] makes them). *)
Fixpoint copy_bytes (out : list Z) (p : Z) (len : nat) : list Z :=
  match len with
  | O => out
  | S l => copy_bytes (out ++ [get out p]) (p + 1) l
  end.

Definition zextra (base extra : Z) : ZM Z :=
  if extra =? 0 then zret base
  else let% e := zreceive extra in zret (base + e).

Definition outlen (z : zbuf) : Z := Z.of_nat (length (zout z)).

Definition zemit (bs : list Z) : ZM unit :=
  let% z := zget in zput (with_out z (zout z ++ bs) (zlimit z)).

(** [stbi__parse_huffman_block]; [fuel] bounds the iterations of [for(;;)]. *)
Fixpoint parse_huffman_block (fuel : nat) : ZM unit :=
  match fuel with
  | O => fun _ => ZLoop
  | S f =>
      let% z := zget in
      let% sym := zhuffman_decode (z_length z) in
      if sym <? 256 then
        if sym <? 0 then zfail
        else
          let% z1 := zget in
          (if outlen z1 >=? zlimit z1 then zexpand 1 else zret tt) ;;;
          zemit [sym] ;;;
          parse_huffman_block f
      else if sym =? 256 then zret tt
      else
        let zz := sym - 257 in
        let% len := zextra (get zlength_base zz) (get zlength_extra zz) in
        let% z2 := zget in
        let% ds := zhuffman_decode (z_distance z2) in
        if ds <? 0 then zfail
        else
          let% dist := zextra (get zdist_base ds) (get zdist_extra ds) in
          let% z3 := zget in
          if outlen z3 <? dist then zfail
          else
            (if outlen z3 + len >? zlimit z3 then zexpand len else zret tt) ;;;
            let% z4 := zget in
            let o := zout z4 in
            let o' := if dist =? 1 then o ++ repeat (get o (outlen z4 - 1)) (Z.to_nat len)
                      else copy_bytes o (outlen z4 - dist) (Z.to_nat len) in
            zput (with_out z4 o' (zlimit z4)) ;;;
            parse_huffman_block f
  end.

Definition length_dezigzag : list Z :=
  [16;17;18;0;8;7;9;6;10;5;11;4;12;3;13;2;14;1;15].

Fixpoint read_cl_sizes (i : nat) (hclen : nat) (cls : list Z) : ZM (list Z) :=
  match hclen with
  | O => zret cls
  | S h =>
      let% s := zreceive 3 in
      read_cl_sizes (S i) h (set cls (get length_dezigzag (Z.of_nat i)) s)
  end.

Fixpoint zmemset (l : list Z) (n : Z) (v : Z) (c : nat) : list Z :=
  match c with
  | O => l
  | S c' => zmemset (set l n v) (n + 1) v c'
  end.

(** The loop [while (n < hlit + hdist)] of [stbi__compute_huffman_codes]; each
    round increases [n], so [hlit + hdist] rounds suffice. *)
Fixpoint read_lencodes (zcl : zhuffman) (total : Z) (fuel : nat) (n : Z)
    (lc : list Z) : ZM (Z * list Z) :=
  if negb (n <? total) then zret (n, lc)
  else match fuel with
  | O => zret (n, lc)
  | S f =>
      let% c := zhuffman_decode zcl in
      if (c <? 0) || (c >=? 19) then zfail
      else if c <? 16 then read_lencodes zcl total f (n + 1) (set lc n c)
      else if c =? 16 then
        let% r := zreceive 2 in
        read_lencodes zcl total f (n + r + 3) (zmemset lc n (get lc (n - 1)) (Z.to_nat (r + 3)))
      else if c =? 17 then
        let% r := zreceive 3 in
        read_lencodes zcl total f (n + r + 3) (zmemset lc n 0 (Z.to_nat (r + 3)))
      else
        let% r := zreceive 7 in
        read_lencodes zcl total f (n + r + 11) (zmemset lc n 0 (Z.to_nat (r + 11)))
  end.

(** [stbi__compute_huffman_codes] ([lencodes] and [z_codelength] are stack
    arrays; the model starts them at zero). *)
Definition compute_huffman_codes : ZM unit :=
  let% hlit0 := zreceive 5 in
  let% hdist0 := zreceive 5 in
  let% hclen0 := zreceive 4 in
  let hlit := hlit0 + 257 in
  let hdist := hdist0 + 1 in
  let hclen := hclen0 + 4 in
  let% cls := read_cl_sizes 0 (Z.to_nat hclen) (repeat 0 19) in
  match zbuild_huffman zhuffman_zero cls 19 with
  | None => zfail
  | Some zcl =>
      let% r := read_lencodes zcl (hlit + hdist) (Z.to_nat (hlit + hdist)) 0
                  (repeat 0 (286 + 32 + 137)) in
      let '(n, lc) := r in
      if negb (n =? hlit + hdist) then zfail
      else
        let% z := zget in
        match zbuild_huffman (z_length z) lc hlit with
        | None => zfail
        | Some zl =>
            match zbuild_huffman (z_distance z) (drop (Z.to_nat hlit) lc) hdist with
            | None => zfail
            | Some zd => zput (with_tables z zl zd)
            end
        end
  end.

(** The drain [while (a->num_bits > 0)] of the bit buffer into [header]. *)
Fixpoint drain (fuel : nat) (hdr : list Z) : ZM (list Z) :=
  match fuel with
  | O => zret hdr
  | S f =>
      let% z := zget in
      if num_bits z >? 0 then
        zput (with_bits z (num_bits z - 8) (Z.shiftr (code_buffer z) 8)) ;;;
        drain f (hdr ++ [Z.land (code_buffer z) 255])
      else zret hdr
  end.

Fixpoint fill_header (n : nat) (hdr : list Z) : ZM (list Z) :=
  match n with
  | O => zret hdr
  | S n' => let% b := zget8 in fill_header n' (hdr ++ [b])
  end.

(** [stbi__parse_uncompressed_block]. *)
Definition parse_uncompressed_block : ZM unit :=
  let% z0 := zget in
  (if negb (Z.land (num_bits z0) 7 =? 0) then zreceive (Z.land (num_bits z0) 7) ;;; zret tt
   else zret tt) ;;;
  let% h0 := drain 8 [] in
  let% hdr := fill_header (4 - length h0) h0 in
  let len := get hdr 1 * 256 + get hdr 0 in
  let nlen := get hdr 3 * 256 + get hdr 2 in
  if negb (nlen =? Z.lxor len 0xffff) then zfail
  else
    let% z := zget in
    if Z.of_nat (length (zin z)) <? len then zfail
    else
      (if outlen z + len >? zlimit z then zexpand len else zret tt) ;;;
      let% z' := zget in
      zput (with_in (with_out z' (zout z' ++ take (Z.to_nat len) (zin z')) (zlimit z'))
                    (drop (Z.to_nat len) (zin z'))).

(** [stbi__parse_zlib_header]. *)
Definition parse_zlib_header : ZM unit :=
  let% cmf := zget8 in
  let cm := Z.land cmf 15 in
  let% flg := zget8 in
  if negb ((cmf * 256 + flg) mod 31 =? 0) then zfail
  else if negb (Z.land flg 32 =? 0) then zfail
  else if negb (cm =? 8) then zfail
  else zret tt.

(** The fixed code lengths of [stbi__init_zdefaults]. *)
Definition zdefault_length : list Z :=
  repeat 8 144 ++ repeat 9 112 ++ repeat 7 24 ++ repeat 8 8.
Definition zdefault_distance : list Z := repeat 5 32.

(** The [do { ... } while (!final)] loop of [stbi__parse_zlib]. *)
Fixpoint parse_blocks (fuel : nat) : ZM unit :=
  match fuel with
  | O => fun _ => ZLoop
  | S f =>
      let% final := zreceive 1 in
      let% type := zreceive 2 in
      (if type =? 0 then parse_uncompressed_block
       else if type =? 3 then zfail
       else
         (if type =? 1 then
            let% z := zget in
            match zbuild_huffman (z_length z) zdefault_length 288 with
            | None => zfail
            | Some zl =>
                match zbuild_huffman (z_distance z) zdefault_distance 32 with
                | None => zfail
                | Some zd => zput (with_tables z zl zd)
                end
            end
          else compute_huffman_codes) ;;;
         parse_huffman_block fuel) ;;;
      if final =? 0 then parse_blocks f else zret tt
  end.

(** [stbi__parse_zlib]. *)
Definition parse_zlib (fuel : nat) (parse_header : bool) : ZM unit :=
  (if parse_header then parse_zlib_header else zret tt) ;;;
  let% z := zget in
  zput (with_bits z 0 0) ;;;
  parse_blocks fuel.

(** The iteration bound of the decoder loops: every round consumes input bits
    or writes output. *)
Definition zfuel (ilen olen : Z) : nat := Z.to_nat (8 * ilen + olen + 64).

(** [stbi__do_zlib] on the input bytes [ibuf]. *)
Definition do_zlib (ibuf : list Z) (olen : Z) (exp parse_header : bool) : zres zbuf :=
  let z0 := mkZB ibuf 0 0 [] olen exp zhuffman_zero zhuffman_zero in
  match parse_zlib (zfuel (Z.of_nat (length ibuf)) olen) parse_header z0 with
  | ZOk (_, z) => ZOk z
  | ZErr => ZErr
  | ZLoop => ZLoop
  end.

(** [stbi_zlib_decode_buffer]: the bytes written into [obuffer], or [ZErr]
    where the C function returns -1. *)
Definition stbi_zlib_decode_buffer (olen : Z) (ibuf : list Z) : zres (list Z) :=
  match do_zlib ibuf olen false true with
  | ZOk z => ZOk (zout z)
  | ZErr => ZErr
  | ZLoop => ZLoop
  end.

(** [stbi_zlib_decode_malloc_guesssize_headerflag]: the bytes of the returned
    block, [ZErr] where the block is freed and NULL returned. *)
Definition stbi_zlib_decode_malloc_guesssize_headerflag (ibuf : list Z) (initial_size : Z)
    (parse_header : bool) : zres (list Z) :=
  match do_zlib ibuf initial_size true parse_header with
  | ZOk z => ZOk (zout z)
  | ZErr => ZErr
  | ZLoop => ZLoop
  end.

Definition stbi_zlib_decode_malloc_guesssize (ibuf : list Z) (initial_size : Z) : zres (list Z) :=
  match do_zlib ibuf initial_size true true with
  | ZOk z => ZOk (zout z)
  | ZErr => ZErr
  | ZLoop => ZLoop
  end.

Definition stbi_zlib_decode_malloc (ibuf : list Z) : zres (list Z) :=
  stbi_zlib_decode_malloc_guesssize ibuf 16384.

Definition stbi_zlib_decode_noheader_malloc (ibuf : list Z) : zres (list Z) :=
  match do_zlib ibuf 16384 true false with
  | ZOk z => ZOk (zout z)
  | ZErr => ZErr
  | ZLoop => ZLoop
  end.

Definition stbi_zlib_decode_noheader_buffer (olen : Z) (ibuf : list Z) : zres (list Z) :=
  match do_zlib ibuf olen false false with
  | ZOk z => ZOk (zout z)
  | ZErr => ZErr
  | ZLoop => ZLoop
  end.

Definition stored_block (final : bool) (bs : list Z) : list Z :=
  let len := Z.of_nat (length bs) in
  [if final then 1 else 0; len mod 256; len / 256;
   (65535 - len) mod 256; (65535 - len) / 256] ++ bs.

Fixpoint stored_blocks (bss : list (list Z)) : list Z :=
  match bss with
  | [] => []
  | [bs] => stored_block true bs
  | bs :: r => stored_block false bs ++ stored_blocks r
  end.

(** The zlib header [0x78 0x01] when [parse_header] is set. *)
Definition zhdr (parse_header : bool) : list Z := if parse_header then [120; 1] else [].

Definition zpost {A} (c : ZM A) (z : zbuf) (P : A -> zbuf -> Prop) : Prop :=
  match c z with ZOk (a, z') => P a z' | _ => True end.

Definition zsame (z z' : zbuf) : Prop :=
  zout z' = zout z /\ zlimit z' = zlimit z /\ z_expandable z' = z_expandable z.

Definition zinv (olen : Z) (z : zbuf) : Prop :=
  z_expandable z = false /\ zlimit z = olen /\ Z.of_nat (length (zout z)) <= olen.

End Zlib.

(* ------------------------------------------------------------------------- *)
(** * Frames and cels *)

Definition set_frames (S : ASE_Sprite) (fs : list ASE_Frame) : ASE_Sprite :=
  mkSprite (sp_width S) (sp_height S) (sp_depth S) (sp_palette S)
           (sp_nlayers S) (sp_layers S) (sp_layer_array S)
           (sp_nframes S) (sp_frames S) fs
           (sp_ntags S) (sp_tags S) (sp_tag_array S).

Definition set_palette (S : ASE_Sprite) (p : ASE_Palette) : ASE_Sprite :=
  mkSprite (sp_width S) (sp_height S) (sp_depth S) p
           (sp_nlayers S) (sp_layers S) (sp_layer_array S)
           (sp_nframes S) (sp_frames S) (sp_frame_array S)
           (sp_ntags S) (sp_tags S) (sp_tag_array S).

(** [ASE_DOC_AddFrame]. *)
Definition ASE_DOC_AddFrame (S : ASE_Sprite) : LD ASE_Sprite :=
  let n := sp_nframes S + 1 in
  let! p := c_realloc (sp_frames S) (n * sizeof_ASE_Frame) in
  ld_ret (mkSprite (sp_width S) (sp_height S) (sp_depth S) (sp_palette S)
             (sp_nlayers S) (sp_layers S) (sp_layer_array S)
             n p (sp_frame_array S ++ [ASE_Frame_zero])
             (sp_ntags S) (sp_tags S) (sp_tag_array S)).

(** [ASE_DOC_AddCel]. *)
Definition ASE_DOC_AddCel (F : ASE_Frame) : LD ASE_Frame :=
  let n := fr_ncels F + 1 in
  let! p := c_realloc (fr_cels F) (n * sizeof_ASE_Cel) in
  ld_ret (mkFrame (fr_duration F) n p (fr_cel_array F ++ [ASE_Cel_zero])).

Definition set_last_cel (F : ASE_Frame) (c : ASE_Cel) : ASE_Frame :=
  mkFrame (fr_duration F) (fr_ncels F) (fr_cels F)
          (<[Z.to_nat (fr_ncels F - 1) := c]> (fr_cel_array F)).

Definition last_cel (F : ASE_Frame) : ASE_Cel :=
  nth (Z.to_nat (fr_ncels F - 1)) (fr_cel_array F) ASE_Cel_zero.

Definition with_data (c : ASE_Cel) (d : Z) : ASE_Cel :=
  mkCel (cel_layer c) (cel_x c) (cel_y c) (cel_w c) (cel_h c) (cel_opacity c) d
        (cel_is_linked c) (cel_frame c).

Definition bytes_per_pixel (depth : Z) : Z :=
  if depth =? ASE_DEPTH_RGBA then 4
  else if depth =? ASE_DEPTH_GRAYSCALE then 2
  else if depth =? ASE_DEPTH_INDEXED then 1 else 0.

(** [ASE_DOC_read_raw_image_rgba], [_grayscale] and [_indexed]: [bpp] bytes
    for each of the [Cel->w * Cel->h] pixels. *)
Definition ASE_DOC_read_raw_image (bpp : Z) (c : ASE_Cel) : LD ASE_Cel :=
  let n := to_int32 (cel_w c * cel_h c) in
  let! d := c_malloc (to_int32 (n * bpp)) in
  let! bs := read_bytes (Z.to_nat n * Z.to_nat bpp) in
  heap_write d 0 bs ;;
  ld_ret (with_data c d).

(** [ASE_DOC_read_compressed_rgba], [_grayscale] and [_indexed]: the bytes up
    to [EndPos] go to [stbi_zlib_decode_buffer]; on -1 the output block is
    freed and [Cel->data] stays as it is. *)
Definition ASE_DOC_read_compressed (bpp : Z) (c : ASE_Cel) (EndPos : Z) : LD ASE_Cel :=
  let! pos := ASE__mem_tell in
  let isize := to_int32 (EndPos - pos) in
  let! ib := c_malloc (isize + 16) in
  let! ibytes := read_bytes (Z.to_nat isize) in
  heap_write ib 0 ibytes ;;
  let osize := to_int32 (cel_w c * cel_h c * bpp) in
  let! ob := c_malloc osize in
  let! c' :=
    (fun m => match Zlib.stbi_zlib_decode_buffer osize ibytes with
              | Zlib.ZErr => (c_free ob ;; ld_ret c) m
              | Zlib.ZOk out => (heap_write ob 0 out ;; ld_ret (with_data c ob)) m
              | Zlib.ZLoop => Hang
              end) in
  c_free ib ;;
  ld_ret c'.

Definition set_frame (S : ASE_Sprite) (fi : Z) (F : ASE_Frame) : ASE_Sprite :=
  set_frames S (<[Z.to_nat fi := F]> (sp_frame_array S)).

Definition get_frame (S : ASE_Sprite) (fi : Z) : ASE_Frame :=
  nth (Z.to_nat fi) (sp_frame_array S) ASE_Frame_zero.

(** [ASE_Cel_read] for the frame [S->frames + fi]; returns whether a cel was
    created. *)
Definition ASE_Cel_read (S : ASE_Sprite) (fi : Z) (EndPos : Z)
    : LD (bool * ASE_Sprite) :=
  let! layer := ASE__read16 in
  let! x := ASE__read16 in
  let! y := ASE__read16 in
  let! opacity := ASE__read8 in
  let! type := ASE__read16 in
  ASE__mem_skip 7 ;;
  if negb ((0 <=? layer) && (layer <? sp_nlayers S)) then ld_ret (false, S)
  else if negb (ly_type (nth (Z.to_nat layer) (sp_layer_array S) ASE_Layer_zero)
                =? ASE_FILE_LAYER_IMAGE) then ld_ret (false, S)
  else
    let! F := ASE_DOC_AddCel (get_frame S fi) in
    let c0 := mkCel layer (to_int16 x) (to_int16 y) 0 0 opacity 0 0 0 in
    let! c :=
      (if type =? ASE_FILE_RAW_CEL then
         let! w := ASE__read16 in
         let! h := ASE__read16 in
         let c1 := mkCel layer (to_int16 x) (to_int16 y) (to_int16 w) (to_int16 h)
                         opacity 0 0 0 in
         if (w >? 0) && (h >? 0) && (bytes_per_pixel (sp_depth S) >? 0)
         then ASE_DOC_read_raw_image (bytes_per_pixel (sp_depth S)) c1
         else ld_ret c1
       else if type =? ASE_FILE_LINK_CEL then
         let! frame := ASE__read16 in
         ld_ret (mkCel layer (to_int16 x) (to_int16 y) 0 0 opacity 0 1 frame)
       else if type =? ASE_FILE_COMPRESSED_CEL then
         let! w := ASE__read16 in
         let! h := ASE__read16 in
         let c1 := mkCel layer (to_int16 x) (to_int16 y) (to_int16 w) (to_int16 h)
                         opacity 0 0 0 in
         if (w >? 0) && (h >? 0) && (bytes_per_pixel (sp_depth S) >? 0)
         then ASE_DOC_read_compressed (bytes_per_pixel (sp_depth S)) c1 EndPos
         else ld_ret c1
       else ld_ret c0) in
    ld_ret (true, set_frame S fi (set_last_cel F c)).

(* ------------------------------------------------------------------------- *)
(** * [ASE__decode_main] *)

(** The locals of [ASE__decode_main] that outlive a chunk ([LastWithUserData]
    and [LastCel] are written but never read, and are left out). *)
Record DecState := mkDecState {
  ds_sprite : ASE_Sprite;
  ds_layers : LayerState;
  ds_ignore_old : bool
}.

(** The dispatch of one chunk on its type; [EndPos] is
    [ChunkHeaderStart + ChunkHeader.size]. *)
Definition ASE__dispatch_chunk (type : Z) (fi EndPos : Z) (d : DecState) : LD DecState :=
  let S := ds_sprite d in
  if (type =? ASE_FILE_CHUNK_FLI_COLOR) || (type =? ASE_FILE_CHUNK_FLI_COLOR2) then
    ld_ret d
  else if type =? ASE_FILE_CHUNK_PALETTE then
    let! p := ASE_Palette_read (sp_palette S) in
    ld_ret (mkDecState (set_palette S p) (ds_layers d) true)
  else if type =? ASE_FILE_CHUNK_LAYER then
    let! r := ASE_Layer_read S (ds_layers d) in
    let '(_, S', st') := r in
    ld_ret (mkDecState S' st' (ds_ignore_old d))
  else if type =? ASE_FILE_CHUNK_CEL then
    let! r := ASE_Cel_read S fi EndPos in
    ld_ret (mkDecState (snd r) (ds_layers d) (ds_ignore_old d))
  else if type =? ASE_FILE_CHUNK_FRAME_TAGS then
    let! S' := ASE_Tags_read S in
    ld_ret (mkDecState S' (ds_layers d) (ds_ignore_old d))
  else ld_ret d.

(** One round of the chunk loop: header at the current position, dispatch,
    then [seek(ChunkHeaderStart + ChunkHeader.size)] (a [size_t] sum passed
    as the [int] of the seek callback). *)
Definition ASE__decode_chunk (fi : Z) (d : DecState) : LD DecState :=
  let! start := ASE__mem_tell in
  let! ch := ASE_DOC_ChunkHeader_read in
  let! d' := ASE__dispatch_chunk (ch_type ch) fi (start + ch_size ch) d in
  ASE__mem_seek (to_int32 (start + ch_size ch)) ;;
  ld_ret d'.

Fixpoint ASE__decode_chunks (n : nat) (fi : Z) (d : DecState) : LD DecState :=
  match n with
  | O => ld_ret d
  | S n' => let! d' := ASE__decode_chunk fi d in ASE__decode_chunks n' fi d'
  end.

(** One round of the frame loop. *)
Definition ASE__decode_frame (ndebug : bool) (d : DecState) : LD DecState :=
  let! start := ASE__mem_tell in
  let! fh := ASE_FrameHeader_read in
  c_assert ndebug (fh_magic fh =? ASE_FILE_FRAME_MAGIC) ;;
  let! S1 := ASE_DOC_AddFrame (ds_sprite d) in
  let fi := sp_nframes S1 - 1 in
  let F := get_frame S1 fi in
  let S2 := set_frame S1 fi (mkFrame (fh_duration fh) (fr_ncels F) (fr_cels F)
                                    (fr_cel_array F)) in
  let! d' := ASE__decode_chunks (Z.to_nat (fh_chunks fh)) fi
                                (mkDecState S2 (ds_layers d) (ds_ignore_old d)) in
  ASE__mem_seek (to_int32 (start + fh_size fh)) ;;
  ld_ret d'.

Fixpoint ASE__decode_frames (ndebug : bool) (n : nat) (d : DecState) : LD DecState :=
  match n with
  | O => ld_ret d
  | S n' => let! d' := ASE__decode_frame ndebug d in ASE__decode_frames ndebug n' d'
  end.

(** [ASE__decode_main] into the caller's sprite [S]; [ndebug] tells whether
    the [assert]s are compiled away. *)
Definition ASE__decode_main (ndebug : bool) (S : ASE_Sprite) : LD (bool * ASE_Sprite) :=
  let R := true in
  let! hr := ASE_DOC_Header_read in
  let '(ok, H) := hr in
  c_assert ndebug ok ;;
  let S1 := mkSprite (h_width H) (h_height H) (h_depth H) (sp_palette S)
                     (sp_nlayers S) (sp_layers S) (sp_layer_array S)
                     (sp_nframes S) (sp_frames S) (sp_frame_array S)
                     (sp_ntags S) (sp_tags S) (sp_tag_array S) in
  let! d := ASE__decode_frames ndebug (Z.to_nat (h_frames H))
                               (mkDecState S1 (mkLayerState (-1) (-1)) false) in
  ld_ret (R, ds_sprite d).

(** [ASE_load_from_memory]: the memory byte source over [buffer], the caller's
    sprite [out] and heap. *)
Definition ASE_load_from_memory (ndebug : bool) (buffer : list Z) (out : ASE_Sprite)
    (heap : gmap Z (list Z)) (next : Z) : outcome (bool * ASE_Sprite * Mach) :=
  match ASE__decode_main ndebug out (mkMach buffer 0 heap next) with
  | Ret ((r, Sp), m) => Ret (r, Sp, m)
  | Abort => Abort
  | Hang => Hang
  end.

(* ------------------------------------------------------------------------- *)
(** * Lookups by name, linked cels and visibility *)

(** The characters of a C string stored in [l]: those before the first NUL. *)
Fixpoint c_string (l : list Z) : list Z :=
  match l with
  | [] => []
  | x :: r => if x =? 0 then [] else x :: c_string r
  end.

(** The three tests after the loop of [ASE_streq], on [*a] and [*b]. *)
Definition ASE_streq_end (ca cb : Z) : Z :=
  if negb (ca =? 0) && (cb =? 0) then 0
  else if negb (cb =? 0) && (ca =? 0) then 0
  else 1.

(** [ASE_streq] on the bytes from [a] and [b]; a read past the end of a block
    gives 0. *)
Fixpoint ASE_streq (a b : list Z) : Z :=
  match a with
  | [] => ASE_streq_end 0 (hd 0 b)
  | x :: a' =>
      let y := hd 0 b in
      if negb (x =? 0) && negb (y =? 0) then
        if negb (x =? y) then 0 else ASE_streq a' (tl b)
      else ASE_streq_end x y
  end.

(** The bytes of the heap block that a [char *] points at (the start of its
    block); a dangling pointer reads as an empty block. *)
Definition heap_str (heap : gmap Z (list Z)) (p : Z) : list Z :=
  default [] (heap !! p).

(** [for (int i = start; i < start + k; ++i) if (p(i)) return i;] and then the
    NULL return, as [None]. *)
Fixpoint find_first (p : Z -> bool) (i : Z) (k : nat) : option Z :=
  match k with
  | O => None
  | S k' => if p i then Some i else find_first p (i + 1) k'
  end.

Definition layer_name_at (heap : gmap Z (list Z)) (S : ASE_Sprite) (i : Z) : list Z :=
  heap_str heap (ly_name (nth (Z.to_nat i) (sp_layer_array S) ASE_Layer_zero)).

Definition tag_name_at (heap : gmap Z (list Z)) (S : ASE_Sprite) (i : Z) : list Z :=
  heap_str heap (tag_name (nth (Z.to_nat i) (sp_tag_array S) ASE_Tag_zero)).

(** [ASE_get_layer_by_name]: the index of the returned layer, [None] for NULL. *)
Definition ASE_get_layer_by_name (heap : gmap Z (list Z)) (S : ASE_Sprite) (name : list Z)
    : option Z :=
  find_first (fun i => negb (ASE_streq name (layer_name_at heap S i) =? 0))
             0 (Z.to_nat (sp_nlayers S)).

(** [ASE_get_tag_by_name]. *)
Definition ASE_get_tag_by_name (heap : gmap Z (list Z)) (S : ASE_Sprite) (name : list Z)
    : option Z :=
  find_first (fun i => negb (ASE_streq name (tag_name_at heap S i) =? 0))
             0 (Z.to_nat (sp_ntags S)).

(** [ASE_get_linked_cel]: the index of the returned cel in the frame
    [sprite->frames + cel->frame], [None] for NULL. The C indexes
    [sprite->frames] and [lf->cels] without bounds checks; out of range the
    model reads the zero records of [nth], where the C reads outside the
    arrays. *)
Definition ASE_get_linked_cel (S : ASE_Sprite) (c : ASE_Cel) : option Z :=
  let lf := get_frame S (cel_frame c) in
  find_first (fun ic => cel_layer (nth (Z.to_nat ic) (fr_cel_array lf) ASE_Cel_zero)
                         =? cel_layer c)
             0 (Z.to_nat (fr_ncels lf)).

(** [ASE_check_cel_visible]. *)
Definition ASE_check_cel_visible (S : ASE_Sprite) (c : ASE_Cel) : Z :=
  ly_visible (nth (Z.to_nat (cel_layer c)) (sp_layer_array S) ASE_Layer_zero).

(** * Concrete inputs *)

(** A document with one frame of five Image layer chunks of depths 0, 1, 1, 2, 0. *)
Definition doc_depths_01120 : list Z :=
  [0;0;0;0;224;165;1;0;4;0;4;0;32;0;0;0;0;0;100;0;0;0;0;0;0;0;0;0;0;0;0;0;0;0;1;1;0;0;0;0;0;0;0;0;0;0;0;0;0;0;0;0;0;0;0;0;0;0;0;0;0;0;0;0;0;0;0;0;0;0;0;0;0;0;0;0;0;0;0;0;0;0;0;0;0;0;0;0;0;0;0;0;0;0;0;0;0;0;0;0;0;0;0;0;0;0;0;0;0;0;0;0;0;0;0;0;0;0;0;0;0;0;0;0;0;0;0;0;136;0;0;0;250;241;5;0;100;0;0;0;0;0;0;0;24;0;0;0;4;32;1;0;0;0;0;0;0;0;0;0;0;0;255;0;0;0;0;0;24;0;0;0;4;32;1;0;0;0;1;0;0;0;0;0;0;0;255;0;0;0;0;0;24;0;0;0;4;32;1;0;0;0;1;0;0;0;0;0;0;0;255;0;0;0;0;0;24;0;0;0;4;32;1;0;0;0;2;0;0;0;0;0;0;0;255;0;0;0;0;0;24;0;0;0;4;32;1;0;0;0;0;0;0;0;0;0;0;0;255;0;0;0;0;0].

(** A document with one frame of five Image layer chunks of depths 0, 1, 2, 3, 2. *)
Definition doc_depths_01232 : list Z :=
  [0;0;0;0;224;165;1;0;4;0;4;0;32;0;0;0;0;0;100;0;0;0;0;0;0;0;0;0;0;0;0;0;0;0;1;1;0;0;0;0;0;0;0;0;0;0;0;0;0;0;0;0;0;0;0;0;0;0;0;0;0;0;0;0;0;0;0;0;0;0;0;0;0;0;0;0;0;0;0;0;0;0;0;0;0;0;0;0;0;0;0;0;0;0;0;0;0;0;0;0;0;0;0;0;0;0;0;0;0;0;0;0;0;0;0;0;0;0;0;0;0;0;0;0;0;0;0;0;136;0;0;0;250;241;5;0;100;0;0;0;0;0;0;0;24;0;0;0;4;32;1;0;0;0;0;0;0;0;0;0;0;0;255;0;0;0;0;0;24;0;0;0;4;32;1;0;0;0;1;0;0;0;0;0;0;0;255;0;0;0;0;0;24;0;0;0;4;32;1;0;0;0;2;0;0;0;0;0;0;0;255;0;0;0;0;0;24;0;0;0;4;32;1;0;0;0;3;0;0;0;0;0;0;0;255;0;0;0;0;0;24;0;0;0;4;32;1;0;0;0;2;0;0;0;0;0;0;0;255;0;0;0;0;0].

(** A document whose magic is 0x1234, with one frame holding one layer chunk. *)
Definition doc_bad_magic : list Z :=
  [0;0;0;0;52;18;1;0;4;0;4;0;32;0;0;0;0;0;100;0;0;0;0;0;0;0;0;0;0;0;0;0;0;0;1;1;0;0;0;0;0;0;0;0;0;0;0;0;0;0;0;0;0;0;0;0;0;0;0;0;0;0;0;0;0;0;0;0;0;0;0;0;0;0;0;0;0;0;0;0;0;0;0;0;0;0;0;0;0;0;0;0;0;0;0;0;0;0;0;0;0;0;0;0;0;0;0;0;0;0;0;0;0;0;0;0;0;0;0;0;0;0;0;0;0;0;0;0;40;0;0;0;250;241;1;0;100;0;0;0;0;0;0;0;24;0;0;0;4;32;1;0;0;0;0;0;0;0;0;0;0;0;255;0;0;0;0;0].

(** A palette chunk body: from 5 to 7, colors (1,2,3,4), (5,6,7,8), (9,10,11,12). *)
Definition palette_chunk_5_7 : list Z :=
  [3;0;0;0;5;0;0;0;7;0;0;0;0;0;0;0;0;0;0;0;0;0;1;2;3;4;0;0;5;6;7;8;0;0;9;10;11;12].

(** A user-data chunk whose declared size is 0x80000000. *)
Definition chunk_huge : list Z :=
  [0;0;0;128;32;32;0;0;0;0;0;0;0;0;0;0].

(** A cel chunk for layer 0: a 1x1 compressed cel at (3, 4) whose zlib
    stream has a valid header and then a block of the reserved type 3. *)
Definition chunk_cel_bad_zlib : list Z :=
  [30;0;0;0;5;32;0;0;3;0;4;0;255;2;0;0;0;0;0;0;0;0;1;0;1;0;120;156;255;255].

(** An RGBA sprite with one Image layer and one frame without cels. *)
Definition sprite_one_frame : ASE_Sprite :=
  mkSprite 1 1 ASE_DEPTH_RGBA (repeat 0 ASE_Palette_size)
           1 1 [mkLayer 0 ASE_LAYER_VISIBLE ASE_FILE_LAYER_IMAGE 0 255 0 (-1) 1]
           1 2 [ASE_Frame_zero] 0 0 [].

(** A sprite with one Image layer and one frame holding two cels on it, and a
    linked cel of that frame on the same layer. *)
Definition sprite_two_cels : ASE_Sprite :=
  mkSprite 1 1 ASE_DEPTH_RGBA (repeat 0 ASE_Palette_size)
           1 1 [mkLayer 0 ASE_LAYER_VISIBLE ASE_FILE_LAYER_IMAGE 0 255 0 (-1) 1]
           1 2 [mkFrame 100 2 3 [mkCel 0 0 0 1 1 255 4 0 0; mkCel 0 1 1 1 1 255 5 0 0]]
           0 0 [].

Definition linked_cel_frame0 : ASE_Cel := mkCel 0 0 0 0 0 255 0 1 0.

(* ========================================================================= *)
(** * Properties *)

(** The layer array a load from memory produces. *)
Definition loaded_layers (buf : list Z) : option (list ASE_Layer) :=
  match ASE_load_from_memory false buf ASE_Sprite_zero ∅ 1 with
  | Ret (_, Sp, _) => Some (sp_layer_array Sp)
  | _ => None
  end.

(** The parent indices of the layers a load from memory produces. *)
Definition loaded_parents (buf : list Z) : option (list Z) :=
  option_map (map ly_parent) (loaded_layers buf).

(** The next-frame function as the documentation words it; a negative
    PingPong index [v] stands for frame [to + v]. *)
Definition next_frame_documented (tag : ASE_Tag) (frame : Z) : Z :=
  if tag_dir tag =? ASE_LOOP_FORWARD then
    let f := frame + 1 in if f >? tag_to tag then tag_from tag else f
  else if tag_dir tag =? ASE_LOOP_REVERSE then
    let f := frame - 1 in if f <? tag_from tag then tag_to tag else f
  else if tag_dir tag =? ASE_LOOP_PINGPONG then
    if frame >=? 0 then
      let f := frame + 1 in
      if f >? tag_to tag then
        (if tag_from tag =? tag_to tag then 0 else -1)
      else f
    else
      let f := frame - 1 in if tag_to tag + f <? tag_from tag then 0 else f
  else frame.

(** The first [n] palette entries as (r, g, b, a). *)
Definition pal_entries (p : ASE_Palette) (n : nat) : list (Z * Z * Z * Z) :=
  map (fun k => pal_color p (Z.of_nat k)) (seq 0 n).

(** The palette after one palette chunk read from [buf] onto [p]. *)
Definition palette_after (p : ASE_Palette) (buf : list Z) : option ASE_Palette :=
  match ASE_Palette_read p (mkMach buf 0 ∅ 1) with
  | Ret (p', _) => Some p'
  | _ => None
  end.

(** The [size] field of the chunk or frame header that starts at the
    position of [m] (the value [ASE__read32] reads there). *)
Definition size_field_at (m : Mach) : Z :=
  match ASE__read32 m with Ret (v, _) => v | _ => 0 end.

(** [P] holds of the result and final state of every run of [c] from [m]
    that returns. *)
Definition ld_post {A} (c : LD A) (m : Mach) (P : A -> Mach -> Prop) : Prop :=
  match c m with Ret (a, m') => P a m' | _ => True end.

(** The decoder state before the first chunk of a document. *)
Definition DecState_init : DecState :=
  mkDecState ASE_Sprite_zero (mkLayerState (-1) (-1)) false.

(** The length of the memory block, [buf_end - buf_orig]. *)
Definition buf_len (buf : list Z) : Z := Z.of_nat (length buf).

(** The memory source at offset [off] of [buf], or at [buf_end] when [off] lies
    past it (reads and skips stop there). *)
Definition at_off (buf : list Z) (off : Z) (heap : gmap Z (list Z)) (next : Z) : Mach :=
  mkMach buf (Z.min off (buf_len buf)) heap next.

(** Little-endian fields of [buf]; a field that runs past the end reads as 0,
    the value [ASE__read8], [ASE__read16] and [ASE__read32] give on a short
    read. *)
Definition doc_u8 (buf : list Z) (off : Z) : Z :=
  if off + 1 <=? buf_len buf then byte_at buf off else 0.

Definition doc_u16 (buf : list Z) (off : Z) : Z :=
  if off + 2 <=? buf_len buf
  then Z.lor (Z.shiftl (byte_at buf (off + 1)) 8) (byte_at buf off)
  else 0.

Definition doc_u32 (buf : list Z) (off : Z) : Z :=
  if off + 4 <=? buf_len buf
  then Z.lor (Z.lor (Z.shiftl (byte_at buf (off + 3)) 24)
                    (Z.shiftl (byte_at buf (off + 2)) 16))
             (Z.lor (Z.shiftl (byte_at buf (off + 1)) 8) (byte_at buf off))
  else 0.

(** [n] bytes read one at a time from offset [off]. *)
Definition doc_bytes (buf : list Z) (off : Z) (n : nat) : list Z :=
  map (fun k => doc_u8 buf (off + Z.of_nat k)) (seq 0 n).

(** The header fields [magic] (offset 4) and [ncolors] (offset 32). *)
Definition doc_magic (buf : list Z) : Z := doc_u16 buf 4.
Definition doc_ncolors (buf : list Z) : Z := doc_u16 buf 32.

(** A palette as the C struct holds it: 1028 bytes. *)
Definition palette_ok (p : ASE_Palette) : bool :=
  (length p =? ASE_Palette_size)%nat && forallb (fun b => (0 <=? b) && (b <? 256)) p.

(** A cel chunk whose header starts at [off] of [buf]: chunk header (size
    u32, type u16), then layer u16 at [off+6], x, y, opacity u8 at [off+12],
    cel type u16 at [off+13], seven reserved bytes, width u16 at [off+22],
    height at [off+24] and the zlib payload from [off+26] to the chunk's end.
    [compressed_cel_at] holds when the chunk is a compressed cel of an image
    layer of [S] with non-empty dimensions and a known depth, and its fixed
    fields lie inside [buf]. *)
Definition compressed_cel_at (S : ASE_Sprite) (buf : list Z) (off : Z) : bool :=
  let layer := doc_u16 buf (off + 6) in
  (doc_u16 buf (off + 4) =? ASE_FILE_CHUNK_CEL) &&
  (0 <=? layer) && (layer <? sp_nlayers S) &&
  (ly_type (nth (Z.to_nat layer) (sp_layer_array S) ASE_Layer_zero) =? ASE_FILE_LAYER_IMAGE) &&
  (doc_u16 buf (off + 13) =? ASE_FILE_COMPRESSED_CEL) &&
  (doc_u16 buf (off + 22) >? 0) && (doc_u16 buf (off + 24) >? 0) &&
  (bytes_per_pixel (sp_depth S) >? 0) &&
  (off + 26 <=? buf_len buf).

(** The cel the header fields of that chunk describe, with no pixel data. *)
Definition cel_header_at (buf : list Z) (off : Z) : ASE_Cel :=
  mkCel (doc_u16 buf (off + 6)) (to_int16 (doc_u16 buf (off + 8)))
        (to_int16 (doc_u16 buf (off + 10))) (to_int16 (doc_u16 buf (off + 22)))
        (to_int16 (doc_u16 buf (off + 24))) (doc_u8 buf (off + 12)) 0 0 0.

(** The zlib payload of that chunk: the bytes from [off+26] up to
    [off + size], and the size of the pixel buffer it must fill. *)
Definition cel_payload (buf : list Z) (off : Z) : list Z :=
  doc_bytes buf (off + 26) (Z.to_nat (to_int32 (doc_u32 buf off - 26))).

Definition cel_osize (S : ASE_Sprite) (buf : list Z) (off : Z) : Z :=
  to_int32 (to_int16 (doc_u16 buf (off + 22)) * to_int16 (doc_u16 buf (off + 24))
            * bytes_per_pixel (sp_depth S)).

Definition tag_dir_ok (T : ASE_Tag) : bool :=
  (tag_dir T =? ASE_LOOP_FORWARD) || (tag_dir T =? ASE_LOOP_REVERSE)
  || (tag_dir T =? ASE_LOOP_PINGPONG).

Definition layer_ok (L : ASE_Layer) : bool :=
  ((ly_type L =? ASE_FILE_LAYER_IMAGE) || (ly_type L =? ASE_FILE_LAYER_GROUP))
  && ((ly_visible L =? 0) || (ly_visible L =? 1)).

Definition frame_ok (F : ASE_Frame) : bool :=
  Z.of_nat (length (fr_cel_array F)) =? fr_ncels F.

Definition sprite_wf (S : ASE_Sprite) : Prop :=
  Z.of_nat (length (sp_layer_array S)) = sp_nlayers S /\
  Z.of_nat (length (sp_frame_array S)) = sp_nframes S /\
  Z.of_nat (length (sp_tag_array S)) = sp_ntags S /\
  Forall (fun L => layer_ok L = true) (sp_layer_array S) /\
  Forall (fun F => frame_ok F = true) (sp_frame_array S) /\
  Forall (fun T => tag_dir_ok T = true) (sp_tag_array S).

Definition cel_ok (S : ASE_Sprite) (c : ASE_Cel) : bool :=
  (0 <=? cel_layer c) && (cel_layer c <? sp_nlayers S) &&
  (ly_type (nth (Z.to_nat (cel_layer c)) (sp_layer_array S) ASE_Layer_zero)
     =? ASE_FILE_LAYER_IMAGE).

Definition cels_ok (S : ASE_Sprite) : Prop :=
  Forall (fun F => Forall (fun c => cel_ok S c = true) (fr_cel_array F)) (sp_frame_array S).

(** [k] calls of [ASE_get_next_frame] on the same tag. *)
Fixpoint next_frame_iter (tag : ASE_Tag) (k : nat) (frame : Z) : Z :=
  match k with
  | O => frame
  | S k' => next_frame_iter tag k' (ASE_get_next_frame tag frame)
  end.

(** Five consecutive chunks, for the parents of nested layers: the chunk at
    [off] of [buf] is a layer chunk (chunk type at [off+4]) of an Image or
    Group layer (layer type at [off+8]) whose depth field (at [off+10]) is
    [depth]. *)
Definition layer_chunk_at (buf : list Z) (off depth : Z) : bool :=
  (doc_u16 buf (off + 4) =? ASE_FILE_CHUNK_LAYER) &&
  ((doc_u16 buf (off + 8) =? ASE_FILE_LAYER_IMAGE) ||
   (doc_u16 buf (off + 8) =? ASE_FILE_LAYER_GROUP)) &&
  (doc_u16 buf (off + 10) =? depth).

(** [buf] holds, from [off], consecutive layer chunks with the depths
    [depths], each chunk after the first starting where the chunk loop seeks
    after its predecessor: [to_int32 (start + size)]. *)
Fixpoint layer_chunks_at (buf : list Z) (off : Z) (depths : list Z) : bool :=
  match depths with
  | [] => true
  | dep :: r =>
      (0 <=? off) && layer_chunk_at buf off dep &&
      layer_chunks_at buf (to_int32 (off + doc_u32 buf off)) r
  end.

(** C4 (code_bug). Forward, Reverse and PingPong at a non-negative index
    agree with the documented rule, and so do the three documented examples;
    PingPong at a negative index compares the decremented value itself with
    [from] rather than [to + value]: for {from=2, to=5, PingPong} at -1 the
    code returns 0 where the documented rule gives -2 (frame 3). *)
Lemma next_frame_pingpong_negative_resets :
  (forall from to name frame,
     ASE_get_next_frame (mkTag from to ASE_LOOP_FORWARD name) frame =
     next_frame_documented (mkTag from to ASE_LOOP_FORWARD name) frame) /\
  (forall from to name frame,
     ASE_get_next_frame (mkTag from to ASE_LOOP_REVERSE name) frame =
     next_frame_documented (mkTag from to ASE_LOOP_REVERSE name) frame) /\
  (forall from to name (n : nat),
     ASE_get_next_frame (mkTag from to ASE_LOOP_PINGPONG name) (Z.of_nat n) =
     next_frame_documented (mkTag from to ASE_LOOP_PINGPONG name) (Z.of_nat n)) /\
  ASE_get_next_frame (mkTag 2 5 ASE_LOOP_FORWARD 0) 5 = 2 /\
  ASE_get_next_frame (mkTag 2 5 ASE_LOOP_REVERSE 0) 2 = 5 /\
  ASE_get_next_frame (mkTag 3 3 ASE_LOOP_PINGPONG 0) 3 = 0 /\
  ASE_get_next_frame (mkTag 2 5 ASE_LOOP_PINGPONG 0) (-1) = 0 /\
  next_frame_documented (mkTag 2 5 ASE_LOOP_PINGPONG 0) (-1) = -2.
Proof.
  split; [intros; reflexivity |].
  split; [intros; reflexivity |].
  split; [| repeat split; reflexivity].
  intros from to name n.
  unfold ASE_get_next_frame, next_frame_documented; cbn -[Z.of_nat].
  replace (Z.of_nat n >=? 0) with true by (symmetry; apply Z.geb_le; lia).
  destruct (Z.of_nat n + 1 >? to); [| reflexivity].
  destruct (to - from =? 0) eqn:E1, (from =? to) eqn:E2; try reflexivity;
    rewrite ?Z.eqb_eq, ?Z.eqb_neq in *; lia.
Qed.

(** C2 (code_bug). [ASE_Palette_read] stores the colors of a chunk at
    [ncolors], [ncolors + 1], ... rather than at [from .. to]: from a palette
    with no colors, the chunk from=5, to=7 with colors (1,2,3,4), (5,6,7,8),
    (9,10,11,12) fills entries 0..2 (red and blue swapped), leaves entries
    5..7 zero and sets the count to 3, not at least 8. *)
Lemma palette_chunk_5_7_written_at_count :
  option_map (fun p => (pal_ncolors p, pal_entries p 8))
    (palette_after (repeat 0 ASE_Palette_size) palette_chunk_5_7) =
  Some (3, [(3,2,1,4); (7,6,5,8); (11,10,9,12); (0,0,0,0);
            (0,0,0,0); (0,0,0,0); (0,0,0,0); (0,0,0,0)]).
Proof. vm_compute. reflexivity. Qed.

(** C1 (code_bug). The branch for a depth below the running depth walks the
    parent chain but never stores the result: with depths 0, 1, 2, 3, 2 the
    fifth layer keeps the parent 0 of [memset], while the walk from the last
    layer (index 3, depth 3) to depth 2 computes 1, the depth-1 layer. *)
Lemma layer_walk_up_result_dropped :
  option_map (fun ls => (map ly_parent ls, layer_ancestor ls 3 3 2))
    (loaded_layers doc_depths_01232) = Some ([-1; 0; 1; 2; 0], 1).
Proof. vm_compute. reflexivity. Qed.

(** C6 (counterexample). Depths 0, 1, 1, 2, 0 do not give parents
    [-1, 0, 0, 1, -1]. *)
Lemma layer_depths_01120_not_spec :
  loaded_parents doc_depths_01120 <> Some [-1; 0; 0; 1; -1].
Proof. vm_compute. congruence. Qed.

(* ------------------------------------------------------------------------- *)
(** ** Reads always return *)

Lemma mem_read_ret (n : Z) (m : Mach) :
  exists v m', ASE__mem_read n m = Ret (v, m').
Proof. eexists _, _. reflexivity. Qed.

Lemma read8_ret (m : Mach) : exists v m', ASE__read8 m = Ret (v, m').
Proof.
  unfold ASE__read8, ld_bind, ld_ret.
  destruct (mem_read_ret 1 m) as (bs & m1 & ->).
  destruct bs as [|? [|]]; eauto.
Qed.

Lemma read16_ret (m : Mach) : exists v m', ASE__read16 m = Ret (v, m').
Proof.
  unfold ASE__read16, ld_bind, ld_ret.
  destruct (mem_read_ret 2 m) as (bs & m1 & ->).
  destruct bs as [|? [|? [|]]]; eauto.
Qed.

Lemma read32_ret (m : Mach) : exists v m', ASE__read32 m = Ret (v, m').
Proof.
  unfold ASE__read32, ld_bind, ld_ret.
  destruct (mem_read_ret 4 m) as (bs & m1 & ->).
  destruct bs as [|? [|? [|? [|? [|]]]]]; eauto.
Qed.

Lemma read32_size_field (m : Mach) :
  exists m', ASE__read32 m = Ret (size_field_at m, m').
Proof.
  unfold size_field_at. destruct (read32_ret m) as (v & m' & E).
  rewrite E. eauto.
Qed.

Lemma ChunkHeader_read_size (m : Mach) :
  exists ch m', ASE_DOC_ChunkHeader_read m = Ret (ch, m') /\ ch_size ch = size_field_at m.
Proof.
  unfold ASE_DOC_ChunkHeader_read, ld_bind, ASE__mem_tell.
  destruct (read32_size_field m) as (m1 & ->).
  destruct (read16_ret m1) as (t & m2 & ->).
  unfold ld_ret. eauto.
Qed.

Lemma FrameHeader_read_size (m : Mach) :
  exists fh m', ASE_FrameHeader_read m = Ret (fh, m') /\ fh_size fh = size_field_at m.
Proof.
  unfold ASE_FrameHeader_read, ld_bind.
  destruct (read32_size_field m) as (m1 & ->).
  destruct (read16_ret m1) as (a & m2 & ->).
  destruct (read16_ret m2) as (b & m3 & ->).
  destruct (read16_ret m3) as (c & m4 & ->).
  unfold ld_ret. eauto.
Qed.

(** C7 (counterexample). The end of a chunk is computed as a [size_t] but
    passed to the [int] parameter of the seek callback: a chunk at 0 whose
    declared size is 0x80000000 leaves the position at -0x80000000. *)
Lemma chunk_huge_seek_wraps :
  size_field_at (mkMach chunk_huge 0 ∅ 1) = 2 ^ 31 /\
  ld_post (ASE__decode_chunk 0 DecState_init) (mkMach chunk_huge 0 ∅ 1)
    (fun _ m' => m_pos m' = - 2 ^ 31) /\
  ASE__decode_chunk 0 DecState_init (mkMach chunk_huge 0 ∅ 1) <> Abort /\
  ASE__decode_chunk 0 DecState_init (mkMach chunk_huge 0 ∅ 1) <> Hang.
Proof. vm_compute. repeat split; congruence. Qed.

(** C7 (amended). Whatever the builder of a chunk does, every run of a chunk
    round that returns leaves the position at the chunk's start plus its
    declared size, taken as a 32-bit [int] (the sum itself when it fits); a
    frame round likewise ends at the frame's start plus its header's size. *)
Lemma chunk_and_frame_end_at_declared_size :
  (forall fi d m,
     ld_post (ASE__decode_chunk fi d) m
       (fun _ m' => m_pos m' = to_int32 (m_pos m + size_field_at m))) /\
  (forall ndebug d m,
     ld_post (ASE__decode_frame ndebug d) m
       (fun _ m' => m_pos m' = to_int32 (m_pos m + size_field_at m))).
Proof.
  split.
  - intros fi d m. unfold ld_post, ASE__decode_chunk, ld_bind, ASE__mem_tell.
    destruct (ChunkHeader_read_size m) as (ch & m1 & -> & Hs).
    destruct (ASE__dispatch_chunk _ _ _ d m1) as [[d' m2]| |]; [| exact I | exact I].
    cbn. rewrite Hs. reflexivity.
  - intros ndebug d m. unfold ld_post, ASE__decode_frame, ld_bind, ASE__mem_tell.
    destruct (FrameHeader_read_size m) as (fh & m1 & -> & Hs).
    destruct (c_assert _ _ m1) as [[[] m2]| |]; [| exact I | exact I].
    destruct (ASE_DOC_AddFrame _ m2) as [[S1 m3]| |]; [| exact I | exact I].
    destruct (ASE__decode_chunks _ _ _ m3) as [[d' m4]| |]; [| exact I | exact I].
    cbn. rewrite Hs. reflexivity.
Qed.

(* ------------------------------------------------------------------------- *)
(** ** [free] over a list of pointers *)

Lemma free_all_spec (ps : list Z) (m : Mach) :
  exists m1, free_all ps m = Ret (tt, m1) /\
    m_buf m1 = m_buf m /\ m_pos m1 = m_pos m /\
    forall p, p <> 0 ->
      (p ∈ ps -> m_heap m1 !! p = None) /\
      (p ∉ ps -> m_heap m1 !! p = m_heap m !! p).
Proof.
  revert m. induction ps as [| q ps IH]; intros m.
  - exists m. split; [reflexivity |]. split; [reflexivity |]. split; [reflexivity |].
    intros x _. split; [| reflexivity].
    intros Hin. apply elem_of_nil in Hin. contradiction.
  - cbn [free_all]. unfold ld_bind at 1, c_free.
    destruct (q =? 0) eqn:Eq.
    + apply Z.eqb_eq in Eq. subst q.
      destruct (IH m) as (m1 & E1 & Hb & Hp & Hh).
      exists m1. split; [exact E1 |]. split; [exact Hb |]. split; [exact Hp |].
      intros x Hx. split.
      * intros Hin. apply elem_of_cons in Hin as [-> | Hin]; [contradiction |].
        apply (Hh x Hx); assumption.
      * intros Hn. apply not_elem_of_cons in Hn as [_ Hn]. apply (Hh x Hx); assumption.
    + apply Z.eqb_neq in Eq.
      destruct (IH (mkMach (m_buf m) (m_pos m) (delete q (m_heap m)) (m_next m)))
        as (m1 & E1 & Hb & Hp & Hh).
      exists m1. split; [exact E1 |]. split; [exact Hb |]. split; [exact Hp |].
      intros x Hx. split.
      * intros Hin. destruct (decide (x ∈ ps)) as [Hps | Hps].
        { apply (Hh x Hx); assumption. }
        apply elem_of_cons in Hin as [Heq | Hin]; [subst q | contradiction].
        rewrite (proj2 (Hh x Hx) Hps). cbn. apply lookup_delete_eq.
      * intros Hn. apply not_elem_of_cons in Hn as [Hne Hn].
        rewrite (proj2 (Hh x Hx) Hn). cbn. apply lookup_delete_ne. congruence.
Qed.

(** C10. [ASE_free] returns the all-zero sprite after freeing every pointer it
    owns (every layer and tag name, every cel buffer, and the layer, frame,
    cel and tag arrays), leaves every other heap block and the byte source as
    they were, and a second [ASE_free] of the zeroed sprite changes
    nothing. *)
Lemma ASE_free_frees_all_and_idempotent (S : ASE_Sprite) (m : Mach) :
  exists m1,
    ASE_free S m = Ret (ASE_Sprite_zero, m1) /\
    m_buf m1 = m_buf m /\ m_pos m1 = m_pos m /\
    (forall p, p <> 0 ->
       (p ∈ ASE_free_list S -> m_heap m1 !! p = None) /\
       (p ∉ ASE_free_list S -> m_heap m1 !! p = m_heap m !! p)) /\
    ASE_free ASE_Sprite_zero m1 = Ret (ASE_Sprite_zero, m1).
Proof.
  destruct (free_all_spec (ASE_free_list S) m) as (m1 & E1 & Hb & Hp & Hh).
  exists m1. unfold ASE_free, ld_bind at 1. rewrite E1.
  split; [reflexivity |]. split; [exact Hb |]. split; [exact Hp |].
  split; [exact Hh | reflexivity].
Qed.

(* ------------------------------------------------------------------------- *)
(** ** Reads at a known offset *)

Lemma at_off_0 (buf : list Z) heap next : mkMach buf 0 heap next = at_off buf 0 heap next.
Proof. unfold at_off, buf_len. f_equal. lia. Qed.

Lemma mem_read_off (buf : list Z) (off n : Z) heap next :
  0 <= off -> 0 <= n ->
  ASE__mem_read n (at_off buf off heap next) =
  Ret (map (fun k => byte_at buf (off + Z.of_nat k))
           (seq 0 (Z.to_nat (Z.max 0 (Z.min n (buf_len buf - off))))),
       at_off buf (off + n) heap next).
Proof.
  intros Hoff Hn. unfold ASE__mem_read, at_off. cbn [m_buf m_pos m_heap m_next].
  fold (buf_len buf). set (L := buf_len buf).
  assert (HL : 0 <= L) by (unfold L, buf_len; lia).
  destruct (Z.le_gt_cases L off) as [Hle | Hgt].
  - rewrite (Z.min_r off L Hle).
    replace (L >=? L) with true by (symmetry; apply Z.geb_le; lia).
    replace (Z.max 0 (Z.min n (L - off))) with 0 by lia.
    do 3 f_equal. lia.
  - rewrite (Z.min_l off L) by lia.
    replace (off >=? L) with false by (symmetry; rewrite Z.geb_leb; apply Z.leb_gt; lia).
    replace (Z.max 0 (Z.min n (L - off))) with (Z.min n (L - off)) by lia.
    do 3 f_equal. lia.
Qed.

Lemma read8_off (buf : list Z) (off : Z) heap next :
  0 <= off ->
  ASE__read8 (at_off buf off heap next) = Ret (doc_u8 buf off, at_off buf (off + 1) heap next).
Proof.
  intros Hoff. unfold ASE__read8, ld_bind. rewrite mem_read_off by lia.
  unfold doc_u8. destruct (Z.leb_spec (off + 1) (buf_len buf)).
  - replace (Z.max 0 (Z.min 1 (buf_len buf - off))) with 1 by lia.
    change (Z.to_nat 1) with 1%nat.
    cbn [seq map Z.of_nat Pos.of_succ_nat Pos.succ]. rewrite Z.add_0_r. reflexivity.
  - replace (Z.max 0 (Z.min 1 (buf_len buf - off))) with 0 by lia. reflexivity.
Qed.

Ltac short_read c :=
  let E := fresh in
  assert (Z.max 0 c = 0 \/ Z.max 0 c = 1 \/ Z.max 0 c = 2 \/ Z.max 0 c = 3)
    as [E | [E | [E | E]]] by lia; rewrite E; first [reflexivity | lia].

Lemma read16_off (buf : list Z) (off : Z) heap next :
  0 <= off ->
  ASE__read16 (at_off buf off heap next) = Ret (doc_u16 buf off, at_off buf (off + 2) heap next).
Proof.
  intros Hoff. unfold ASE__read16, ld_bind. rewrite mem_read_off by lia.
  unfold doc_u16. destruct (Z.leb_spec (off + 2) (buf_len buf)).
  - replace (Z.max 0 (Z.min 2 (buf_len buf - off))) with 2 by lia.
    change (Z.to_nat 2) with 2%nat.
    cbn [seq map Z.of_nat Pos.of_succ_nat Pos.succ]. rewrite Z.add_0_r. reflexivity.
  - short_read (Z.min 2 (buf_len buf - off)).
Qed.

Lemma read32_off (buf : list Z) (off : Z) heap next :
  0 <= off ->
  ASE__read32 (at_off buf off heap next) = Ret (doc_u32 buf off, at_off buf (off + 4) heap next).
Proof.
  intros Hoff. unfold ASE__read32, ld_bind. rewrite mem_read_off by lia.
  unfold doc_u32. destruct (Z.leb_spec (off + 4) (buf_len buf)).
  - replace (Z.max 0 (Z.min 4 (buf_len buf - off))) with 4 by lia.
    change (Z.to_nat 4) with 4%nat.
    cbn [seq map Z.of_nat Pos.of_succ_nat Pos.succ]. rewrite Z.add_0_r. reflexivity.
  - short_read (Z.min 4 (buf_len buf - off)).
Qed.

Lemma skip_off (buf : list Z) (off n : Z) heap next :
  0 <= off -> 0 <= n ->
  ASE__mem_skip n (at_off buf off heap next) = Ret (tt, at_off buf (off + n) heap next).
Proof.
  intros Hoff Hn. unfold ASE__mem_skip, at_off. cbn [m_buf m_pos m_heap m_next].
  fold (buf_len buf). set (L := buf_len buf).
  destruct (Z.geb_spec (Z.min off L) L); do 3 f_equal; lia.
Qed.

Lemma read_bytes_off (n : nat) (buf : list Z) (off : Z) heap next :
  0 <= off ->
  read_bytes n (at_off buf off heap next) =
  Ret (doc_bytes buf off n, at_off buf (off + Z.of_nat n) heap next).
Proof.
  revert off. induction n as [| n IH]; intros off Hoff.
  - cbn. rewrite Z.add_0_r. reflexivity.
  - cbn [read_bytes]. unfold ld_bind at 1. rewrite read8_off by lia.
    unfold ld_bind. rewrite IH by lia. unfold ld_ret, doc_bytes.
    cbn [seq map]. rewrite <- seq_shift, map_map. rewrite Z.add_0_r.
    replace (off + 1 + Z.of_nat n) with (off + Z.of_nat (S n)) by lia.
    do 3 f_equal. apply map_ext. intros k. f_equal. lia.
Qed.

(** Adds up the literal offsets the reads accumulate. *)
Ltac z_lits :=
  repeat match goal with
  | |- context [Z.add (Zpos ?x) (Zpos ?y)] =>
      let c := eval vm_compute in (Z.add (Zpos x) (Zpos y)) in
      change (Z.add (Zpos x) (Zpos y)) with c
  | |- context [Z.add Z0 ?y] => change (Z.add Z0 y) with y
  end.

(** Runs the reads of a parser from a known offset. *)
Ltac run_reads :=
  repeat (first [ rewrite read32_off by lia | rewrite read16_off by lia
                | rewrite read8_off by lia | rewrite skip_off by lia
                | rewrite read_bytes_off by lia ];
          cbv beta iota zeta; z_lits).

Lemma Header_read_off (buf : list Z) heap next :
  exists ok H m',
    ASE_DOC_Header_read (at_off buf 0 heap next) = Ret ((ok, H), m') /\
    m_buf m' = buf /\ m_heap m' = heap /\ m_next m' = next /\
    h_magic H = doc_magic buf /\
    (ok = true ->
       doc_magic buf = ASE_FILE_MAGIC /\
       h_ncolors H = (if doc_ncolors buf =? 0 then 256 else doc_ncolors buf)).
Proof.
  unfold ASE_DOC_Header_read, ld_bind, ASE__mem_tell.
  run_reads.
  change (doc_u16 buf 4) with (doc_magic buf).
  change (doc_u16 buf 32) with (doc_ncolors buf).
  destruct (doc_magic buf =? ASE_FILE_MAGIC) eqn:Em; cbn [negb].
  - match goal with |- context [if negb ?b then _ else _] => destruct b end; cbn [negb].
    + match goal with |- context [let '(_, _) := ?p in _] => destruct p as [pw ph] end.
      unfold ASE__mem_seek, ld_ret. eexists true, _, _.
      split; [reflexivity |]. cbn. apply Z.eqb_eq in Em. repeat split; auto.
    + unfold ld_ret. eexists false, _, _.
      split; [reflexivity |]. cbn. repeat split; try reflexivity; discriminate.
  - unfold ld_ret. eexists false, _, _.
    split; [reflexivity |]. cbn. repeat split; try reflexivity; discriminate.
Qed.

(** Splits a goal on the outcomes of the computations it runs. *)
Ltac split_outcomes :=
  repeat (match goal with
          | |- context [match ?x with Ret _ => _ | Abort => _ | Hang => _ end] =>
              lazymatch x with
              | context [match _ with Ret _ => _ | Abort => _ | Hang => _ end] => fail
              | _ => let a := fresh "a" in let m := fresh "m" in destruct x as [[a m]| |]
              end
          | |- context [let '(_, _) := ?p in _] => destruct p
          end; cbv beta iota).

(** C3 (code_bug). A bad magic is never reported as a failure: with its
    [assert]s, [ASE__decode_main] aborts the process on any document whose
    magic is not 0xA5E0; whatever the build, every run that returns reports
    success ([R] stays 1); and with [NDEBUG] the document with magic 0x1234 is
    decoded with success and one frame is built. *)
Lemma bad_magic_not_reported :
  (forall buf out heap next, doc_magic buf <> ASE_FILE_MAGIC ->
     ASE_load_from_memory false buf out heap next = Abort) /\
  (forall ndebug buf out heap next,
     match ASE_load_from_memory ndebug buf out heap next with
     | Ret (r, _, _) => r = true
     | _ => True
     end) /\
  doc_magic doc_bad_magic <> ASE_FILE_MAGIC /\
  match ASE_load_from_memory true doc_bad_magic ASE_Sprite_zero ∅ 1 with
  | Ret (r, Sp, _) => r = true /\ sp_nframes Sp = 1
  | _ => False
  end.
Proof.
  split; [| split; [| split]].
  - intros buf out heap next Hne.
    unfold ASE_load_from_memory, ASE__decode_main, ld_bind at 1. rewrite at_off_0.
    destruct (Header_read_off buf heap next) as (ok & H & m' & E & _ & _ & _ & _ & Hok).
    rewrite E. destruct ok.
    + exfalso. apply Hne. apply Hok. reflexivity.
    + reflexivity.
  - intros ndebug buf out heap next.
    unfold ASE_load_from_memory, ASE__decode_main, ld_bind, ld_ret.
    split_outcomes; trivial.
  - vm_compute. congruence.
  - vm_compute. split; reflexivity.
Qed.

(* ------------------------------------------------------------------------- *)
(** ** The heap primitives from a known offset *)

Lemma tell_off (buf : list Z) (off : Z) heap next :
  ASE__mem_tell (at_off buf off heap next) = Ret (Z.min off (buf_len buf), at_off buf off heap next).
Proof. reflexivity. Qed.

Lemma malloc_off (buf : list Z) (off n : Z) heap next :
  c_malloc n (at_off buf off heap next) =
  Ret (next, at_off buf off (<[next := repeat 0 (Z.to_nat n)]> heap) (next + 1)).
Proof. reflexivity. Qed.

Lemma free_off (buf : list Z) (off p : Z) heap next :
  c_free p (at_off buf off heap next) =
  Ret (tt, at_off buf off (if p =? 0 then heap else delete p heap) next).
Proof. unfold c_free. destruct (p =? 0); reflexivity. Qed.

Lemma realloc_off (buf : list Z) (off p n : Z) heap next :
  c_realloc p n (at_off buf off heap next) =
  Ret (next, at_off buf off
               (let h := <[next := repeat 0 (Z.to_nat n)]> heap in
                if p =? 0 then h else delete p h) (next + 1)).
Proof. unfold c_realloc, ld_bind. rewrite malloc_off, free_off. reflexivity. Qed.

Lemma heap_write_off (buf : list Z) (off p o : Z) (bs : list Z) heap next :
  heap_write p o bs (at_off buf off heap next) =
  Ret (tt, at_off buf off
             (match heap !! p with
              | Some blk => <[p := take (Z.to_nat o) blk ++ bs ++ drop (Z.to_nat o + length bs) blk]> heap
              | None => heap
              end) next).
Proof. unfold heap_write. cbn. destruct (heap !! p); reflexivity. Qed.

Ltac run_heap :=
  repeat (first [ rewrite tell_off | rewrite realloc_off | rewrite malloc_off
                | rewrite free_off | rewrite heap_write_off ]; cbv beta iota zeta).

Ltac run_all :=
  repeat (first [ rewrite read32_off by lia | rewrite read16_off by lia
                | rewrite read8_off by lia | rewrite skip_off by lia
                | rewrite read_bytes_off by lia
                | rewrite tell_off | rewrite realloc_off | rewrite malloc_off
                | rewrite free_off | rewrite heap_write_off ];
          cbv beta iota zeta; repeat rewrite <- Z.add_assoc; z_lits).

Ltac z_tests :=
  repeat match goal with
  | |- context [Z.eqb (Zpos ?x) (Zpos ?y)] =>
      let c := eval vm_compute in (Z.eqb (Zpos x) (Zpos y)) in
      change (Z.eqb (Zpos x) (Zpos y)) with c
  | |- context [Z.eqb (Zpos ?x) Z0] => change (Z.eqb (Zpos x) Z0) with false
  | |- context [orb false false] => change (orb false false) with false
  | |- context [andb true ?b] => change (andb true b) with b
  | |- context [negb true] => change (negb true) with false
  | |- context [negb false] => change (negb false) with true
  end; cbv beta iota.

(** C8. A compressed cel whose zlib payload does not decode is still added
    to its frame: the chunk round returns normally, with the position at the
    chunk's end, the frame's cel array grown by the cel of the chunk's header
    fields and no pixel data ([data] stays 0), and no block of the heap is
    left behind but the new cel array: the input and output buffers of the
    decoder are freed, and every other block is as before. *)
Lemma failed_zlib_cel_kept_without_data (fi : Z) (d : DecState) (buf : list Z) (off : Z)
    (heap : gmap Z (list Z)) (next : Z) :
  0 <= off -> 0 < next -> (forall k, next <= k -> heap !! k = None) ->
  compressed_cel_at (ds_sprite d) buf off = true ->
  length (fr_cel_array (get_frame (ds_sprite d) fi)) =
    Z.to_nat (fr_ncels (get_frame (ds_sprite d) fi)) ->
  0 <= fr_ncels (get_frame (ds_sprite d) fi) ->
  Zlib.stbi_zlib_decode_buffer (cel_osize (ds_sprite d) buf off) (cel_payload buf off) =
    Zlib.ZErr ->
  exists heap' next',
    ASE__decode_chunk fi d (at_off buf off heap next) =
      Ret (mkDecState
             (set_frame (ds_sprite d) fi
                (mkFrame (fr_duration (get_frame (ds_sprite d) fi))
                         (fr_ncels (get_frame (ds_sprite d) fi) + 1) next
                         (fr_cel_array (get_frame (ds_sprite d) fi) ++
                          [cel_header_at buf off])))
             (ds_layers d) (ds_ignore_old d),
           mkMach buf (to_int32 (off + doc_u32 buf off)) heap' next') /\
    (forall k, k <> fr_cels (get_frame (ds_sprite d) fi) -> k <> next ->
               heap' !! k = heap !! k) /\
    (forall k, next < k -> heap' !! k = None).
Proof.
  intros Hoff Hnext Hfresh Hcel Hlen Hn Hz.
  destruct d as [S ls ig]; cbn [ds_sprite ds_layers ds_ignore_old] in *.
  set (F := get_frame S fi) in *.
  unfold compressed_cel_at in Hcel. cbv zeta in Hcel.
  repeat rewrite andb_true_iff in Hcel.
  destruct Hcel as [[[[[[[[Ht Hl0] Hl1] Himg] Hc] Hw] Hh] Hbpp] Hlen26].
  apply Z.eqb_eq in Ht, Hc. apply Z.leb_le in Hlen26.
  unfold ASE__decode_chunk, ASE_DOC_ChunkHeader_read, ASE__dispatch_chunk, ASE_Cel_read,
    ASE_DOC_AddCel, ASE_DOC_read_compressed, ld_bind.
  unfold ld_ret.
  run_all.
  rewrite (Z.min_l off (buf_len buf)) by lia.
  cbv beta iota zeta delta [ch_type ch_size ch_start ds_sprite ds_layers ds_ignore_old].
  rewrite Ht.
  unfold ASE_FILE_CHUNK_CEL, ASE_FILE_CHUNK_FLI_COLOR, ASE_FILE_CHUNK_FLI_COLOR2,
    ASE_FILE_CHUNK_PALETTE, ASE_FILE_CHUNK_LAYER, ASE_FILE_CHUNK_FRAME_TAGS.
  z_tests.
  run_all.
  rewrite Hl0, Hl1, Himg, Hc. z_tests.
  unfold ASE_FILE_COMPRESSED_CEL, ASE_FILE_RAW_CEL, ASE_FILE_LINK_CEL. z_tests.
  run_all.
  rewrite Hw, Hh, Hbpp. z_tests.
  run_all.
  rewrite (Z.min_l (off + 26) (buf_len buf)) by lia.
  run_all.
  replace (off + doc_u32 buf off - (off + 26)) with (doc_u32 buf off - 26) by lia.
  match goal with |- context [Zlib.stbi_zlib_decode_buffer ?a ?b] =>
    replace (Zlib.stbi_zlib_decode_buffer a b) with (@Zlib.ZErr (list Z))
  end.
  cbv beta iota.
  run_all.
  replace (next + 2 =? 0) with false by (symmetry; apply Z.eqb_neq; lia).
  replace (next + 1 =? 0) with false by (symmetry; apply Z.eqb_neq; lia).
  cbv beta iota.
  unfold ASE__mem_seek, at_off. cbn [m_buf m_heap m_next].
  unfold F in *; clear F.
  eexists _, _. split; [| split].
  - f_equal. f_equal. cbn [snd]. f_equal.
    f_equal.
    unfold set_last_cel. cbn [fr_duration fr_ncels fr_cels fr_cel_array]. f_equal.
    replace (Z.to_nat (fr_ncels (get_frame S fi) + 1 - 1))
      with (length (fr_cel_array (get_frame S fi)) + 0)%nat by lia.
    rewrite insert_app_r. reflexivity.
  - intros k Hk1 Hk2.
    destruct (decide (k = next + 1)) as [-> | Hk3].
    { rewrite lookup_delete_eq. symmetry. apply Hfresh. lia. }
    destruct (decide (k = next + 2)) as [-> | Hk4].
    { rewrite lookup_delete_ne by lia. rewrite lookup_delete_eq. symmetry. apply Hfresh. lia. }
    rewrite !lookup_delete_ne by lia. rewrite lookup_insert_ne by lia.
    destruct (_ !! (next + 1)); rewrite ?lookup_insert_ne by lia;
      destruct (fr_cels (get_frame S fi) =? 0);
      rewrite ?lookup_delete_ne, ?lookup_insert_ne by lia; reflexivity.
  - intros k Hk.
    destruct (decide (k = next + 1)) as [-> | Hk3].
    { apply lookup_delete_eq. }
    destruct (decide (k = next + 2)) as [-> | Hk4].
    { rewrite lookup_delete_ne by lia. apply lookup_delete_eq. }
    assert (E : forall v, <[next:=v]> heap !! k = None).
    { intros v. rewrite lookup_insert_ne by lia. apply Hfresh. lia. }
    rewrite !lookup_delete_ne by lia. rewrite lookup_insert_ne by lia.
    destruct (_ !! (next + 1)); rewrite ?lookup_insert_ne by lia;
      destruct (fr_cels (get_frame S fi) =? 0);
      rewrite ?lookup_delete_None; auto.
Qed.

(** The chunk [chunk_cel_bad_zlib] read into the frame of [sprite_one_frame]. *)
Lemma failed_zlib_cel_kept_without_data_witness :
  compressed_cel_at sprite_one_frame chunk_cel_bad_zlib 0 = true /\
  Zlib.stbi_zlib_decode_buffer (cel_osize sprite_one_frame chunk_cel_bad_zlib 0)
    (cel_payload chunk_cel_bad_zlib 0) = Zlib.ZErr /\
  exists heap' next',
    ASE__decode_chunk 0 (mkDecState sprite_one_frame (mkLayerState 0 0) false)
      (at_off chunk_cel_bad_zlib 0 ∅ 1) =
    Ret (mkDecState
           (set_frame sprite_one_frame 0
              (mkFrame 0 1 1 [cel_header_at chunk_cel_bad_zlib 0]))
           (mkLayerState 0 0) false,
         mkMach chunk_cel_bad_zlib 30 heap' next') /\
    (forall k, k <> 0 -> k <> 1 -> heap' !! k = None).
Proof.
  split; [vm_compute; reflexivity |]. split; [vm_compute; reflexivity |].
  destruct (failed_zlib_cel_kept_without_data 0
              (mkDecState sprite_one_frame (mkLayerState 0 0) false)
              chunk_cel_bad_zlib 0 ∅ 1) as (h & n & E & H1 & _);
    [lia | lia | intros k _; reflexivity | vm_compute; reflexivity
    | reflexivity | vm_compute; discriminate | vm_compute; reflexivity |].
  exists h, n. split; [exact E | exact H1].
Defined.

(* ------------------------------------------------------------------------- *)
(** ** Postconditions of runs *)

Lemma post_ret {A} (a : A) m (P : A -> Mach -> Prop) : P a m -> ld_post (ld_ret a) m P.
Proof. intros H. exact H. Qed.

Lemma post_bind {A B} (c : LD A) (k : A -> LD B) m (P : B -> Mach -> Prop) :
  ld_post c m (fun a m' => ld_post (k a) m' P) -> ld_post (ld_bind c k) m P.
Proof. unfold ld_post, ld_bind. destruct (c m) as [[a m']| |]; auto. Qed.

Lemma post_any {A} (c : LD A) m (P : A -> Mach -> Prop) :
  (forall a m', P a m') -> ld_post c m P.
Proof. intros H. unfold ld_post. destruct (c m) as [[a m']| |]; auto. Qed.

Lemma post_mono {A} (c : LD A) m (P Q : A -> Mach -> Prop) :
  ld_post c m P -> (forall a m', P a m' -> Q a m') -> ld_post c m Q.
Proof. unfold ld_post. destruct (c m) as [[a m']| |]; auto. Qed.

(** The primitives of the byte source, the heap and [assert]. *)
Ltac is_prim c :=
  lazymatch c with
  | ASE__read8 => idtac | ASE__read16 => idtac | ASE__read32 => idtac
  | ASE__mem_read _ => idtac | ASE__mem_skip _ => idtac
  | ASE__mem_tell => idtac | ASE__mem_seek _ => idtac
  | ASE_DOC_read_string => idtac | read_bytes _ => idtac
  | c_free _ => idtac | c_malloc _ => idtac | c_realloc _ _ => idtac
  | heap_write _ _ _ => idtac | c_assert _ _ => idtac
  | ASE_DOC_Header_read => idtac | ASE_FrameHeader_read => idtac
  | ASE_DOC_ChunkHeader_read => idtac
  end.

(** Steps through a computation, forgetting the values its primitives
    return. *)
Ltac wp :=
  repeat (cbv beta;
    match goal with
    | |- ld_post (ld_bind _ _) _ _ => apply post_bind
    | |- ld_post (ld_ret _) _ _ => apply post_ret
    | |- ld_post (if ?b then _ else _) _ _ => destruct b
    | |- ld_post ?c _ _ => is_prim c; apply post_any; intros ? ?
    end).

(* ------------------------------------------------------------------------- *)
(** ** The palette stays a palette *)

Lemma byte_land_255 (x : Z) : 0 <= Z.land x 255 < 256.
Proof.
  change 255 with (Z.ones 8). rewrite Z.land_ones by lia.
  apply Z.mod_pos_bound. lia.
Qed.

Lemma palette_ok_spec (p : ASE_Palette) :
  palette_ok p = true <-> length p = ASE_Palette_size /\ Forall (fun b => 0 <= b < 256) p.
Proof.
  unfold palette_ok. rewrite andb_true_iff, Nat.eqb_eq, forallb_forall, Forall_forall.
  split; intros [Hl Hb]; split; auto; intros b Hin.
  - apply list_elem_of_In in Hin. specialize (Hb b Hin).
    apply andb_true_iff in Hb as [H1 H2]. apply Z.leb_le in H1. apply Z.ltb_lt in H2. lia.
  - apply list_elem_of_In in Hin. specialize (Hb b Hin).
    apply andb_true_iff. split; [apply Z.leb_le | apply Z.ltb_lt]; lia.
Qed.

Lemma palette_ok_nth (p : ASE_Palette) (i : nat) :
  palette_ok p = true -> 0 <= nth i p 0 < 256.
Proof.
  intros [_ Hb]%palette_ok_spec.
  destruct (decide (i < length p)%nat) as [Hi | Hi].
  - rewrite Forall_forall in Hb. apply Hb. apply list_elem_of_In, nth_In. exact Hi.
  - rewrite nth_overflow by lia. lia.
Qed.

Lemma palette_ok_set (p : ASE_Palette) (off v : Z) :
  palette_ok p = true -> 0 <= v < 256 -> palette_ok (pal_set p off v) = true.
Proof.
  intros [Hl Hb]%palette_ok_spec Hv. apply palette_ok_spec. unfold pal_set, ASE_Palette. split.
  - rewrite length_insert. exact Hl.
  - apply Forall_insert; assumption.
Qed.

Lemma palette_ok_entry (R : ASE_Palette) (v : Z) :
  palette_ok R = true -> palette_ok (ASE_Palette_entry R v) = true.
Proof.
  intros HR. unfold ASE_Palette_entry, pal_swap_rb, pal_store_rgba, to_u8.
  repeat (apply palette_ok_set || apply byte_land_255 || apply palette_ok_nth
          || apply Z.mod_pos_bound || lia || assumption).
Qed.

Lemma palette_ok_ncolors (p : ASE_Palette) :
  palette_ok p = true -> 0 <= pal_ncolors p < 256.
Proof. apply palette_ok_nth. Qed.

Lemma Palette_loop_ok (n : nat) (R : ASE_Palette) (m : Mach) :
  palette_ok R = true ->
  ld_post (ASE_Palette_loop n R) m (fun R' _ => palette_ok R' = true).
Proof.
  revert R m. induction n as [| n IH]; intros R m HR.
  - apply post_ret. exact HR.
  - cbn [ASE_Palette_loop]. wp; apply IH; apply palette_ok_entry; exact HR.
Qed.

Lemma Palette_read_ok (Prev : ASE_Palette) (m : Mach) :
  palette_ok Prev = true ->
  ld_post (ASE_Palette_read Prev) m (fun R' _ => palette_ok R' = true).
Proof. intros HP. unfold ASE_Palette_read. wp. apply Palette_loop_ok. exact HP. Qed.

(* ------------------------------------------------------------------------- *)
(** ** Only the palette chunk changes the palette *)

Lemma Layer_read_palette (S : ASE_Sprite) (st : LayerState) (m : Mach) :
  ld_post (ASE_Layer_read S st) m (fun r _ => sp_palette (snd (fst r)) = sp_palette S).
Proof.
  unfold ASE_Layer_read, ASE_DOC_AddLayer. wp.
  - destruct (ASE_Layer_decode _ _ _) as [S2 st'] eqn:E.
    apply post_ret. cbn. apply (f_equal fst) in E. cbn in E. rewrite <- E. reflexivity.
  - reflexivity.
Qed.

Lemma Tags_loop_palette (n : nat) (S : ASE_Sprite) (m : Mach) :
  ld_post (ASE_Tags_loop n S) m (fun S' _ => sp_palette S' = sp_palette S).
Proof.
  revert S m. induction n as [| n IH]; intros S m.
  - apply post_ret. reflexivity.
  - cbn [ASE_Tags_loop]. unfold ASE_DOC_AddTag. wp.
    eapply post_mono; [apply IH | intros S' m1 HS; exact HS].
Qed.

Lemma Tags_read_palette (S : ASE_Sprite) (m : Mach) :
  ld_post (ASE_Tags_read S) m (fun S' _ => sp_palette S' = sp_palette S).
Proof. unfold ASE_Tags_read. wp. apply Tags_loop_palette. Qed.

Lemma Cel_read_palette (S : ASE_Sprite) (fi EndPos : Z) (m : Mach) :
  ld_post (ASE_Cel_read S fi EndPos) m (fun r _ => sp_palette (snd r) = sp_palette S).
Proof.
  unfold ASE_Cel_read, ASE_DOC_AddCel. wp; try reflexivity;
    apply post_any; intros; apply post_ret; reflexivity.
Qed.

Lemma dispatch_palette_ok (type fi EndPos : Z) (d : DecState) (m : Mach) :
  palette_ok (sp_palette (ds_sprite d)) = true ->
  ld_post (ASE__dispatch_chunk type fi EndPos d) m
    (fun d' _ => palette_ok (sp_palette (ds_sprite d')) = true).
Proof.
  intros Hd. unfold ASE__dispatch_chunk. wp; try exact Hd.
  - eapply post_mono; [apply Palette_read_ok; exact Hd |].
    intros p m1 Hp. apply post_ret. exact Hp.
  - eapply post_mono; [apply Layer_read_palette |].
    intros [[ok S'] st'] m1 HS. apply post_ret. cbn in *. rewrite HS. exact Hd.
  - eapply post_mono; [apply Cel_read_palette |].
    intros r m1 HS. apply post_ret. cbn. rewrite HS. exact Hd.
  - eapply post_mono; [apply Tags_read_palette |].
    intros S' m1 HS. apply post_ret. cbn. rewrite HS. exact Hd.
Qed.

Lemma decode_chunks_palette_ok (n : nat) (fi : Z) (d : DecState) (m : Mach) :
  palette_ok (sp_palette (ds_sprite d)) = true ->
  ld_post (ASE__decode_chunks n fi d) m
    (fun d' _ => palette_ok (sp_palette (ds_sprite d')) = true).
Proof.
  revert d m. induction n as [| n IH]; intros d m Hd.
  - apply post_ret. exact Hd.
  - cbn [ASE__decode_chunks]. unfold ASE__decode_chunk. wp.
    eapply post_mono; [apply dispatch_palette_ok; exact Hd |].
    intros d1 m1 H1. wp. apply IH. exact H1.
Qed.

Lemma decode_frames_palette_ok (ndebug : bool) (n : nat) (d : DecState) (m : Mach) :
  palette_ok (sp_palette (ds_sprite d)) = true ->
  ld_post (ASE__decode_frames ndebug n d) m
    (fun d' _ => palette_ok (sp_palette (ds_sprite d')) = true).
Proof.
  revert d m. induction n as [| n IH]; intros d m Hd.
  - apply post_ret. exact Hd.
  - cbn [ASE__decode_frames]. unfold ASE__decode_frame, ASE_DOC_AddFrame. wp.
    eapply post_mono; [apply decode_chunks_palette_ok; exact Hd |].
    intros d1 m1 H1. wp. apply IH. exact H1.
Qed.

Lemma decode_main_palette_ok (ndebug : bool) (S : ASE_Sprite) (m : Mach) :
  palette_ok (sp_palette S) = true ->
  ld_post (ASE__decode_main ndebug S) m (fun r _ => palette_ok (sp_palette (snd r)) = true).
Proof.
  intros HS. unfold ASE__decode_main. wp.
  match goal with |- ld_post (let '(_, _) := ?p in _) _ _ => destruct p end.
  wp. eapply post_mono; [apply decode_frames_palette_ok; exact HS |].
  intros d m1 H1. apply post_ret. exact H1.
Qed.

Lemma decode_chunk_palette_ok (fi : Z) (d : DecState) (m : Mach) :
  palette_ok (sp_palette (ds_sprite d)) = true ->
  ld_post (ASE__decode_chunk fi d) m
    (fun d' _ => palette_ok (sp_palette (ds_sprite d')) = true).
Proof.
  intros Hd. unfold ASE__decode_chunk. wp.
  eapply post_mono; [apply dispatch_palette_ok; exact Hd |].
  intros d1 m1 H1. wp. exact H1.
Qed.

(** C9. [ncolors] is a [uint8_t]: every chunk round, palette chunk or not,
    keeps the palette a 1028-byte struct whose count is below 256, and so does
    a whole load that starts from such a palette (the zero palette is one);
    and a header that passes its checks reports 256 colors where the file
    says 0. *)
Lemma palette_count_never_exceeds_256 :
  (forall fi d m, palette_ok (sp_palette (ds_sprite d)) = true ->
     ld_post (ASE__decode_chunk fi d) m
       (fun d' _ => palette_ok (sp_palette (ds_sprite d')) = true /\
                    pal_ncolors (sp_palette (ds_sprite d')) < 256)) /\
  (forall ndebug buf out heap next, palette_ok (sp_palette out) = true ->
     match ASE_load_from_memory ndebug buf out heap next with
     | Ret (_, Sp, _) => palette_ok (sp_palette Sp) = true /\ pal_ncolors (sp_palette Sp) < 256
     | _ => True
     end) /\
  palette_ok (repeat 0 ASE_Palette_size) = true /\
  (forall buf heap next,
     ld_post ASE_DOC_Header_read (mkMach buf 0 heap next)
       (fun r _ => fst r = true ->
          h_ncolors (snd r) = if doc_ncolors buf =? 0 then 256 else doc_ncolors buf)).
Proof.
  split; [| split; [| split]].
  - intros fi d m Hd. eapply post_mono; [apply decode_chunk_palette_ok; exact Hd |].
    intros d' m' H. split; [exact H | apply palette_ok_ncolors; exact H].
  - intros ndebug buf out heap next Hout.
    pose proof (decode_main_palette_ok ndebug out (mkMach buf 0 heap next) Hout) as H.
    unfold ld_post in H. unfold ASE_load_from_memory.
    destruct (ASE__decode_main ndebug out (mkMach buf 0 heap next)) as [[[r Sp] m']| |];
      [| exact I | exact I].
    split; [exact H | apply palette_ok_ncolors; exact H].
  - reflexivity.
  - intros buf heap next. rewrite at_off_0.
    destruct (Header_read_off buf heap next) as (ok & H & m' & E & _ & _ & _ & _ & Hok).
    unfold ld_post. rewrite E. cbn. intros ->. apply Hok. reflexivity.
Qed.

(** * Facts about the zlib decoder *)

Module ZlibFacts.
Import Zlib.

Lemma lor_shiftl_add (a b n : Z) :
  0 <= n -> 0 <= a < 2 ^ n -> 0 <= b -> Z.lor a (Z.shiftl b n) = a + b * 2 ^ n.
Proof.
  intros Hn Ha Hb. rewrite Z.shiftl_mul_pow2 by lia.
  rewrite <- Z.lxor_lor, <- Z.add_nocarry_lxor; [reflexivity| |];
  apply Z.bits_inj'; intros i Hi; rewrite Z.land_spec, Z.bits_0;
  rewrite <- Z.shiftl_mul_pow2 by lia; rewrite Z.shiftl_spec by lia;
  (destruct (Z.ltb_spec i n);
   [rewrite (Z.testbit_neg_r b (i - n)) by lia; apply andb_false_r
   |rewrite <- (Z.mod_small a (2 ^ n)) by lia; rewrite Z.mod_pow2_bits_high by lia; reflexivity]).
Qed.

Lemma land_low (x n : Z) : 0 <= n -> Z.land x (Z.shiftl 1 n - 1) = x mod 2 ^ n.
Proof.
  intros Hn. replace (Z.shiftl 1 n - 1) with (Z.ones n)
    by (rewrite Z.ones_equiv, Z.shiftl_1_l; lia).
  apply Z.land_ones; lia.
Qed.

Lemma lor_land_step (a b n : Z) :
  0 <= n -> n + 8 <= 32 -> 0 <= a < 2 ^ n -> 0 <= b < 256 ->
  Z.land (Z.lor a (Z.shiftl b n)) 4294967295 = a + b * 2 ^ n.
Proof.
  intros Hn Hn8 Ha Hb. rewrite lor_shiftl_add by lia.
  change 4294967295 with (Z.ones 32). rewrite Z.land_ones by lia.
  apply Z.mod_small. split; [lia|].
  assert (2 ^ n * 2 ^ 8 <= 2 ^ 32).
  { rewrite <- Z.pow_add_r by lia. apply Z.pow_le_mono_r; lia. }
  nia.
Qed.

Lemma fill_bits_4 (b0 b1 b2 b3 : Z) r o l e zl zd :
  0 <= b0 < 256 -> 0 <= b1 < 256 -> 0 <= b2 < 256 -> 0 <= b3 < 256 ->
  fill_bits (mkZB (b0 :: b1 :: b2 :: b3 :: r) 0 0 o l e zl zd) =
  ZOk (tt, mkZB r 32 (b0 + b1 * 2 ^ 8 + b2 * 2 ^ 16 + b3 * 2 ^ 24) o l e zl zd).
Proof.
  intros H0 H1 H2 H3.
  match goal with |- _ = ?r => set (R := r) end.
  cbv -[Z.lor Z.land Z.shiftl R]. subst R.
  rewrite (lor_land_step 0 b0 0), (lor_land_step _ b1 8), (lor_land_step _ b2 16),
    (lor_land_step _ b3 24) by (cbn -[Z.lor Z.land Z.shiftl]; lia).
  f_equal. f_equal. f_equal. cbn -[Z.lor Z.land Z.shiftl]. lia.
Qed.

Lemma zbind_ok {A B} (c : ZM A) (k : A -> ZM B) z a z' :
  c z = ZOk (a, z') -> zbind c k z = k a z'.
Proof. intros E. unfold zbind. rewrite E. reflexivity. Qed.

Lemma zreceive_have (n : Z) (z : zbuf) :
  0 <= n <= num_bits z ->
  zreceive n z = ZOk (code_buffer z mod 2 ^ n,
                      with_bits z (num_bits z - n) (code_buffer z / 2 ^ n)).
Proof.
  intros Hn. unfold zreceive, zbind, zget, zput, zret.
  replace (num_bits z <? n) with false by (symmetry; apply Z.ltb_ge; lia).
  rewrite land_low, Z.shiftr_div_pow2 by lia. destruct z; reflexivity.
Qed.

Lemma zreceive_fill (n : Z) (z z' : zbuf) :
  num_bits z < n -> fill_bits z = ZOk (tt, z') -> 0 <= n <= num_bits z' ->
  zreceive n z = ZOk (code_buffer z' mod 2 ^ n,
                      with_bits z' (num_bits z' - n) (code_buffer z' / 2 ^ n)).
Proof.
  intros Hlt Hf Hn. unfold zreceive at 1, zbind at 1, zget at 1.
  replace (num_bits z <? n) with true by (symmetry; apply Z.ltb_lt; lia).
  unfold zbind at 1. rewrite Hf.
  rewrite <- (zreceive_have n z' Hn). unfold zreceive, zbind, zget.
  replace (num_bits z' <? n) with false by (symmetry; apply Z.ltb_ge; lia).
  reflexivity.
Qed.

Ltac plit p := lazymatch p with xH => idtac | xI ?q => plit q | xO ?q => plit q end.

Ltac zlit x := lazymatch x with Z0 => idtac | Zpos ?p => plit p | Zneg ?p => plit p end.

Ltac zop f := lazymatch f with
  | Z.add => idtac | Z.sub => idtac | Z.mul => idtac | Z.ltb => idtac | Z.leb => idtac
  | Z.gtb => idtac | Z.geb => idtac | Z.eqb => idtac | Z.land => idtac | Z.lor => idtac
  | Z.shiftl => idtac | Z.shiftr => idtac | Z.pow => idtac | Z.div => idtac
  | Z.modulo => idtac | Z.lxor => idtac end.

(** Evaluates the integer operations on literals and the tests they decide. *)
Ltac zeval :=
  repeat (match goal with
  | |- context [?f ?a ?b] =>
      zop f; zlit a; zlit b;
      let c := eval vm_compute in (f a b) in change (f a b) with c
  | |- context [negb true] => change (negb true) with false
  | |- context [negb false] => change (negb false) with true
  end; cbv beta iota).

Lemma drain_step (f : nat) (hdr : list Z) (z : zbuf) :
  drain (S f) hdr z =
  if num_bits z >? 0
  then drain f (hdr ++ [Z.land (code_buffer z) 255])
             (with_bits z (num_bits z - 8) (Z.shiftr (code_buffer z) 8))
  else ZOk (hdr, z).
Proof. cbn [drain]. unfold zbind at 1, zget. destruct (num_bits z >? 0); reflexivity. Qed.

Lemma drain_3 (X : Z) i o l e zl zd :
  0 <= X < 2 ^ 24 ->
  drain 8 [] (mkZB i 24 X o l e zl zd) =
  ZOk ([X mod 256; X / 256 mod 256; X / 65536], mkZB i 0 0 o l e zl zd).
Proof.
  intros HX.
  do 4 (rewrite drain_step; cbn [with_bits zin num_bits code_buffer zout zlimit
                                  z_expandable z_length z_distance]; zeval).
  change 255 with (Z.ones 8). rewrite !Z.land_ones, !Z.shiftr_div_pow2 by lia. zeval.
  replace (X / 256 / 256 / 256) with 0 by (Z.div_mod_to_equations; lia).
  replace (X / 256 / 256 mod 256) with (X / 65536) by (Z.div_mod_to_equations; lia).
  replace (X / 256 / 256) with (X / 65536) by (Z.div_mod_to_equations; lia).
  reflexivity.
Qed.

Lemma lxor_65535 (x : Z) : 0 <= x < 65536 -> Z.lxor x 65535 = 65535 - x.
Proof.
  intros Hx. change 65535 with (Z.ones 16).
  assert (E : x + Z.lxor x (Z.ones 16) = Z.ones 16).
  { rewrite Z.add_nocarry_lxor.
    - rewrite <- Z.lxor_assoc, Z.lxor_nilpotent. apply Z.lxor_0_l.
    - apply Z.bits_inj'; intros i Hi. rewrite Z.land_spec, Z.lxor_spec, Z.bits_0.
      destruct (Z.ltb_spec i 16).
      + rewrite Z.ones_spec_low by lia. destruct (Z.testbit x i); reflexivity.
      + rewrite <- (Z.mod_small x (2 ^ 16)) by (cbn; lia).
        rewrite Z.mod_pow2_bits_high by lia. reflexivity. }
  lia.
Qed.

Ltac zrec := cbn [with_bits with_in with_out zin num_bits code_buffer zout zlimit
                   z_expandable z_length z_distance].

Lemma grow_limit_some (cur n lim : Z) (k : nat) :
  1 <= lim -> cur + n <= lim * 2 ^ Z.of_nat k ->
  exists lim', grow_limit cur n lim (S k) = Some lim' /\ cur + n <= lim' /\ lim <= lim'.
Proof.
  revert lim. induction k as [| k IH]; intros lim Hl Hb; cbn [grow_limit].
  - cbn in Hb. replace (cur + n >? lim) with false
      by (symmetry; rewrite Z.gtb_ltb; apply Z.ltb_ge; lia).
    exists lim. split; [reflexivity | lia].
  - destruct (cur + n >? lim) eqn:E.
    + destruct (IH (lim * 2)) as (l' & E' & H1 & H2); [lia | |].
      * rewrite Nat2Z.inj_succ, Z.pow_succ_r in Hb by lia. lia.
      * exists l'. split; [exact E' | lia].
    + rewrite Z.gtb_ltb in E. apply Z.ltb_ge in E.
      exists lim. split; [reflexivity | lia].
Qed.

Lemma uncompressed_ok (bs rest out : list Z) (cb lim : Z) zl zd :
  let len := Z.of_nat (length bs) in
  len < 65536 -> 0 <= cb ->
  cb / 32 = len mod 256 + 256 * (len / 256) + 65536 * ((65535 - len) mod 256) ->
  parse_uncompressed_block (mkZB ((65535 - len) / 256 :: bs ++ rest) 29 cb out lim false zl zd) =
  if Z.of_nat (length out) + len <=? lim
  then ZOk (tt, mkZB rest 0 0 (out ++ bs) lim false zl zd) else ZErr.
Proof.
  intros len Hl Hcb HX. assert (H0 : 0 <= len) by (unfold len; lia).
  unfold parse_uncompressed_block. unfold zbind at 1, zget at 1. zrec. zeval.
  erewrite zbind_ok; [| erewrite zbind_ok; [| apply zreceive_have; zrec; lia]; reflexivity].
  zrec. zeval. rewrite HX.
  erewrite zbind_ok; [| apply drain_3; Z.div_mod_to_equations; lia].
  set (X := len mod 256 + 256 * (len / 256) + 65536 * ((65535 - len) mod 256)).
  replace (X mod 256) with (len mod 256) by (subst X; Z.div_mod_to_equations; lia).
  replace (X / 256 mod 256) with (len / 256) by (subst X; Z.div_mod_to_equations; lia).
  replace (X / 65536) with ((65535 - len) mod 256) by (subst X; Z.div_mod_to_equations; lia).
  zrec. cbn [length Nat.sub].
  unfold fill_header, zbind at 1, zbind at 1, zget8 at 1. zrec. cbv beta iota.
  unfold zret at 1. cbv beta iota. cbn [app].
  change (get [?a; ?b; ?c; ?d] 0) with a. change (get [?a; ?b; ?c; ?d] 1) with b.
  change (get [?a; ?b; ?c; ?d] 2) with c. change (get [?a; ?b; ?c; ?d] 3) with d.
  replace (len / 256 * 256 + len mod 256) with len by (Z.div_mod_to_equations; lia).
  replace ((65535 - len) / 256 * 256 + (65535 - len) mod 256) with (65535 - len)
    by (Z.div_mod_to_equations; lia).
  rewrite lxor_65535 by lia. rewrite Z.eqb_refl. cbn [negb].
  unfold zbind at 1, zget at 1. zrec.
  replace (Z.of_nat (length (bs ++ rest)) <? len) with false
    by (symmetry; apply Z.ltb_ge; rewrite length_app; unfold len; lia).
  unfold outlen. zrec.
  destruct (Z.leb_spec (Z.of_nat (length out) + len) lim).
  - replace (Z.of_nat (length out) + len >? lim) with false by (symmetry; rewrite Z.gtb_ltb; apply Z.ltb_ge; lia).
    unfold zbind, zret, zget, zput. zrec.
    replace (Z.to_nat len) with (length bs) by (unfold len; lia).
    rewrite take_app_length, drop_app_length. reflexivity.
  - replace (Z.of_nat (length out) + len >? lim) with true by (symmetry; rewrite Z.gtb_ltb; apply Z.ltb_lt; lia).
    reflexivity.
Qed.

Lemma uncompressed_ok_exp (bs rest out : list Z) (cb lim : Z) zl zd :
  let len := Z.of_nat (length bs) in
  len < 65536 -> 0 <= cb ->
  cb / 32 = len mod 256 + 256 * (len / 256) + 65536 * ((65535 - len) mod 256) ->
  1 <= lim -> Z.of_nat (length out) + len <= lim * 2 ^ 63 ->
  exists lim', lim <= lim' /\
  parse_uncompressed_block (mkZB ((65535 - len) / 256 :: bs ++ rest) 29 cb out lim true zl zd) =
  ZOk (tt, mkZB rest 0 0 (out ++ bs) lim' true zl zd).
Proof.
  intros len Hl Hcb HX Hlim Hgrow. assert (H0 : 0 <= len) by (unfold len; lia).
  unfold parse_uncompressed_block. unfold zbind at 1, zget at 1. zrec. zeval.
  erewrite zbind_ok; [| erewrite zbind_ok; [| apply zreceive_have; zrec; lia]; reflexivity].
  zrec. zeval. rewrite HX.
  erewrite zbind_ok; [| apply drain_3; Z.div_mod_to_equations; lia].
  set (X := len mod 256 + 256 * (len / 256) + 65536 * ((65535 - len) mod 256)).
  replace (X mod 256) with (len mod 256) by (subst X; Z.div_mod_to_equations; lia).
  replace (X / 256 mod 256) with (len / 256) by (subst X; Z.div_mod_to_equations; lia).
  replace (X / 65536) with ((65535 - len) mod 256) by (subst X; Z.div_mod_to_equations; lia).
  zrec. cbn [length Nat.sub].
  unfold fill_header, zbind at 1, zbind at 1, zget8 at 1. zrec. cbv beta iota.
  unfold zret at 1. cbv beta iota. cbn [app].
  change (get [?a; ?b; ?c; ?d] 0) with a. change (get [?a; ?b; ?c; ?d] 1) with b.
  change (get [?a; ?b; ?c; ?d] 2) with c. change (get [?a; ?b; ?c; ?d] 3) with d.
  replace (len / 256 * 256 + len mod 256) with len by (Z.div_mod_to_equations; lia).
  replace ((65535 - len) / 256 * 256 + (65535 - len) mod 256) with (65535 - len)
    by (Z.div_mod_to_equations; lia).
  rewrite lxor_65535 by lia. rewrite Z.eqb_refl. cbn [negb].
  unfold zbind at 1, zget at 1. zrec.
  replace (Z.of_nat (length (bs ++ rest)) <? len) with false
    by (symmetry; apply Z.ltb_ge; rewrite length_app; unfold len; lia).
  unfold outlen. zrec.
  destruct (Z.leb_spec (Z.of_nat (length out) + len) lim).
  - replace (Z.of_nat (length out) + len >? lim) with false by (symmetry; rewrite Z.gtb_ltb; apply Z.ltb_ge; lia).
    exists lim. split; [lia |].
    unfold zbind, zret, zget, zput. zrec.
    replace (Z.to_nat len) with (length bs) by (unfold len; lia).
    rewrite take_app_length, drop_app_length. reflexivity.
  - replace (Z.of_nat (length out) + len >? lim) with true by (symmetry; rewrite Z.gtb_ltb; apply Z.ltb_lt; lia).
    destruct (grow_limit_some (Z.of_nat (length out)) len lim 63) as (l' & E & _ & Hl'); [lia | exact Hgrow |].
    exists l'. split; [exact Hl' |].
    unfold zbind at 1, zexpand. zrec. cbn [negb]. rewrite E.
    unfold zbind, zret, zget, zput, with_out. zrec.
    replace (Z.to_nat len) with (length bs) by (unfold len; lia).
    rewrite take_app_length, drop_app_length. reflexivity.
Qed.

Lemma stored_step (fuel : nat) (final : bool) (bs rest out : list Z) (lim : Z) zl zd :
  Z.of_nat (length bs) < 65536 ->
  parse_blocks (S fuel) (mkZB (stored_block final bs ++ rest) 0 0 out lim false zl zd) =
  if Z.of_nat (length out) + Z.of_nat (length bs) <=? lim then
    (if final then ZOk (tt, mkZB rest 0 0 (out ++ bs) lim false zl zd)
     else parse_blocks fuel (mkZB rest 0 0 (out ++ bs) lim false zl zd))
  else ZErr.
Proof.
  intros Hl.
  set (len := Z.of_nat (length bs)).
  assert (Hlen : 0 <= len < 65536) by (subst len; lia).
  set (b0 := if final then 1 else 0).
  assert (Hb0 : 0 <= b0 < 2) by (subst b0; destruct final; lia).
  unfold stored_block. cbn [app]. fold len. fold b0.
  cbn [parse_blocks].
  set (C := b0 + len mod 256 * 2 ^ 8 + len / 256 * 2 ^ 16 + (65535 - len) mod 256 * 2 ^ 24).
  erewrite zbind_ok; [| apply zreceive_fill; [cbn; lia | apply fill_bits_4 | zrec; lia]];
    [| lia | Z.div_mod_to_equations; lia | Z.div_mod_to_equations; lia
     | Z.div_mod_to_equations; lia].
  fold C.
  erewrite zbind_ok; [| apply zreceive_have; zrec; lia]. zrec. zeval.
  replace (C / 2 mod 4) with 0 by (subst C; Z.div_mod_to_equations; lia).
  replace (C mod 2) with b0 by (subst C; Z.div_mod_to_equations; lia).
  zeval. unfold zbind at 1. unfold with_bits. zrec.
  pose proof (uncompressed_ok bs rest out (C / 2 / 4) lim zl zd) as U.
  cbv zeta in U. fold len in U. rewrite U; [| lia | Z.div_mod_to_equations; lia
                                           | subst C; Z.div_mod_to_equations; lia].
  destruct (Z.of_nat (length out) + len <=? lim); [| reflexivity].
  subst b0; destruct final; reflexivity.
Qed.

Lemma stored_blocks_run (bss : list (list Z)) (fuel : nat) (rest out : list Z) lim zl zd :
  bss <> [] -> Forall (fun bs => Z.of_nat (length bs) < 65536) bss ->
  (length bss <= fuel)%nat ->
  parse_blocks fuel (mkZB (stored_blocks bss ++ rest) 0 0 out lim false zl zd) =
  if Z.of_nat (length out) + Z.of_nat (length (concat bss)) <=? lim
  then ZOk (tt, mkZB rest 0 0 (out ++ concat bss) lim false zl zd) else ZErr.
Proof.
  revert fuel out. induction bss as [|bs r IH]; intros fuel out Hne Hf Hfuel; [congruence|].
  inversion Hf as [|? ? Hbs Hr]; subst.
  destruct fuel as [|fuel]; [cbn in Hfuel; lia|].
  destruct r as [|b' r'].
  - cbn [stored_blocks concat]. rewrite stored_step by exact Hbs.
    rewrite app_nil_r. reflexivity.
  - change (stored_blocks (bs :: b' :: r'))
      with (stored_block false bs ++ stored_blocks (b' :: r')).
    rewrite <- app_assoc.
    rewrite stored_step by exact Hbs.
    cbn [concat]. fold (concat (b' :: r')).
    destruct (Z.leb_spec (Z.of_nat (length out) + Z.of_nat (length bs)) lim).
    + rewrite IH by (auto || discriminate || (cbn in *; lia)).
      rewrite <- app_assoc.
      replace (Z.of_nat (length (out ++ bs)) + Z.of_nat (length (concat (b' :: r'))))
        with (Z.of_nat (length out) + Z.of_nat (length (bs ++ concat (b' :: r'))))
        by (rewrite !length_app; lia).
      reflexivity.
    + replace (_ <=? lim) with false; [reflexivity|].
      symmetry. apply Z.leb_gt. rewrite length_app. lia.
Qed.

Lemma stored_block_length (final : bool) (bs : list Z) :
  length (stored_block final bs) = (5 + length bs)%nat.
Proof. unfold stored_block. rewrite length_app. reflexivity. Qed.

Lemma stored_blocks_length (bss : list (list Z)) :
  (5 * length bss <= length (stored_blocks bss))%nat.
Proof.
  induction bss as [|bs r IH]; [cbn; lia|].
  destruct r as [|b' r'].
  - cbn [stored_blocks]. rewrite stored_block_length. cbn [length]. lia.
  - change (stored_blocks (bs :: b' :: r'))
      with (stored_block false bs ++ stored_blocks (b' :: r')).
    rewrite length_app, stored_block_length. cbn [length] in *. lia.
Qed.

Lemma stored_step_exp (fuel : nat) (final : bool) (bs rest out : list Z) (lim : Z) zl zd :
  Z.of_nat (length bs) < 65536 -> 1 <= lim ->
  Z.of_nat (length out) + Z.of_nat (length bs) <= lim * 2 ^ 63 ->
  exists lim', lim <= lim' /\
  parse_blocks (S fuel) (mkZB (stored_block final bs ++ rest) 0 0 out lim true zl zd) =
    (if final then ZOk (tt, mkZB rest 0 0 (out ++ bs) lim' true zl zd)
     else parse_blocks fuel (mkZB rest 0 0 (out ++ bs) lim' true zl zd)).
Proof.
  intros Hl Hlim Hgrow.
  set (len := Z.of_nat (length bs)) in *.
  assert (Hlen : 0 <= len < 65536) by (subst len; lia).
  assert (Hlen' : len < 65536) by lia.
  set (b0 := if final then 1 else 0).
  assert (Hb0 : 0 <= b0 < 2) by (subst b0; destruct final; lia).
  unfold stored_block. cbn [app]. fold len. fold b0.
  cbn [parse_blocks].
  set (C := b0 + len mod 256 * 2 ^ 8 + len / 256 * 2 ^ 16 + (65535 - len) mod 256 * 2 ^ 24).
  erewrite zbind_ok; [| apply zreceive_fill; [cbn; lia | apply fill_bits_4 | zrec; lia]];
    [| lia | Z.div_mod_to_equations; lia | Z.div_mod_to_equations; lia
     | Z.div_mod_to_equations; lia].
  fold C.
  erewrite zbind_ok; [| apply zreceive_have; zrec; lia]. zrec. zeval.
  replace (C / 2 mod 4) with 0 by (subst C; Z.div_mod_to_equations; lia).
  replace (C mod 2) with b0 by (subst C; Z.div_mod_to_equations; lia).
  zeval. unfold zbind at 1. unfold with_bits. zrec.
  pose proof (uncompressed_ok_exp bs rest out (C / 2 / 4) lim zl zd) as U.
  cbv zeta in U. fold len in U.
  assert (A1 : 0 <= C / 2 / 4) by (Z.div_mod_to_equations; lia).
  assert (A2 : C / 2 / 4 / 32 = len mod 256 + 256 * (len / 256) + 65536 * ((65535 - len) mod 256))
    by (subst C; Z.div_mod_to_equations; lia).
  destruct (U Hlen' A1 A2 Hlim Hgrow) as (l' & Hl' & U').
  rewrite U'. exists l'. split; [exact Hl' |].
  subst b0; destruct final; reflexivity.
Qed.

Lemma stored_blocks_run_exp (bss : list (list Z)) (fuel : nat) (rest out : list Z) lim zl zd :
  bss <> [] -> Forall (fun bs => Z.of_nat (length bs) < 65536) bss ->
  (length bss <= fuel)%nat -> 1 <= lim ->
  Z.of_nat (length out) + Z.of_nat (length (concat bss)) <= 2 ^ 63 ->
  exists lim',
  parse_blocks fuel (mkZB (stored_blocks bss ++ rest) 0 0 out lim true zl zd) =
  ZOk (tt, mkZB rest 0 0 (out ++ concat bss) lim' true zl zd).
Proof.
  revert fuel out lim. induction bss as [|bs r IH]; intros fuel out lim Hne Hf Hfuel Hlim Htot;
    [congruence|].
  inversion Hf as [|? ? Hbs Hr]; subst.
  destruct fuel as [|fuel]; [cbn in Hfuel; lia|].
  cbn [concat] in Htot. rewrite length_app in Htot.
  assert (Hp : 2 ^ 63 <= lim * 2 ^ 63).
  { rewrite <- (Z.mul_1_l (2 ^ 63)) at 1. apply Z.mul_le_mono_nonneg_r; lia. }
  destruct r as [|b' r'].
  - cbn [stored_blocks concat].
    destruct (stored_step_exp fuel true bs rest out lim zl zd) as (l' & _ & E); [exact Hbs | exact Hlim | lia |].
    rewrite E, app_nil_r. exists l'. reflexivity.
  - change (stored_blocks (bs :: b' :: r'))
      with (stored_block false bs ++ stored_blocks (b' :: r')).
    rewrite <- app_assoc.
    destruct (stored_step_exp fuel false bs (stored_blocks (b' :: r') ++ rest) out lim zl zd)
      as (l' & Hl' & E); [exact Hbs | exact Hlim | lia |].
    rewrite E.
    assert (F1 : (length (b' :: r') <= fuel)%nat) by (cbn in Hfuel |- *; lia).
    assert (F2 : 1 <= l') by lia.
    assert (F3 : Z.of_nat (length (out ++ bs)) + Z.of_nat (length (concat (b' :: r'))) <= 2 ^ 63)
      by (rewrite length_app; lia).
    destruct (IH fuel (out ++ bs) l' ltac:(discriminate) Hr F1 F2 F3) as (l'' & E').
    rewrite E', <- app_assoc. exists l''. reflexivity.
Qed.

Lemma parse_zlib_stored (fuel : nat) (parse_header : bool) (bss : list (list Z))
    (trailer : list Z) (lim : Z) (exp : bool) :
  parse_zlib fuel parse_header
    (mkZB (zhdr parse_header ++ stored_blocks bss ++ trailer) 0 0 [] lim exp zhuffman_zero zhuffman_zero)
  = parse_blocks fuel (mkZB (stored_blocks bss ++ trailer) 0 0 [] lim exp zhuffman_zero zhuffman_zero).
Proof.
  unfold parse_zlib. destruct parse_header; cbn [zhdr app].
  - unfold zbind at 1, parse_zlib_header.
    unfold zbind at 1, zget8 at 1. zrec. unfold zbind at 1, zget8 at 1. zrec. zeval.
    unfold zbind at 1, zget at 1, zbind at 1, zput at 1, with_bits. zrec.
    unfold zret at 1. unfold with_in. zrec. reflexivity.
  - unfold zbind at 1, zret at 1, zbind at 1, zget at 1, zbind at 1, zput at 1, with_bits.
    zrec. reflexivity.
Qed.

Lemma zfuel_blocks (bss : list (list Z)) (pre trailer : list Z) (olen : Z) :
  0 <= olen -> (length bss <= zfuel (Z.of_nat (length (pre ++ stored_blocks bss ++ trailer))) olen)%nat.
Proof.
  intros Ho. pose proof (stored_blocks_length bss).
  unfold zfuel. rewrite !length_app. lia.
Qed.

(** X1. A zlib stream made of stored (uncompressed) blocks decodes into a
    fixed buffer of [olen] bytes to the concatenation of the blocks' bytes when
    it fits, and fails otherwise; with the 2-byte header through
    [stbi_zlib_decode_buffer], without it through
    [stbi_zlib_decode_noheader_buffer]. Bytes after the final block are
    ignored. *)
Theorem stored_stream_decodes (bss : list (list Z)) (trailer : list Z) (olen : Z) :
  bss <> [] -> Forall (fun bs => Z.of_nat (length bs) < 65536) bss -> 0 <= olen ->
  stbi_zlib_decode_buffer olen ([120; 1] ++ stored_blocks bss ++ trailer) =
    (if Z.of_nat (length (concat bss)) <=? olen then ZOk (concat bss) else ZErr) /\
  stbi_zlib_decode_noheader_buffer olen (stored_blocks bss ++ trailer) =
    (if Z.of_nat (length (concat bss)) <=? olen then ZOk (concat bss) else ZErr).
Proof.
  intros Hne Hf Ho. split.
  - unfold stbi_zlib_decode_buffer, do_zlib.
    change ([120; 1] ++ stored_blocks bss ++ trailer) with (zhdr true ++ stored_blocks bss ++ trailer).
    rewrite parse_zlib_stored, stored_blocks_run by (auto using zfuel_blocks).
    cbn [length]. rewrite Z.add_0_l.
    destruct (Z.of_nat (length (concat bss)) <=? olen); reflexivity.
  - unfold stbi_zlib_decode_noheader_buffer, do_zlib.
    change (stored_blocks bss ++ trailer) with (zhdr false ++ stored_blocks bss ++ trailer).
    rewrite parse_zlib_stored, stored_blocks_run by (auto using zfuel_blocks).
    cbn [length]. rewrite Z.add_0_l.
    destruct (Z.of_nat (length (concat bss)) <=? olen); reflexivity.
Qed.

Lemma stored_stream_decodes_witness :
  stbi_zlib_decode_buffer 5 ([120; 1] ++ stored_blocks [[1; 2]; [3]] ++ [9]) =
    ZOk [1; 2; 3] /\
  stbi_zlib_decode_noheader_buffer 5 (stored_blocks [[1; 2]; [3]] ++ [9]) = ZOk [1; 2; 3].
Proof.
  apply (stored_stream_decodes [[1; 2]; [3]] [9] 5);
    [discriminate | repeat constructor | lia].
Defined.

Lemma do_zlib_stored_exp (bss : list (list Z)) (trailer : list Z) (initial_size : Z)
    (parse_header : bool) :
  bss <> [] -> Forall (fun bs => Z.of_nat (length bs) < 65536) bss -> 1 <= initial_size ->
  Z.of_nat (length (concat bss)) < 2 ^ 30 ->
  exists z, do_zlib (zhdr parse_header ++ stored_blocks bss ++ trailer) initial_size true parse_header
            = ZOk z /\ zout z = concat bss.
Proof.
  intros Hne Hf Hi Ht. unfold do_zlib. rewrite parse_zlib_stored.
  destruct (stored_blocks_run_exp bss (zfuel (Z.of_nat (length (zhdr parse_header ++ stored_blocks bss ++ trailer))) initial_size)
              trailer [] initial_size zhuffman_zero zhuffman_zero) as (l' & E);
    [exact Hne | exact Hf | apply zfuel_blocks; lia | exact Hi | cbn [length]; lia |].
  rewrite E. eexists. split; reflexivity.
Qed.

(** X2. The growing-buffer entry points return exactly the concatenated
    bytes of a stream of stored blocks, for any initial size of at least 1
    byte (the buffer is doubled as needed) and output below 2^30 bytes. *)
Theorem stored_stream_decodes_malloc (bss : list (list Z)) (trailer : list Z) (initial_size : Z) :
  bss <> [] -> Forall (fun bs => Z.of_nat (length bs) < 65536) bss -> 1 <= initial_size ->
  Z.of_nat (length (concat bss)) < 2 ^ 30 ->
  stbi_zlib_decode_malloc_guesssize ([120; 1] ++ stored_blocks bss ++ trailer) initial_size
    = ZOk (concat bss) /\
  stbi_zlib_decode_malloc ([120; 1] ++ stored_blocks bss ++ trailer) = ZOk (concat bss) /\
  stbi_zlib_decode_malloc_guesssize_headerflag ([120; 1] ++ stored_blocks bss ++ trailer)
    initial_size true = ZOk (concat bss) /\
  stbi_zlib_decode_malloc_guesssize_headerflag (stored_blocks bss ++ trailer)
    initial_size false = ZOk (concat bss) /\
  stbi_zlib_decode_noheader_malloc (stored_blocks bss ++ trailer) = ZOk (concat bss).
Proof.
  intros Hne Hf Hi Ht.
  destruct (do_zlib_stored_exp bss trailer initial_size true) as (z1 & E1 & O1); try assumption.
  destruct (do_zlib_stored_exp bss trailer 16384 true) as (z2 & E2 & O2); try assumption; [lia |].
  destruct (do_zlib_stored_exp bss trailer initial_size false) as (z3 & E3 & O3); try assumption.
  destruct (do_zlib_stored_exp bss trailer 16384 false) as (z4 & E4 & O4); try assumption; [lia |].
  cbn [zhdr app] in E1, E2, E3, E4.
  unfold stbi_zlib_decode_malloc, stbi_zlib_decode_malloc_guesssize,
    stbi_zlib_decode_malloc_guesssize_headerflag, stbi_zlib_decode_noheader_malloc.
  cbn [app].
  rewrite E1, E2, E3, E4. repeat split; congruence.
Qed.

Lemma stored_stream_decodes_malloc_witness :
  stbi_zlib_decode_malloc_guesssize ([120; 1] ++ stored_blocks [[1; 2; 3]] ++ []) 1
    = ZOk [1; 2; 3] /\
  stbi_zlib_decode_malloc ([120; 1] ++ stored_blocks [[1; 2; 3]] ++ []) = ZOk [1; 2; 3] /\
  stbi_zlib_decode_malloc_guesssize_headerflag ([120; 1] ++ stored_blocks [[1; 2; 3]] ++ [])
    1 true = ZOk [1; 2; 3] /\
  stbi_zlib_decode_malloc_guesssize_headerflag (stored_blocks [[1; 2; 3]] ++ [])
    1 false = ZOk [1; 2; 3] /\
  stbi_zlib_decode_noheader_malloc (stored_blocks [[1; 2; 3]] ++ []) = ZOk [1; 2; 3].
Proof.
  apply (stored_stream_decodes_malloc [[1; 2; 3]] [] 1);
    [discriminate | repeat constructor | lia | cbn; lia].
Defined.

Lemma zget8_get (z : zbuf) : zget8 z = ZOk (get (zin z) 0, with_in z (tl (zin z))).
Proof. destruct z as [[| b r] nb cb o l e zl zd]; reflexivity. Qed.

Lemma get_tl (l : list Z) : get (tl l) 0 = get l 1.
Proof. destruct l as [| a [| b r]]; reflexivity. Qed.

Lemma do_zlib_bad_header (ibuf : list Z) (olen : Z) (exp : bool) :
  let cmf := get ibuf 0 in
  let flg := get ibuf 1 in
  (cmf * 256 + flg) mod 31 <> 0 \/ Z.land flg 32 <> 0 \/ Z.land cmf 15 <> 8 ->
  do_zlib ibuf olen exp true = ZErr.
Proof.
  intros cmf flg Hbad.
  unfold do_zlib, parse_zlib. unfold zbind at 1. unfold parse_zlib_header.
  unfold zbind at 1. rewrite zget8_get. unfold zbind at 1. rewrite zget8_get.
  cbn [zin with_in]. rewrite get_tl. fold cmf flg.
  destruct ((cmf * 256 + flg) mod 31 =? 0) eqn:E1; cbn [negb]; [| reflexivity].
  destruct (Z.land flg 32 =? 0) eqn:E2; cbn [negb]; [| reflexivity].
  destruct (Z.land (cmf) 15 =? 8) eqn:E3; cbn [negb]; [| reflexivity].
  apply Z.eqb_eq in E1, E2, E3. tauto.
Qed.

(** X3. A stream whose two header bytes CMF, FLG fail one of the header
    checks (CMF*256+FLG a multiple of 31, no preset dictionary, compression
    method 8) is rejected by every entry point that parses the header,
    whatever the rest of the input. *)
Theorem bad_zlib_header_rejected (ibuf : list Z) (olen initial_size : Z) :
  let cmf := get ibuf 0 in
  let flg := get ibuf 1 in
  (cmf * 256 + flg) mod 31 <> 0 \/ Z.land flg 32 <> 0 \/ Z.land cmf 15 <> 8 ->
  stbi_zlib_decode_buffer olen ibuf = ZErr /\
  stbi_zlib_decode_malloc_guesssize ibuf initial_size = ZErr /\
  stbi_zlib_decode_malloc ibuf = ZErr /\
  stbi_zlib_decode_malloc_guesssize_headerflag ibuf initial_size true = ZErr.
Proof.
  intros cmf flg Hbad.
  unfold stbi_zlib_decode_buffer, stbi_zlib_decode_malloc, stbi_zlib_decode_malloc_guesssize,
    stbi_zlib_decode_malloc_guesssize_headerflag.
  rewrite !do_zlib_bad_header by exact Hbad. repeat split.
Qed.

Lemma bad_zlib_header_rejected_witness :
  stbi_zlib_decode_buffer 16 [120; 2; 1; 0] = ZErr /\
  stbi_zlib_decode_malloc_guesssize [120; 2; 1; 0] 16 = ZErr /\
  stbi_zlib_decode_malloc [120; 2; 1; 0] = ZErr /\
  stbi_zlib_decode_malloc_guesssize_headerflag [120; 2; 1; 0] 16 true = ZErr.
Proof.
  apply (bad_zlib_header_rejected [120; 2; 1; 0] 16 16).
  left. vm_compute. discriminate.
Defined.

Lemma zpost_ret {A} (a : A) z P : P a z -> zpost (zret a) z P.
Proof. exact id. Qed.

Lemma zpost_bind {A B} (c : ZM A) (k : A -> ZM B) z P :
  zpost c z (fun a z' => zpost (k a) z' P) -> zpost (zbind c k) z P.
Proof. unfold zpost, zbind. destruct (c z) as [[a z']| |]; auto. Qed.

Lemma zpost_get z (P : zbuf -> zbuf -> Prop) : P z z -> zpost zget z P.
Proof. exact id. Qed.

Lemma zpost_put z z' (P : unit -> zbuf -> Prop) : P tt z' -> zpost (zput z') z P.
Proof. exact id. Qed.

Lemma zpost_fail {A} z (P : A -> zbuf -> Prop) : zpost zfail z P.
Proof. exact I. Qed.

Lemma zpost_mono {A} (c : ZM A) z (P Q : A -> zbuf -> Prop) :
  zpost c z P -> (forall a z', P a z' -> Q a z') -> zpost c z Q.
Proof. unfold zpost. destruct (c z) as [[a z']| |]; auto. Qed.

Lemma zpost_loop {A} z (P : A -> zbuf -> Prop) : zpost (fun _ => ZLoop) z P.
Proof. exact I. Qed.

Lemma zsame_refl z : zsame z z.
Proof. repeat split. Qed.

Lemma zsame_trans z1 z2 z3 : zsame z1 z2 -> zsame z2 z3 -> zsame z1 z3.
Proof. intros (A & B & C) (D & E & F). repeat split; congruence. Qed.

(** Frames a step that keeps the output: [zsame z z1] is added. *)
Lemma zpost_same {A} (c : ZM A) z P :
  zpost c z (fun _ z' => zsame z z') ->
  (forall a z', zsame z z' -> P a z') -> zpost c z P.
Proof. intros H1 H2. eapply zpost_mono; [exact H1 | auto]. Qed.

Create HintDb zsame_db.

Ltac is_zprim c :=
  lazymatch c with
  | zget8 => idtac | fill_bits => idtac | fill_bits_loop _ => idtac
  | zreceive _ => idtac | zhuffman_decode _ => idtac
  | zhuffman_decode_slowpath _ => idtac | zextra _ _ => idtac
  | read_cl_sizes _ _ _ => idtac | read_lencodes _ _ _ _ _ => idtac
  | compute_huffman_codes => idtac | drain _ _ => idtac | fill_header _ _ => idtac
  | parse_zlib_header => idtac
  end.

(** Steps through a computation of the decoder, keeping the tests it takes
    and the output of the steps that leave it alone. *)
Ltac zwp :=
  repeat (cbv beta;
    match goal with
    | |- zpost (zbind _ _) _ _ => apply zpost_bind
    | |- zpost (zret _) _ _ => apply zpost_ret
    | |- zpost zget _ _ => apply zpost_get
    | |- zpost (zput _) _ _ => apply zpost_put
    | |- zpost zfail _ _ => apply zpost_fail
    | |- zpost (fun _ => ZLoop) _ _ => apply zpost_loop
    | |- zpost (if ?b then _ else _) _ _ => let E := fresh "E" in destruct b eqn:E
    | |- zpost (match ?o with Some _ => _ | None => _ end) _ _ =>
        let E := fresh "E" in destruct o eqn:E
    | |- zpost (let '(_, _) := ?p in _) _ _ => destruct p
    | |- zpost ?c _ _ =>
        is_zprim c; eapply zpost_same;
        [solve [eauto with zsame_db] | let a := fresh "a" in let z := fresh "z" in
                                       let H := fresh "Hs" in intros a z H]
    end).

Ltac zfin :=
  unfold zsame, zinv, outlen, with_bits, with_in, with_tables, with_out in *; cbn in *;
  repeat match goal with H : _ /\ _ |- _ => destruct H end;
  repeat match goal with
  | H : zout _ = zout _ |- _ => rewrite H in *; clear H
  | H : zlimit _ = zlimit _ |- _ => rewrite H in *; clear H
  | H : z_expandable _ = z_expandable _ |- _ => rewrite H in *; clear H
  end;
  repeat split; try congruence.

Lemma zget8_same z : zpost zget8 z (fun _ z' => zsame z z').
Proof. unfold zpost, zget8. destruct (zin z); repeat split. Qed.

Lemma zsame_bits z nb cb : zsame z (with_bits z nb cb).
Proof. repeat split. Qed.

Lemma zsame_in z i : zsame z (with_in z i).
Proof. repeat split. Qed.

Lemma zsame_tables z l d : zsame z (with_tables z l d).
Proof. repeat split. Qed.

Global Hint Resolve zget8_same : zsame_db.

Lemma fill_bits_loop_same (n : nat) z : zpost (fill_bits_loop n) z (fun _ z' => zsame z z').
Proof.
  revert z. induction n as [|n IH]; intros z; cbn [fill_bits_loop]; zwp; zfin.
Qed.

Global Hint Resolve fill_bits_loop_same : zsame_db.

Lemma fill_bits_same z : zpost fill_bits z (fun _ z' => zsame z z').
Proof. apply fill_bits_loop_same. Qed.

Global Hint Resolve fill_bits_same : zsame_db.

Lemma zreceive_same n z : zpost (zreceive n) z (fun _ z' => zsame z z').
Proof. unfold zreceive. zwp; zfin. Qed.

Global Hint Resolve zreceive_same : zsame_db.

Lemma slowpath_same h z : zpost (zhuffman_decode_slowpath h) z (fun _ z' => zsame z z').
Proof. unfold zhuffman_decode_slowpath. zwp; zfin. Qed.

Global Hint Resolve slowpath_same : zsame_db.

Lemma zhuffman_decode_same h z : zpost (zhuffman_decode h) z (fun _ z' => zsame z z').
Proof. unfold zhuffman_decode. zwp; zfin. Qed.

Global Hint Resolve zhuffman_decode_same : zsame_db.

Lemma zextra_same b e z : zpost (zextra b e) z (fun _ z' => zsame z z').
Proof. unfold zextra. zwp; zfin. Qed.

Global Hint Resolve zextra_same : zsame_db.

Lemma read_cl_sizes_same i h cls z : zpost (read_cl_sizes i h cls) z (fun _ z' => zsame z z').
Proof.
  revert i cls z. induction h as [|h IH]; intros i cls z; cbn [read_cl_sizes]; zwp; zfin.
Qed.

Global Hint Resolve read_cl_sizes_same : zsame_db.

Lemma read_lencodes_same zcl t f n lc z :
  zpost (read_lencodes zcl t f n lc) z (fun _ z' => zsame z z').
Proof.
  revert n lc z. induction f as [|f IH]; intros n lc z; cbn [read_lencodes]; zwp; zfin.
Qed.

Global Hint Resolve read_lencodes_same : zsame_db.

Lemma compute_huffman_codes_same z : zpost compute_huffman_codes z (fun _ z' => zsame z z').
Proof. unfold compute_huffman_codes. zwp; zfin. Qed.

Global Hint Resolve compute_huffman_codes_same : zsame_db.

Lemma drain_same f hdr z : zpost (drain f hdr) z (fun _ z' => zsame z z').
Proof. revert hdr z. induction f as [|f IH]; intros hdr z; cbn [drain]; zwp; zfin. Qed.

Global Hint Resolve drain_same : zsame_db.

Lemma fill_header_same n hdr z : zpost (fill_header n hdr) z (fun _ z' => zsame z z').
Proof. revert hdr z. induction n as [|n IH]; intros hdr z; cbn [fill_header]; zwp; zfin. Qed.

Global Hint Resolve fill_header_same : zsame_db.

Lemma parse_zlib_header_same z : zpost parse_zlib_header z (fun _ z' => zsame z z').
Proof. unfold parse_zlib_header. zwp; zfin. Qed.

Global Hint Resolve parse_zlib_header_same : zsame_db.

Ltac zbools :=
  repeat match goal with
  | H : (_ >=? _) = false |- _ => rewrite Z.geb_leb, Z.leb_gt in H
  | H : (_ >=? _) = true |- _ => rewrite Z.geb_leb, Z.leb_le in H
  | H : (_ >? _) = false |- _ => rewrite Z.gtb_ltb, Z.ltb_ge in H
  | H : (_ >? _) = true |- _ => rewrite Z.gtb_ltb, Z.ltb_lt in H
  | H : (_ <? _) = false |- _ => rewrite Z.ltb_ge in H
  | H : (_ <? _) = true |- _ => rewrite Z.ltb_lt in H
  | H : (_ <=? _) = false |- _ => rewrite Z.leb_gt in H
  | H : (_ <=? _) = true |- _ => rewrite Z.leb_le in H
  end.

Lemma zexpand_fixed n z (P : unit -> zbuf -> Prop) :
  z_expandable z = false -> zpost (zexpand n) z P.
Proof. intros H. unfold zpost, zexpand. rewrite H. exact I. Qed.

Lemma copy_bytes_length out p n : length (copy_bytes out p n) = (length out + n)%nat.
Proof.
  revert out p. induction n as [|n IH]; intros out p; cbn [copy_bytes].
  - lia.
  - rewrite IH, length_app. cbn. lia.
Qed.

Lemma parse_huffman_block_inv olen f z :
  zinv olen z -> zpost (parse_huffman_block f) z (fun _ z' => zinv olen z').
Proof.
  revert z. induction f as [|f IH]; intros z Hz; cbn [parse_huffman_block]; zwp.
  all: try (apply zexpand_fixed; zfin; fail).
  - unfold zemit. zwp. apply IH. zbools. zfin. unfold outlen in *.
    rewrite length_app. cbn [length]. lia.
  - zfin.
  - apply IH. zbools. zfin. unfold outlen in *.
    destruct (a2 =? 1).
    + rewrite length_app, repeat_length. lia.
    + rewrite copy_bytes_length. lia.
Qed.

Lemma uncompressed_inv olen z :
  zinv olen z -> zpost parse_uncompressed_block z (fun _ z' => zinv olen z').
Proof.
  intros Hz. unfold parse_uncompressed_block. zwp.
  all: try (apply zexpand_fixed; zfin; fail).
  all: zbools; zfin; rewrite length_app, length_take; lia.
Qed.

Lemma parse_blocks_inv olen f z :
  zinv olen z -> zpost (parse_blocks f) z (fun _ z' => zinv olen z').
Proof.
  revert z. induction f as [|f IH]; intros z Hz; cbn [parse_blocks]; zwp.
  all: (eapply zpost_mono;
        [apply (uncompressed_inv olen) || apply (parse_huffman_block_inv olen); zfin; lia|]).
  all: intros u z' Hz'; cbv beta in Hz'; zwp; [apply IH|]; exact Hz'.
Qed.

Lemma parse_zlib_inv olen f h z :
  zinv olen z -> zpost (parse_zlib f h) z (fun _ z' => zinv olen z').
Proof.
  intros Hz. unfold parse_zlib. zwp; apply parse_blocks_inv; zfin; lia.
Qed.

Lemma do_zlib_fixed_within (olen : Z) (ibuf : list Z) (h : bool) (z : zbuf) :
  0 <= olen -> do_zlib ibuf olen false h = ZOk z -> Z.of_nat (length (zout z)) <= olen.
Proof.
  intros Ho E. unfold do_zlib in E.
  pose proof (parse_zlib_inv olen (zfuel (Z.of_nat (length ibuf)) olen) h
                (mkZB ibuf 0 0 [] olen false zhuffman_zero zhuffman_zero)) as H.
  unfold zpost in H.
  destruct (parse_zlib _ _ _) as [[[] z']| |]; try discriminate.
  injection E as <-. apply H. zfin. cbn. lia.
Qed.

(** X4. Decoding into a fixed buffer of [olen] bytes never returns more than
    [olen] bytes, with or without the zlib header: the buffer is not
    expandable, so any block that would pass its end makes the decode fail. *)
Theorem decode_buffer_within_olen (olen : Z) (ibuf out : list Z) :
  0 <= olen ->
  (stbi_zlib_decode_buffer olen ibuf = ZOk out ->
   Z.of_nat (length out) <= olen) /\
  (stbi_zlib_decode_noheader_buffer olen ibuf = ZOk out ->
   Z.of_nat (length out) <= olen).
Proof.
  intros Ho. split; intros E.
  - unfold stbi_zlib_decode_buffer in E.
    destruct (do_zlib ibuf olen false true) as [z| |] eqn:D; try discriminate.
    injection E as <-. exact (do_zlib_fixed_within olen ibuf true z Ho D).
  - unfold stbi_zlib_decode_noheader_buffer in E.
    destruct (do_zlib ibuf olen false false) as [z| |] eqn:D; try discriminate.
    injection E as <-. exact (do_zlib_fixed_within olen ibuf false z Ho D).
Qed.

Lemma decode_buffer_within_olen_witness :
  (stbi_zlib_decode_buffer 3 [120; 1; 1; 3; 0; 252; 255; 1; 2; 3] = ZOk [1; 2; 3] ->
   Z.of_nat (length [1; 2; 3]) <= 3) /\
  (stbi_zlib_decode_noheader_buffer 3 [120; 1; 1; 3; 0; 252; 255; 1; 2; 3] = ZOk [1; 2; 3] ->
   Z.of_nat (length [1; 2; 3]) <= 3).
Proof. apply (decode_buffer_within_olen 3). lia. Defined.

Lemma bitreverse16_bit (n i : Z) :
  0 <= i -> Z.testbit (bitreverse16 n) i = (i <? 16) && Z.testbit n (15 - i).
Proof.
  intros Hi. destruct (Z.ltb_spec i 16) as [Hlt | Hge].
  - assert (i = 0 \/ i = 1 \/ i = 2 \/ i = 3 \/ i = 4 \/ i = 5 \/ i = 6 \/ i = 7 \/
            i = 8 \/ i = 9 \/ i = 10 \/ i = 11 \/ i = 12 \/ i = 13 \/ i = 14 \/ i = 15)
      as Hc by lia.
    unfold bitreverse16.
    repeat destruct Hc as [-> | Hc]; try (subst i);
      repeat (rewrite ?Z.lor_spec, ?Z.land_spec, ?Z.shiftr_spec, ?Z.shiftl_spec by lia;
              cbn [Z.add Z.sub Z.opp Z.pos_sub Pos.sub_mask Pos.pred_double]);
      cbn -[Z.testbit];
      repeat match goal with |- context [Z.testbit (Zpos ?c) ?k] =>
        let b := eval vm_compute in (Z.testbit (Zpos c) k) in change (Z.testbit (Zpos c) k) with b end;
      repeat match goal with |- context [Z.testbit ?x (Zneg ?k)] =>
        rewrite (Z.testbit_neg_r x (Zneg k)) by lia end;
      cbn [andb orb]; rewrite ?andb_true_r, ?andb_false_r, ?orb_false_r, ?orb_false_l; reflexivity.
  - cbn [andb]. unfold bitreverse16.
    rewrite Z.lor_spec, Z.shiftr_spec, Z.land_spec, Z.shiftl_spec, Z.land_spec by lia.
    rewrite (Z.bits_above_log2 0xFF00) by (cbn; lia).
    rewrite (Z.bits_above_log2 0x00FF (i - 8)) by (cbn; lia).
    rewrite !andb_false_r. reflexivity.
Qed.

(** X5. [stbi__bit_reverse v bits] for [bits <= 16] reverses the low [bits]
    bits of [v]: bit [i] of the result is bit [bits-1-i] of [v] below [bits],
    and 0 from [bits] on. *)
Theorem bit_reverse_bits (v bits i : Z) :
  0 <= bits <= 16 -> 0 <= i ->
  Z.testbit (bit_reverse v bits) i = (i <? bits) && Z.testbit v (bits - 1 - i).
Proof.
  intros Hb Hi. unfold bit_reverse.
  rewrite Z.shiftr_spec by lia. rewrite bitreverse16_bit by lia.
  replace (15 - (i + (16 - bits))) with (bits - 1 - i) by lia.
  destruct (Z.ltb_spec i bits), (Z.ltb_spec (i + (16 - bits)) 16); cbn [andb]; lia || reflexivity.
Qed.

Lemma bit_reverse_witness : 0 <= 3 <= 16 /\ 0 <= 0 /\
  Z.testbit (bit_reverse 6 3) 0 = (0 <? 3) && Z.testbit 6 (3 - 1 - 0).
Proof. split; [lia | split; [lia | apply bit_reverse_bits; lia]]. Defined.

End ZlibFacts.

(** * Facts about the sprite loader and its conveniences *)

Module SpriteFacts.

Ltac wpe :=
  repeat (cbv beta;
    match goal with
    | |- ld_post (ld_bind _ _) _ _ => apply post_bind
    | |- ld_post (ld_ret _) _ _ => apply post_ret
    | |- ld_post (if ?b then _ else _) _ _ => destruct b eqn:?
    | |- ld_post ?c _ _ => is_prim c; apply post_any; intros ? ?
    end).

Lemma land_1_bit (x : Z) : (Z.land x 1 =? 0) || (Z.land x 1 =? 1) = true.
Proof.
  assert (E : Z.land x 1 = x mod 2) by (apply (Z.land_ones x 1); lia).
  rewrite E. pose proof (Z.mod_pos_bound x 2 ltac:(lia)).
  assert (x mod 2 = 0 \/ x mod 2 = 1) as [-> | ->] by lia; reflexivity.
Qed.

Lemma Layer_read_wf (S : ASE_Sprite) (st : LayerState) (m : Mach) :
  sprite_wf S ->
  ld_post (ASE_Layer_read S st) m
    (fun r _ => sprite_wf (snd (fst r)) /\ sp_nframes (snd (fst r)) = sp_nframes S).
Proof.
  intros (H1 & H2 & H3 & H4 & H5 & H6).
  unfold ASE_Layer_read, ASE_DOC_AddLayer. wpe.
  - match goal with |- ld_post (let '(_, _) := ?p in _) _ _ => destruct p as [S2 st'] eqn:E end.
    apply post_ret. unfold ASE_Layer_decode in E. injection E as <- _. cbn.
    match goal with H : (?t =? _) || _ = true |- _ => rename H into Ht end.
    unfold set_layers, sprite_wf.
    cbn [sp_layer_array sp_nlayers sp_frame_array sp_nframes sp_tag_array sp_ntags].
    rewrite length_insert, length_app. cbn [length].
    repeat split; try assumption; try lia.
    apply Forall_insert; [apply Forall_app; split; [assumption | repeat constructor] |].
    unfold layer_ok; cbn [ly_type ly_visible]. rewrite Ht. cbn.
    apply land_1_bit.
  - repeat split; assumption.
Qed.

Lemma Tags_loop_wf (n : nat) (S : ASE_Sprite) (m : Mach) :
  sprite_wf S ->
  ld_post (ASE_Tags_loop n S) m (fun S' _ => sprite_wf S' /\ sp_nframes S' = sp_nframes S).
Proof.
  revert S m. induction n as [| n IH]; intros S m HS.
  - apply post_ret. split; [exact HS | reflexivity].
  - cbn [ASE_Tags_loop]. unfold ASE_DOC_AddTag. wp.
    eapply post_mono; [apply IH | cbn; intros S' m1 [HS' E]; split; [exact HS' | exact E]].
    destruct HS as (H1 & H2 & H3 & H4 & H5 & H6).
    unfold sprite_wf. cbn [sp_layer_array sp_nlayers sp_frame_array sp_nframes sp_tag_array sp_ntags].
    rewrite length_app. cbn [length]. repeat split; try assumption; try lia.
    apply Forall_app. split; [assumption |]. constructor; [| constructor].
    unfold tag_dir_ok. cbn [tag_dir].
    match goal with |- context [if ?b then _ else _] => destruct b eqn:Eb end;
      [exact Eb | reflexivity].
Qed.

Lemma Tags_read_wf (S : ASE_Sprite) (m : Mach) :
  sprite_wf S ->
  ld_post (ASE_Tags_read S) m (fun S' _ => sprite_wf S' /\ sp_nframes S' = sp_nframes S).
Proof. intros HS. unfold ASE_Tags_read. wp. apply Tags_loop_wf. exact HS. Qed.

Lemma get_frame_ok (S : ASE_Sprite) (fi : Z) :
  Forall (fun F => frame_ok F = true) (sp_frame_array S) -> frame_ok (get_frame S fi) = true.
Proof.
  intros H. unfold get_frame.
  destruct (decide (Z.to_nat fi < length (sp_frame_array S))%nat) as [Hi | Hi].
  - rewrite Forall_forall in H. apply H. apply list_elem_of_In, nth_In. exact Hi.
  - rewrite nth_overflow by lia. reflexivity.
Qed.

Lemma set_frame_wf (S : ASE_Sprite) (fi : Z) (F : ASE_Frame) :
  sprite_wf S -> frame_ok F = true ->
  sprite_wf (set_frame S fi F) /\ sp_nframes (set_frame S fi F) = sp_nframes S.
Proof.
  intros (H1 & H2 & H3 & H4 & H5 & H6) HF. unfold set_frame, set_frames, sprite_wf.
  cbn [sp_layer_array sp_nlayers sp_frame_array sp_nframes sp_tag_array sp_ntags].
  rewrite length_insert. repeat split; try assumption.
  apply Forall_insert; assumption.
Qed.

Lemma Cel_read_wf (S : ASE_Sprite) (fi EndPos : Z) (m : Mach) :
  sprite_wf S ->
  ld_post (ASE_Cel_read S fi EndPos) m
    (fun r _ => sprite_wf (snd r) /\ sp_nframes (snd r) = sp_nframes S).
Proof.
  intros HS. pose proof HS as (_ & _ & _ & _ & H5 & _).
  pose proof (get_frame_ok S fi H5) as HF.
  unfold ASE_Cel_read, ASE_DOC_AddCel. wp; try (split; [exact HS | reflexivity]);
    try (apply post_any; intros; apply post_ret);
    apply set_frame_wf; try exact HS;
    unfold frame_ok, set_last_cel in *; cbn [fr_cel_array fr_ncels];
    rewrite length_insert, length_app; cbn [length];
    apply Z.eqb_eq in HF; apply Z.eqb_eq; lia.
Qed.

Lemma set_palette_wf (S : ASE_Sprite) (p : ASE_Palette) :
  sprite_wf S -> sprite_wf (set_palette S p) /\ sp_nframes (set_palette S p) = sp_nframes S.
Proof. intros HS. split; [exact HS | reflexivity]. Qed.

Lemma dispatch_wf (type fi EndPos : Z) (d : DecState) (m : Mach) :
  sprite_wf (ds_sprite d) ->
  ld_post (ASE__dispatch_chunk type fi EndPos d) m
    (fun d' _ => sprite_wf (ds_sprite d') /\ sp_nframes (ds_sprite d') = sp_nframes (ds_sprite d)).
Proof.
  intros Hd. unfold ASE__dispatch_chunk. wp; try (split; [exact Hd | reflexivity]).
  - apply post_any. intros p m1. apply post_ret. apply set_palette_wf. exact Hd.
  - eapply post_mono; [apply Layer_read_wf; exact Hd |].
    intros [[ok S'] st'] m1 HS. apply post_ret. exact HS.
  - eapply post_mono; [apply Cel_read_wf; exact Hd |].
    intros r m1 HS. apply post_ret. exact HS.
  - eapply post_mono; [apply Tags_read_wf; exact Hd |].
    intros S' m1 HS. apply post_ret. exact HS.
Qed.

Lemma decode_chunks_wf (n : nat) (fi : Z) (d : DecState) (m : Mach) :
  sprite_wf (ds_sprite d) ->
  ld_post (ASE__decode_chunks n fi d) m
    (fun d' _ => sprite_wf (ds_sprite d') /\ sp_nframes (ds_sprite d') = sp_nframes (ds_sprite d)).
Proof.
  revert d m. induction n as [| n IH]; intros d m Hd.
  - apply post_ret. split; [exact Hd | reflexivity].
  - cbn [ASE__decode_chunks]. unfold ASE__decode_chunk. wp.
    eapply post_mono; [apply dispatch_wf; exact Hd |].
    intros d1 m1 [H1 E1]. wp. eapply post_mono; [apply IH; exact H1 |].
    intros d2 m2 [H2 E2]. split; [exact H2 | congruence].
Qed.

Lemma decode_frames_wf (ndebug : bool) (n : nat) (d : DecState) (m : Mach) :
  sprite_wf (ds_sprite d) ->
  ld_post (ASE__decode_frames ndebug n d) m
    (fun d' _ => sprite_wf (ds_sprite d') /\
                 sp_nframes (ds_sprite d') = sp_nframes (ds_sprite d) + Z.of_nat n).
Proof.
  revert d m. induction n as [| n IH]; intros d m Hd.
  - apply post_ret. split; [exact Hd | lia].
  - cbn [ASE__decode_frames]. unfold ASE__decode_frame, ASE_DOC_AddFrame. wp.
    match goal with |- ld_post (ASE__decode_chunks _ _ ?d0) _ _ =>
      assert (H0 : sprite_wf (ds_sprite d0) /\
                   sp_nframes (ds_sprite d0) = sp_nframes (ds_sprite d) + 1) end.
    { destruct Hd as (H1 & H2 & H3 & H4 & H5 & H6).
      cbn [ds_sprite]. unfold set_frame, set_frames, sprite_wf.
      cbn [sp_layer_array sp_nlayers sp_frame_array sp_nframes sp_tag_array sp_ntags].
      rewrite length_insert, length_app. cbn [length].
      repeat split; try assumption; try lia.
      apply Forall_insert; [apply Forall_app; split; [assumption | repeat constructor] |].
      unfold frame_ok. cbn [fr_cel_array fr_ncels].
      apply get_frame_ok. cbn [sp_frame_array].
      apply Forall_app; split; [assumption | repeat constructor]. }
    destruct H0 as [H0 E0].
    eapply post_mono; [apply decode_chunks_wf; exact H0 |].
    intros d1 m1 [H1 E1]. wp. eapply post_mono; [apply IH; exact H1 |].
    intros d2 m2 [H2 E2]. split; [exact H2 | lia].
Qed.

Lemma Header_read_frames (buf : list Z) heap next :
  exists ok H m',
    ASE_DOC_Header_read (at_off buf 0 heap next) = Ret ((ok, H), m') /\
    h_frames H = doc_u16 buf 6.
Proof.
  unfold ASE_DOC_Header_read, ld_bind, ASE__mem_tell.
  run_reads.
  destruct (_ =? ASE_FILE_MAGIC); cbn [negb].
  - match goal with |- context [if negb ?b then _ else _] => destruct b end; cbn [negb].
    + match goal with |- context [let '(_, _) := ?p in _] => destruct p as [pw ph] end.
      unfold ASE__mem_seek, ld_ret. eexists true, _, _. split; reflexivity.
    + unfold ld_ret. eexists false, _, _. split; reflexivity.
  - unfold ld_ret. eexists false, _, _. split; reflexivity.
Qed.

Lemma decode_main_wf (ndebug : bool) (S : ASE_Sprite) (buf : list Z) heap next :
  sprite_wf S ->
  ld_post (ASE__decode_main ndebug S) (at_off buf 0 heap next)
    (fun r _ => sprite_wf (snd r) /\
       sp_nframes (snd r) = sp_nframes S + Z.of_nat (Z.to_nat (doc_u16 buf 6))).
Proof.
  intros HS. destruct (Header_read_frames buf heap next) as (ok & H & m' & E & HF).
  unfold ASE__decode_main. apply post_bind. unfold ld_post at 1. rewrite E.
  wp. eapply post_mono; [apply decode_frames_wf; exact HS |].
  intros d m1 [H1 E1]. apply post_ret. split; [exact H1 |]. cbn in E1 |- *. rewrite <- HF. exact E1.
Qed.

Lemma sprite_zero_wf : sprite_wf ASE_Sprite_zero.
Proof. repeat split; constructor. Qed.

(** X6. Loading from memory into a well-formed sprite gives a well-formed
    sprite: the layer, frame and tag counts match their arrays, every layer
    is an Image or Group layer with visibility 0 or 1, every frame's cel
    count matches its cel array and every tag has a known loop direction;
    and the sprite gains exactly the number of frames the header announces. *)
Theorem load_from_memory_wf (ndebug : bool) (buf : list Z) (out : ASE_Sprite)
    (heap : gmap Z (list Z)) (next : Z) :
  sprite_wf out ->
  match ASE_load_from_memory ndebug buf out heap next with
  | Ret (_, Sp, _) =>
      sprite_wf Sp /\ sp_nframes Sp = sp_nframes out + Z.of_nat (Z.to_nat (doc_u16 buf 6))
  | _ => True
  end.
Proof.
  intros Hout. pose proof (decode_main_wf ndebug out buf heap next Hout) as H.
  unfold ld_post in H. rewrite <- at_off_0 in H. unfold ASE_load_from_memory.
  destruct (ASE__decode_main ndebug out (mkMach buf 0 heap next)) as [[[r Sp] m']| |];
    [exact H | exact I | exact I].
Qed.

Lemma load_from_memory_wf_witness :
  match ASE_load_from_memory false doc_depths_01120 ASE_Sprite_zero ∅ 1 with
  | Ret (_, Sp, _) =>
      sprite_wf Sp /\ sp_nframes Sp = sp_nframes ASE_Sprite_zero + Z.of_nat (Z.to_nat (doc_u16 doc_depths_01120 6))
  | _ => True
  end.
Proof. apply (load_from_memory_wf false doc_depths_01120 ASE_Sprite_zero ∅ 1). repeat split; constructor. Defined.

Lemma post_conj {A} (c : LD A) m (P Q : A -> Mach -> Prop) :
  ld_post c m P -> ld_post c m Q -> ld_post c m (fun a m' => P a m' /\ Q a m').
Proof. unfold ld_post. destruct (c m) as [[a m']| |]; auto. Qed.

Lemma cel_ok_extend (S S' : ASE_Sprite) (c : ASE_Cel) :
  sp_nlayers S <= sp_nlayers S' ->
  (forall j, 0 <= j < sp_nlayers S ->
     nth (Z.to_nat j) (sp_layer_array S') ASE_Layer_zero =
     nth (Z.to_nat j) (sp_layer_array S) ASE_Layer_zero) ->
  cel_ok S c = true -> cel_ok S' c = true.
Proof.
  unfold cel_ok. intros Hn Hj Hc.
  apply andb_true_iff in Hc as [Hc H3]. apply andb_true_iff in Hc as [H1 H2].
  apply Z.leb_le in H1. apply Z.ltb_lt in H2.
  rewrite Hj by lia. rewrite H3, andb_true_r.
  apply andb_true_iff. split; [apply Z.leb_le | apply Z.ltb_lt]; lia.
Qed.

Lemma cels_ok_extend (S S' : ASE_Sprite) :
  sp_frame_array S' = sp_frame_array S ->
  sp_nlayers S <= sp_nlayers S' ->
  (forall j, 0 <= j < sp_nlayers S ->
     nth (Z.to_nat j) (sp_layer_array S') ASE_Layer_zero =
     nth (Z.to_nat j) (sp_layer_array S) ASE_Layer_zero) ->
  cels_ok S -> cels_ok S'.
Proof.
  intros Hf Hn Hj H. unfold cels_ok in *. rewrite Hf.
  eapply Forall_impl; [exact H |]. intros F HF.
  eapply Forall_impl; [exact HF |]. intros c Hc. eapply cel_ok_extend; eassumption.
Qed.

Lemma Layer_read_cels (S : ASE_Sprite) (st : LayerState) (m : Mach) :
  sprite_wf S -> cels_ok S ->
  ld_post (ASE_Layer_read S st) m (fun r _ => cels_ok (snd (fst r))).
Proof.
  intros (H1 & _) HC.
  unfold ASE_Layer_read, ASE_DOC_AddLayer. wp.
  - match goal with |- ld_post (let '(_, _) := ?p in _) _ _ => destruct p as [S2 st'] eqn:E end.
    apply post_ret. unfold ASE_Layer_decode in E. injection E as <- _. cbn.
    apply (cels_ok_extend S); [reflexivity | cbn; lia | | exact HC].
    intros j Hj. unfold set_layers. cbn [sp_layer_array sp_nlayers].
    rewrite !nth_lookup. f_equal.
    rewrite list_lookup_insert_ne by lia. apply lookup_app_l. lia.
  - exact HC.
Qed.

Lemma Tags_loop_cels (n : nat) (S : ASE_Sprite) (m : Mach) :
  cels_ok S -> ld_post (ASE_Tags_loop n S) m (fun S' _ => cels_ok S').
Proof.
  revert S m. induction n as [| n IH]; intros S m HS.
  - apply post_ret. exact HS.
  - cbn [ASE_Tags_loop]. unfold ASE_DOC_AddTag. wp. apply IH. exact HS.
Qed.

Lemma read_raw_image_layer (bpp : Z) (c : ASE_Cel) (m : Mach) :
  ld_post (ASE_DOC_read_raw_image bpp c) m (fun c' _ => cel_layer c' = cel_layer c).
Proof. unfold ASE_DOC_read_raw_image. wp. reflexivity. Qed.

Lemma read_compressed_layer (bpp : Z) (c : ASE_Cel) (EndPos : Z) (m : Mach) :
  ld_post (ASE_DOC_read_compressed bpp c EndPos) m (fun c' _ => cel_layer c' = cel_layer c).
Proof.
  unfold ASE_DOC_read_compressed. wp.
  apply post_mono with (P := fun c' _ => cel_layer c' = cel_layer c).
  - unfold ld_post.
    destruct (Zlib.stbi_zlib_decode_buffer _ _); [| | exact I];
      unfold ld_bind, heap_write, c_free, ld_ret;
      repeat match goal with |- context [match ?e with _ => _ end] =>
        lazymatch e with
        | _ !! _ => destruct e
        | (_ =? 0) => destruct e
        end end; reflexivity.
  - intros c' mm Hc. wp. exact Hc.
Qed.

Lemma get_frame_cels (S : ASE_Sprite) (fi : Z) :
  cels_ok S -> Forall (fun c => cel_ok S c = true) (fr_cel_array (get_frame S fi)).
Proof.
  intros H. unfold get_frame.
  destruct (decide (Z.to_nat fi < length (sp_frame_array S))%nat) as [Hi | Hi].
  - unfold cels_ok in H. rewrite Forall_forall in H. apply H.
    apply list_elem_of_In, nth_In. exact Hi.
  - rewrite nth_overflow by lia. constructor.
Qed.

Lemma set_frame_cels (S : ASE_Sprite) (fi : Z) (F : ASE_Frame) :
  cels_ok S -> Forall (fun c => cel_ok S c = true) (fr_cel_array F) ->
  cels_ok (set_frame S fi F).
Proof.
  intros H HF. unfold cels_ok, set_frame, set_frames. cbn [sp_frame_array].
  apply Forall_insert; [exact H | exact HF].
Qed.

Lemma add_cel_last (G : ASE_Frame) (d p : Z) (c : ASE_Cel) :
  frame_ok G = true ->
  fr_cel_array (set_last_cel (mkFrame d (fr_ncels G + 1) p (fr_cel_array G ++ [ASE_Cel_zero])) c)
  = fr_cel_array G ++ [c].
Proof.
  intros HG. apply Z.eqb_eq in HG. unfold set_last_cel. cbn [fr_cel_array fr_ncels].
  replace (Z.to_nat (fr_ncels G + 1 - 1)) with (length (fr_cel_array G) + 0)%nat by lia.
  rewrite insert_app_r. reflexivity.
Qed.

Lemma Cel_read_cels (S : ASE_Sprite) (fi EndPos : Z) (m : Mach) :
  sprite_wf S -> cels_ok S ->
  ld_post (ASE_Cel_read S fi EndPos) m (fun r _ => cels_ok (snd r)).
Proof.
  intros HS HC. pose proof HS as (_ & _ & _ & _ & H5 & _).
  pose proof (get_frame_ok S fi H5) as HG.
  pose proof (get_frame_cels S fi HC) as HGc.
  unfold ASE_Cel_read, ASE_DOC_AddCel.
  apply post_bind. apply post_any. intros layer m1.
  (* the new cel lands after the cels of the frame *)
  assert (Hlast : forall d p (c : ASE_Cel),
             (0 <=? layer) && (layer <? sp_nlayers S) = true ->
             (ly_type (nth (Z.to_nat layer) (sp_layer_array S) ASE_Layer_zero)
                =? ASE_FILE_LAYER_IMAGE) = true ->
             cel_layer c = layer ->
             cels_ok (set_frame S fi (set_last_cel
               (mkFrame d (fr_ncels (get_frame S fi) + 1) p
                  (fr_cel_array (get_frame S fi) ++ [ASE_Cel_zero])) c))).
  { intros d p c Hl Ht Hc. apply set_frame_cels; [exact HC |].
    rewrite add_cel_last by exact HG.
    apply Forall_app. split; [exact HGc |]. constructor; [| constructor].
    unfold cel_ok. rewrite Hc, Hl, Ht. reflexivity. }
  wpe; try exact HC;
    repeat match goal with H : negb _ = false |- _ => apply negb_false_iff in H end;
    try (apply Hlast; [assumption | assumption | reflexivity]).
  - eapply post_mono; [apply read_raw_image_layer |].
    intros c mm Hc. apply post_ret. apply Hlast; assumption.
  - eapply post_mono; [apply read_compressed_layer |].
    intros c mm Hc. apply post_ret. apply Hlast; assumption.
Qed.

Lemma dispatch_cels (type fi EndPos : Z) (d : DecState) (m : Mach) :
  sprite_wf (ds_sprite d) -> cels_ok (ds_sprite d) ->
  ld_post (ASE__dispatch_chunk type fi EndPos d) m (fun d' _ => cels_ok (ds_sprite d')).
Proof.
  intros Hw Hd. unfold ASE__dispatch_chunk. wp; try exact Hd.
  - apply post_any. intros p m1. apply post_ret. exact Hd.
  - eapply post_mono; [apply Layer_read_cels; eassumption |].
    intros [[ok S'] st'] m1 HS. apply post_ret. exact HS.
  - eapply post_mono; [apply Cel_read_cels; eassumption |].
    intros r m1 HS. apply post_ret. exact HS.
  - unfold ASE_Tags_read. wp. eapply post_mono; [apply Tags_loop_cels; exact Hd |].
    intros S' m1 HS. apply post_ret. exact HS.
Qed.

Lemma decode_chunks_cels (n : nat) (fi : Z) (d : DecState) (m : Mach) :
  sprite_wf (ds_sprite d) -> cels_ok (ds_sprite d) ->
  ld_post (ASE__decode_chunks n fi d) m
    (fun d' _ => sprite_wf (ds_sprite d') /\ cels_ok (ds_sprite d')).
Proof.
  revert d m. induction n as [| n IH]; intros d m Hw Hd.
  - apply post_ret. split; assumption.
  - cbn [ASE__decode_chunks]. unfold ASE__decode_chunk. wp.
    eapply post_mono; [apply post_conj; [apply dispatch_wf | apply dispatch_cels]; eassumption |].
    intros d1 m1 [[H1 _] H2]. wp. apply IH; assumption.
Qed.

Lemma decode_frames_cels (ndebug : bool) (n : nat) (d : DecState) (m : Mach) :
  sprite_wf (ds_sprite d) -> cels_ok (ds_sprite d) ->
  ld_post (ASE__decode_frames ndebug n d) m (fun d' _ => cels_ok (ds_sprite d')).
Proof.
  revert d m. induction n as [| n IH]; intros d m Hw Hd.
  - apply post_ret. exact Hd.
  - cbn [ASE__decode_frames]. unfold ASE__decode_frame, ASE_DOC_AddFrame. wp.
    match goal with |- ld_post (ASE__decode_chunks _ _ ?d0) _ _ =>
      assert (H0 : sprite_wf (ds_sprite d0) /\ cels_ok (ds_sprite d0)) end.
    { pose proof Hw as (H1 & H2 & H3 & H4 & H5 & H6). split.
      - cbn [ds_sprite]. unfold set_frame, set_frames, sprite_wf.
        cbn [sp_layer_array sp_nlayers sp_frame_array sp_nframes sp_tag_array sp_ntags].
        rewrite length_insert, length_app. cbn [length].
        repeat split; try assumption; try lia.
        apply Forall_insert; [apply Forall_app; split; [assumption | repeat constructor] |].
        unfold frame_ok. cbn [fr_cel_array fr_ncels].
        apply get_frame_ok. cbn [sp_frame_array].
        apply Forall_app; split; [assumption | repeat constructor].
      - cbn [ds_sprite]. unfold set_frame, set_frames, cels_ok.
        cbn [sp_frame_array].
        assert (HA : Forall (fun F => Forall (fun c => cel_ok (ds_sprite d) c = true) (fr_cel_array F))
                       (sp_frame_array (ds_sprite d) ++ [ASE_Frame_zero]))
          by (apply Forall_app; split; [exact Hd | repeat constructor]).
        apply Forall_insert; [exact HA |]. cbn [fr_cel_array].
        unfold get_frame. cbn [sp_frame_array].
        match goal with |- Forall _ (fr_cel_array (nth ?i ?l _)) =>
          destruct (decide (i < length l)%nat) as [Hi | Hi] end.
        + rewrite Forall_forall in HA. apply HA. apply list_elem_of_In, nth_In. exact Hi.
        + rewrite nth_overflow by lia. constructor. }
    destruct H0 as [H0w H0c].
    eapply post_mono; [apply decode_chunks_cels; eassumption |].
    intros d1 m1 [H1 H2]. wp. apply IH; assumption.
Qed.

Lemma decode_main_cels (ndebug : bool) (S : ASE_Sprite) (m : Mach) :
  sprite_wf S -> cels_ok S ->
  ld_post (ASE__decode_main ndebug S) m (fun r _ => cels_ok (snd r)).
Proof.
  intros Hw Hc. unfold ASE__decode_main. wp.
  match goal with |- ld_post (let '(_, _) := ?p in _) _ _ => destruct p end.
  wp. eapply post_mono; [apply decode_frames_cels; [exact Hw | exact Hc] |].
  intros d m1 H1. apply post_ret. exact H1.
Qed.

Lemma check_cel_visible_bit (S : ASE_Sprite) (c : ASE_Cel) :
  sprite_wf S -> cel_ok S c = true ->
  ASE_check_cel_visible S c = 0 \/ ASE_check_cel_visible S c = 1.
Proof.
  intros (H1 & _ & _ & H4 & _) Hc. unfold cel_ok in Hc.
  apply andb_true_iff in Hc as [Hc _]. apply andb_true_iff in Hc as [Ha Hb].
  apply Z.leb_le in Ha. apply Z.ltb_lt in Hb.
  rewrite Forall_forall in H4.
  assert (HL : layer_ok (nth (Z.to_nat (cel_layer c)) (sp_layer_array S) ASE_Layer_zero) = true).
  { apply H4. apply list_elem_of_In, nth_In. lia. }
  unfold layer_ok in HL. apply andb_true_iff in HL as [_ HV].
  unfold ASE_check_cel_visible.
  apply orb_true_iff in HV as [HV | HV]; apply Z.eqb_eq in HV; [left | right]; exact HV.
Qed.

(** X7. After a load, every cel of every frame names an existing layer, that
    layer is an Image layer, and [ASE_check_cel_visible] on the cel returns
    0 or 1. *)
Theorem load_cels_on_image_layers (ndebug : bool) (buf : list Z) (out : ASE_Sprite)
    (heap : gmap Z (list Z)) (next : Z) :
  sprite_wf out -> cels_ok out ->
  match ASE_load_from_memory ndebug buf out heap next with
  | Ret (_, Sp, _) =>
      forall F c, F ∈ sp_frame_array Sp -> c ∈ fr_cel_array F ->
        0 <= cel_layer c < sp_nlayers Sp /\
        ly_type (nth (Z.to_nat (cel_layer c)) (sp_layer_array Sp) ASE_Layer_zero)
          = ASE_FILE_LAYER_IMAGE /\
        (ASE_check_cel_visible Sp c = 0 \/ ASE_check_cel_visible Sp c = 1)
  | _ => True
  end.
Proof.
  intros Hw Hc.
  pose proof (post_conj _ _ _ _ (decode_main_cels ndebug out (at_off buf 0 heap next) Hw Hc)
                (decode_main_wf ndebug out buf heap next Hw)) as H.
  unfold ld_post in H. rewrite <- at_off_0 in H. unfold ASE_load_from_memory.
  destruct (ASE__decode_main ndebug out (mkMach buf 0 heap next)) as [[[r Sp] m']| |];
    [| exact I | exact I].
  destruct H as [HC [HW _]]. cbn [snd] in HC, HW.
  intros F c HF Hcel.
  unfold cels_ok in HC. rewrite Forall_forall in HC. specialize (HC F HF).
  rewrite Forall_forall in HC. specialize (HC c Hcel) as Hok.
  pose proof (check_cel_visible_bit Sp c HW Hok) as Hv.
  unfold cel_ok in Hok.
  apply andb_true_iff in Hok as [Hok Ht]. apply andb_true_iff in Hok as [Ha Hb].
  apply Z.leb_le in Ha. apply Z.ltb_lt in Hb. apply Z.eqb_eq in Ht.
  split; [lia | split; [exact Ht | exact Hv]].
Qed.

Lemma load_cels_on_image_layers_witness :
  match ASE_load_from_memory false doc_depths_01120 ASE_Sprite_zero ∅ 1 with
  | Ret (_, Sp, _) =>
      forall F c, F ∈ sp_frame_array Sp -> c ∈ fr_cel_array F ->
        0 <= cel_layer c < sp_nlayers Sp /\
        ly_type (nth (Z.to_nat (cel_layer c)) (sp_layer_array Sp) ASE_Layer_zero)
          = ASE_FILE_LAYER_IMAGE /\
        (ASE_check_cel_visible Sp c = 0 \/ ASE_check_cel_visible Sp c = 1)
  | _ => True
  end.
Proof.
  apply (load_cels_on_image_layers false doc_depths_01120 ASE_Sprite_zero ∅ 1).
  - repeat split; constructor.
  - constructor.
Defined.

Lemma streq_c_string (a b : list Z) :
  ASE_streq a b = if decide (c_string a = c_string b) then 1 else 0.
Proof.
  revert b. induction a as [| x a IH]; intros b.
  - destruct b as [| y b]; cbn [ASE_streq hd c_string]; unfold ASE_streq_end;
      rewrite ?Z.eqb_refl; cbn [negb andb]; [reflexivity |].
    cbn [c_string]. destruct (y =? 0) eqn:Ey; cbn [negb andb]; [reflexivity |].
    destruct (decide _); [discriminate | reflexivity].
  - destruct b as [| y b]; cbn [ASE_streq hd tl c_string]; unfold ASE_streq_end;
      rewrite ?Z.eqb_refl; cbn [c_string negb andb].
    + destruct (x =? 0) eqn:Ex; cbn [negb andb]; [reflexivity |].
      destruct (decide _); [discriminate | reflexivity].
    + destruct (x =? 0) eqn:Ex, (y =? 0) eqn:Ey; cbn [negb andb].
      * reflexivity.
      * destruct (decide _); [discriminate | reflexivity].
      * destruct (decide _); [discriminate | reflexivity].
      * rewrite IH. destruct (x =? y) eqn:Exy; cbn [negb].
        -- apply Z.eqb_eq in Exy. subst y.
           destruct (decide (c_string a = c_string b)) as [E | E];
           destruct (decide (x :: c_string a = x :: c_string b)) as [E' | E'];
           congruence.
        -- apply Z.eqb_neq in Exy.
           destruct (decide (x :: c_string a = y :: c_string b)) as [E' | E'];
           congruence.
Qed.

Lemma find_first_spec (p : Z -> bool) (i : Z) (k : nat) :
  match find_first p i k with
  | Some r => i <= r < i + Z.of_nat k /\ p r = true /\ (forall j, i <= j < r -> p j = false)
  | None => forall j, i <= j < i + Z.of_nat k -> p j = false
  end.
Proof.
  revert i. induction k as [| k IH]; intros i; cbn [find_first].
  - intros j Hj. lia.
  - destruct (p i) eqn:Ep.
    + split; [lia | split; [exact Ep | intros j Hj; lia]].
    + specialize (IH (i + 1)). destruct (find_first p (i + 1) k) as [r |].
      * destruct IH as (Hr & Hp & Hb). split; [lia | split; [exact Hp |]].
        intros j Hj. destruct (decide (j = i)) as [-> | Hne]; [exact Ep | apply Hb; lia].
      * intros j Hj. destruct (decide (j = i)) as [-> | Hne]; [exact Ep | apply IH; lia].
Qed.

Lemma streq_true (a b : list Z) :
  negb (ASE_streq a b =? 0) = true <-> c_string a = c_string b.
Proof.
  rewrite streq_c_string. destruct (decide _); cbn; split; congruence.
Qed.

Lemma streq_false (a b : list Z) :
  negb (ASE_streq a b =? 0) = false <-> c_string a <> c_string b.
Proof.
  rewrite streq_c_string. destruct (decide _); cbn; split; congruence.
Qed.

(** X8. [ASE_streq a b] returns 1 exactly when the C strings at [a] and
    [b] (the bytes before the first NUL) are equal, and 0 otherwise. *)
Theorem streq_spec (a b : list Z) :
  (ASE_streq a b = 1 <-> c_string a = c_string b) /\
  (ASE_streq a b = 0 <-> c_string a <> c_string b).
Proof.
  rewrite streq_c_string. destruct (decide _); split; split; congruence.
Qed.

(** X9. [ASE_get_layer_by_name] and [ASE_get_tag_by_name] return the first
    layer (tag) whose name is the same C string as [name], and return
    nothing exactly when no layer (tag) has that name. *)
Theorem get_by_name_first_match (heap : gmap Z (list Z)) (S : ASE_Sprite) (name : list Z) :
  match ASE_get_layer_by_name heap S name with
  | Some i => 0 <= i < sp_nlayers S /\ c_string (layer_name_at heap S i) = c_string name /\
              forall j, 0 <= j < i -> c_string (layer_name_at heap S j) <> c_string name
  | None => forall j, 0 <= j < sp_nlayers S -> c_string (layer_name_at heap S j) <> c_string name
  end /\
  match ASE_get_tag_by_name heap S name with
  | Some i => 0 <= i < sp_ntags S /\ c_string (tag_name_at heap S i) = c_string name /\
              forall j, 0 <= j < i -> c_string (tag_name_at heap S j) <> c_string name
  | None => forall j, 0 <= j < sp_ntags S -> c_string (tag_name_at heap S j) <> c_string name
  end.
Proof.
  split.
  - unfold ASE_get_layer_by_name.
    match goal with |- context [find_first ?p ?i ?k] =>
      pose proof (find_first_spec p i k) as H; destruct (find_first p i k) as [r |] end.
    + destruct H as (Hr & Hp & Hb). apply streq_true in Hp.
      split; [lia | split; [congruence |]].
      intros j Hj. specialize (Hb j Hj). apply streq_false in Hb. congruence.
    + intros j Hj. assert (0 <= j < 0 + Z.of_nat (Z.to_nat (sp_nlayers S))) by lia.
      specialize (H j ltac:(assumption)). apply streq_false in H. congruence.
  - unfold ASE_get_tag_by_name.
    match goal with |- context [find_first ?p ?i ?k] =>
      pose proof (find_first_spec p i k) as H; destruct (find_first p i k) as [r |] end.
    + destruct H as (Hr & Hp & Hb). apply streq_true in Hp.
      split; [lia | split; [congruence |]].
      intros j Hj. specialize (Hb j Hj). apply streq_false in Hb. congruence.
    + intros j Hj. assert (0 <= j < 0 + Z.of_nat (Z.to_nat (sp_ntags S))) by lia.
      specialize (H j ltac:(assumption)). apply streq_false in H. congruence.
Qed.

(** X10. On a well-formed sprite, for a cel whose frame index is in range,
    [ASE_get_linked_cel] returns the first cel of the frame [cel->frame] that
    is on the same layer as [cel], and nothing when that frame has no cel on
    that layer. *)
Theorem get_linked_cel_first_match (S : ASE_Sprite) (c : ASE_Cel) :
  sprite_wf S -> 0 <= cel_frame c < sp_nframes S ->
  exists lf, sp_frame_array S !! Z.to_nat (cel_frame c) = Some lf /\
  match ASE_get_linked_cel S c with
  | Some ic => 0 <= ic /\
      (exists c2, fr_cel_array lf !! Z.to_nat ic = Some c2 /\ cel_layer c2 = cel_layer c) /\
      (forall j c3, (j < Z.to_nat ic)%nat -> fr_cel_array lf !! j = Some c3 ->
                    cel_layer c3 <> cel_layer c)
  | None => Forall (fun c3 => cel_layer c3 <> cel_layer c) (fr_cel_array lf)
  end.
Proof.
  intros (_ & HF & _ & _ & Hok & _) Hc.
  destruct (lookup_lt_is_Some_2 (sp_frame_array S) (Z.to_nat (cel_frame c))) as [lf Hlf];
    [lia |].
  exists lf. split; [exact Hlf |].
  assert (Hg : get_frame S (cel_frame c) = lf).
  { unfold get_frame. apply nth_lookup_Some with (d := ASE_Frame_zero) in Hlf. exact Hlf. }
  assert (Hn : Z.of_nat (length (fr_cel_array lf)) = fr_ncels lf).
  { rewrite Forall_lookup in Hok. specialize (Hok _ _ Hlf). unfold frame_ok in Hok.
    apply Z.eqb_eq. exact Hok. }
  unfold ASE_get_linked_cel. rewrite Hg.
  match goal with |- context [find_first ?p ?i ?k] =>
    pose proof (find_first_spec p i k) as H; destruct (find_first p i k) as [r |] end.
  - destruct H as (Hr & Hp & Hb). apply Z.eqb_eq in Hp.
    split; [lia | split].
    + exists (nth (Z.to_nat r) (fr_cel_array lf) ASE_Cel_zero). split; [| exact Hp].
      destruct (nth_lookup_or_length (fr_cel_array lf) (Z.to_nat r) ASE_Cel_zero);
        [assumption | lia].
    + intros j c3 Hj Hl. apply (nth_lookup_Some _ _ ASE_Cel_zero) in Hl.
      specialize (Hb (Z.of_nat j) ltac:(lia)). rewrite Nat2Z.id, Hl in Hb.
      apply Z.eqb_neq in Hb. exact Hb.
  - apply Forall_lookup_2. intros j c3 Hl.
    pose proof (lookup_lt_Some _ _ _ Hl) as Hj.
    apply (nth_lookup_Some _ _ ASE_Cel_zero) in Hl.
    specialize (H (Z.of_nat j) ltac:(lia)). cbv beta in H. rewrite Nat2Z.id, Hl in H.
    apply Z.eqb_neq in H. exact H.
Qed.

Lemma get_linked_cel_first_match_witness :
  exists lf, sp_frame_array sprite_two_cels !! Z.to_nat (cel_frame linked_cel_frame0) = Some lf /\
  match ASE_get_linked_cel sprite_two_cels linked_cel_frame0 with
  | Some ic => 0 <= ic /\
      (exists c2, fr_cel_array lf !! Z.to_nat ic = Some c2 /\
                  cel_layer c2 = cel_layer linked_cel_frame0) /\
      (forall j c3, (j < Z.to_nat ic)%nat -> fr_cel_array lf !! j = Some c3 ->
                    cel_layer c3 <> cel_layer linked_cel_frame0)
  | None => Forall (fun c3 => cel_layer c3 <> cel_layer linked_cel_frame0) (fr_cel_array lf)
  end.
Proof.
  apply (get_linked_cel_first_match sprite_two_cels linked_cel_frame0).
  - repeat split; repeat constructor.
  - vm_compute. split; [discriminate | reflexivity].
Defined.

Lemma next_frame_forward_step (tag : ASE_Tag) (f : Z) :
  tag_dir tag = ASE_LOOP_FORWARD -> tag_from tag <= f <= tag_to tag ->
  ASE_get_next_frame tag f =
    tag_from tag + (f - tag_from tag + 1) mod (tag_to tag - tag_from tag + 1).
Proof.
  intros Hd Hf. unfold ASE_get_next_frame. rewrite Hd, Z.eqb_refl.
  destruct (f + 1 >? tag_to tag) eqn:E.
  - apply Z.gtb_lt in E.
    replace (f - tag_from tag + 1) with (tag_to tag - tag_from tag + 1) by lia.
    rewrite Z.mod_same by lia. lia.
  - rewrite Z.gtb_ltb in E. apply Z.ltb_ge in E.
    rewrite Z.mod_small by lia. lia.
Qed.

Lemma next_frame_reverse_step (tag : ASE_Tag) (f : Z) :
  tag_dir tag = ASE_LOOP_REVERSE -> tag_from tag <= f <= tag_to tag ->
  ASE_get_next_frame tag f =
    tag_from tag + (f - tag_from tag - 1) mod (tag_to tag - tag_from tag + 1).
Proof.
  intros Hd Hf. unfold ASE_get_next_frame. rewrite Hd.
  change (ASE_LOOP_REVERSE =? ASE_LOOP_FORWARD) with false. rewrite Z.eqb_refl.
  destruct (f - 1 <? tag_from tag) eqn:E.
  - apply Z.ltb_lt in E.
    replace (f - tag_from tag - 1) with (-1) by lia.
    replace ((-1) mod (tag_to tag - tag_from tag + 1)) with (tag_to tag - tag_from tag).
    + lia.
    + apply Z.mod_unique with (q := -1); lia.
  - apply Z.ltb_ge in E. rewrite Z.mod_small by lia. lia.
Qed.

(** X11. Starting from a frame inside a Forward (Reverse) tag, [k] calls
    of [ASE_get_next_frame] advance (step back) [k] frames cyclically within
    [from..to]. *)
Theorem next_frame_cycles (tag : ASE_Tag) (f : Z) (k : nat) :
  tag_from tag <= f <= tag_to tag ->
  (tag_dir tag = ASE_LOOP_FORWARD ->
     next_frame_iter tag k f =
       tag_from tag + (f - tag_from tag + Z.of_nat k) mod (tag_to tag - tag_from tag + 1)) /\
  (tag_dir tag = ASE_LOOP_REVERSE ->
     next_frame_iter tag k f =
       tag_from tag + (f - tag_from tag - Z.of_nat k) mod (tag_to tag - tag_from tag + 1)).
Proof.
  intros Hf. set (n := tag_to tag - tag_from tag + 1).
  split; intros Hd; revert f Hf; induction k as [| k IH]; intros f Hf;
    cbn [next_frame_iter].
  - rewrite Z.mod_small by lia. lia.
  - rewrite (next_frame_forward_step tag f Hd Hf). fold n.
    assert (Hn : 0 < n) by lia.
    pose proof (Z.mod_pos_bound (f - tag_from tag + 1) n Hn).
    rewrite IH by lia.
    f_equal. rewrite Nat2Z.inj_succ.
    replace (tag_from tag + (f - tag_from tag + 1) mod n - tag_from tag)
      with ((f - tag_from tag + 1) mod n) by lia.
    rewrite Zplus_mod_idemp_l. f_equal. lia.
  - rewrite Z.mod_small by lia. lia.
  - rewrite (next_frame_reverse_step tag f Hd Hf). fold n.
    assert (Hn : 0 < n) by lia.
    pose proof (Z.mod_pos_bound (f - tag_from tag - 1) n Hn).
    rewrite IH by lia.
    f_equal. rewrite Nat2Z.inj_succ.
    replace (tag_from tag + (f - tag_from tag - 1) mod n - tag_from tag)
      with ((f - tag_from tag - 1) mod n) by lia.
    rewrite Zminus_mod_idemp_l. f_equal. lia.
Qed.

Lemma next_frame_cycles_witness :
  (tag_dir (mkTag 2 5 ASE_LOOP_FORWARD 0) = ASE_LOOP_FORWARD ->
   next_frame_iter (mkTag 2 5 ASE_LOOP_FORWARD 0) 6 3 = 2 + (3 - 2 + Z.of_nat 6) mod (5 - 2 + 1)) /\
  (tag_dir (mkTag 2 5 ASE_LOOP_FORWARD 0) = ASE_LOOP_REVERSE ->
   next_frame_iter (mkTag 2 5 ASE_LOOP_FORWARD 0) 6 3 = 2 + (3 - 2 - Z.of_nat 6) mod (5 - 2 + 1)).
Proof. apply (next_frame_cycles (mkTag 2 5 ASE_LOOP_FORWARD 0) 3 6). cbn. lia. Defined.

Lemma read_string_at (buf : list Z) (off : Z) heap next :
  0 <= off ->
  let n := Z.to_nat (doc_u16 buf off) in
  ASE_DOC_read_string (at_off buf off heap next) =
  Ret (next, at_off buf (off + 2 + Z.of_nat n)
                    (<[next := doc_bytes buf (off + 2) n ++ [0]]> heap) (next + 1)).
Proof.
  intros Hoff n. unfold ASE_DOC_read_string, ld_bind at 1. rewrite read16_off by lia.
  unfold ld_bind at 1, c_malloc, at_off. cbn [m_buf m_pos m_heap m_next].
  fold (at_off buf (off + 2) (<[next:=repeat 0 (Z.to_nat (doc_u16 buf off + 1))]> heap) (next + 1)).
  unfold ld_bind at 1. rewrite read_bytes_off by lia. fold n.
  unfold ld_bind, heap_write, at_off. cbn [m_buf m_pos m_heap m_next].
  rewrite lookup_insert_eq. change (Z.to_nat 0) with 0%nat. cbn [take app].
  (* the block of Length + 1 zeros is overwritten completely *)
  assert (E : drop (0 + length (doc_bytes buf (off + 2) n ++ [0]))
                   (repeat 0 (Z.to_nat (doc_u16 buf off + 1))) = []).
  { apply drop_ge. rewrite length_app, repeat_length. unfold doc_bytes.
    rewrite length_map, length_seq. cbn [length]. unfold n. lia. }
  rewrite E, app_nil_r, insert_insert_eq. unfold ld_ret. reflexivity.
Qed.

(** X12. [ASE_DOC_read_string] reads a 16-bit length [n], allocates a
    fresh block of [n+1] bytes, fills it with the next [n] bytes and a NUL,
    returns the block and leaves the reader just after the string. *)
Theorem read_string_allocates (buf : list Z) (off : Z) heap next :
  0 <= off ->
  let n := Z.to_nat (doc_u16 buf off) in
  ASE_DOC_read_string (at_off buf off heap next) =
  Ret (next, at_off buf (off + 2 + Z.of_nat n)
                    (<[next := doc_bytes buf (off + 2) n ++ [0]]> heap) (next + 1)).
Proof. intros Hoff. exact (read_string_at buf off heap next Hoff). Qed.

Lemma read_string_allocates_witness :
  ASE_DOC_read_string (at_off [2; 0; 65; 66; 7] 0 ∅ 1) =
  Ret (1, at_off [2; 0; 65; 66; 7] 4 (<[1 := [65; 66; 0]]> ∅) 2).
Proof. apply (read_string_allocates [2; 0; 65; 66; 7] 0 ∅ 1). lia. Defined.

(** X13. A layer chunk whose type is neither Image nor Group makes
    [ASE_Layer_read] fail and leave the sprite and the layer state as they
    were; the name it read is freed, so the heap is unchanged. *)
Lemma Layer_read_unknown_type (S : ASE_Sprite) (st : LayerState) (buf : list Z) (off : Z)
    heap (next : Z) :
  0 <= off -> next <> 0 -> heap !! next = None ->
  doc_u16 buf (off + 2) <> ASE_FILE_LAYER_IMAGE ->
  doc_u16 buf (off + 2) <> ASE_FILE_LAYER_GROUP ->
  exists m', ASE_Layer_read S st (at_off buf off heap next) = Ret ((false, S, st), m') /\
             m_heap m' = heap /\ m_next m' = next + 1.
Proof.
  intros Hoff Hn Hfresh Hi Hg. unfold ASE_Layer_read, ld_bind.
  rewrite read16_off by lia. rewrite read16_off by lia. rewrite read16_off by lia.
  rewrite read16_off by lia. rewrite read16_off by lia. rewrite read16_off by lia.
  rewrite read8_off by lia. rewrite skip_off by lia. rewrite read_string_at by lia.
  apply Z.eqb_neq in Hi, Hg. rewrite Hi, Hg. cbn [orb].
  unfold c_free, at_off. cbn [m_buf m_pos m_heap m_next].
  apply Z.eqb_neq in Hn. rewrite Hn.
  eexists. split; [reflexivity |]. cbn [m_heap m_next].
  split; [rewrite delete_insert_eq; apply delete_id; exact Hfresh | reflexivity].
Qed.

Lemma Layer_read_unknown_type_witness :
  exists m', ASE_Layer_read ASE_Sprite_zero (mkLayerState 0 0)
               (at_off (repeat 0 2 ++ [5] ++ repeat 0 15) 0 ∅ 1) =
             Ret ((false, ASE_Sprite_zero, (mkLayerState 0 0)), m') /\
             m_heap m' = ∅ /\ m_next m' = 1 + 1.
Proof.
  apply (Layer_read_unknown_type ASE_Sprite_zero (mkLayerState 0 0)
           (repeat 0 2 ++ [5] ++ repeat 0 15) 0 ∅ 1);
    [lia | lia | reflexivity | vm_compute; discriminate | vm_compute; discriminate].
Defined.

(** X14. A cel chunk whose layer index is out of range, or names a layer
    that is not an Image layer, makes [ASE_Cel_read] fail after reading its
    16-byte header, with the sprite and the heap unchanged. *)
Lemma Cel_read_ignored (S : ASE_Sprite) (fi EndPos : Z) (buf : list Z) (off : Z) heap next :
  0 <= off ->
  let layer := doc_u16 buf off in
  ~ (0 <= layer < sp_nlayers S) \/
  ly_type (nth (Z.to_nat layer) (sp_layer_array S) ASE_Layer_zero) <> ASE_FILE_LAYER_IMAGE ->
  ASE_Cel_read S fi EndPos (at_off buf off heap next) =
  Ret ((false, S), at_off buf (off + 16) heap next).
Proof.
  intros Hoff layer Hbad. unfold ASE_Cel_read, ld_bind.
  rewrite read16_off by lia. rewrite read16_off by lia. rewrite read16_off by lia.
  rewrite read8_off by lia. rewrite read16_off by lia. rewrite skip_off by lia.
  fold layer.
  replace (off + 2 + 2 + 2 + 1 + 2 + 7) with (off + 16) by lia.
  destruct ((0 <=? layer) && (layer <? sp_nlayers S)) eqn:E; cbn [negb].
  - apply andb_true_iff in E as [E1 E2]. apply Z.leb_le in E1. apply Z.ltb_lt in E2.
    destruct Hbad as [Hb | Hb]; [lia |].
    apply Z.eqb_neq in Hb. rewrite Hb. reflexivity.
  - reflexivity.
Qed.

Lemma Cel_read_ignored_witness :
  ASE_Cel_read ASE_Sprite_zero 0 16 (at_off (repeat 0 16) 0 ∅ 1) =
  Ret ((false, ASE_Sprite_zero), at_off (repeat 0 16) (0 + 16) ∅ 1).
Proof.
  apply (Cel_read_ignored ASE_Sprite_zero 0 16 (repeat 0 16) 0 ∅ 1); [lia |].
  left. intros [_ H]. vm_compute in H. discriminate H.
Defined.

End SpriteFacts.

(** * Parents of nested layers *)

Lemma doc_u16_nonzero (buf : list Z) (off : Z) :
  doc_u16 buf off <> 0 -> off + 2 <= buf_len buf.
Proof. unfold doc_u16. destruct (Z.leb_spec (off + 2) (buf_len buf)); [lia | congruence]. Qed.

Lemma layer_chunk_step (fi : Z) (d : DecState) (buf : list Z) (off dep : Z) heap next :
  0 <= off -> layer_chunk_at buf off dep = true ->
  sp_nlayers (ds_sprite d) = Z.of_nat (length (sp_layer_array (ds_sprite d))) ->
  exists S' L heap' next',
    ASE__decode_chunk fi d (at_off buf off heap next) =
      Ret (mkDecState S' (mkLayerState (sp_nlayers (ds_sprite d)) dep) (ds_ignore_old d),
           mkMach buf (to_int32 (off + doc_u32 buf off)) heap' next') /\
    sp_nlayers S' = sp_nlayers (ds_sprite d) + 1 /\
    sp_layer_array S' = sp_layer_array (ds_sprite d) ++ [L] /\
    ly_child_level L = dep /\
    ly_parent L = ASE_Layer_parent (sp_layer_array (ds_sprite d) ++ [ASE_Layer_zero])
                    (sp_nlayers (ds_sprite d) + 1) (ds_layers d) dep.
Proof.
  intros Hoff Hc Hn.
  destruct d as [S st ig]; cbn [ds_sprite ds_layers ds_ignore_old] in *.
  unfold layer_chunk_at in Hc. rewrite !andb_true_iff in Hc.
  destruct Hc as [[Ht Hty] Hd]. apply Z.eqb_eq in Ht, Hd.
  assert (Hlen : off + 4 + 2 <= buf_len buf).
  { apply doc_u16_nonzero. rewrite Ht. discriminate. }
  unfold ASE__decode_chunk, ASE_DOC_ChunkHeader_read, ld_bind.
  rewrite tell_off. rewrite (Z.min_l off (buf_len buf)) by lia.
  rewrite tell_off. rewrite (Z.min_l off (buf_len buf)) by lia.
  rewrite read32_off by lia. rewrite read16_off by lia. cbv beta iota.
  unfold ld_ret at 1. cbv beta iota.
  unfold ASE__dispatch_chunk. cbn [ch_type ch_size ds_sprite ds_layers ds_ignore_old].
  rewrite Ht.
  unfold ASE_FILE_CHUNK_CEL, ASE_FILE_CHUNK_FLI_COLOR, ASE_FILE_CHUNK_FLI_COLOR2,
    ASE_FILE_CHUNK_PALETTE, ASE_FILE_CHUNK_LAYER, ASE_FILE_CHUNK_FRAME_TAGS.
  z_tests.
  unfold ASE_Layer_read, ld_bind.
  repeat (rewrite read16_off by lia). rewrite read8_off by lia. rewrite skip_off by lia.
  rewrite SpriteFacts.read_string_at by lia. cbv beta iota zeta.
  repeat rewrite <- Z.add_assoc. z_lits.
  rewrite Hty.
  unfold ASE_DOC_AddLayer, ld_bind. rewrite realloc_off. cbv beta iota zeta.
  unfold ASE_Layer_decode, set_layers, ld_ret, ASE__mem_seek.
  cbn [sp_nlayers sp_layer_array lh_type lh_flags lh_child_level lh_name lh_blendmode
       lh_opacity m_buf m_heap m_next at_off].
  rewrite Hd. replace (sp_nlayers S + 1 - 1) with (sp_nlayers S) by lia.
  do 4 eexists. split; [reflexivity |].
  cbn [sp_nlayers sp_layer_array ly_child_level ly_parent].
  replace (Z.to_nat (sp_nlayers S)) with (length (sp_layer_array S) + 0)%nat by lia.
  rewrite insert_app_r. cbn [insert list_insert].
  split; [reflexivity | split; [reflexivity | split; reflexivity]].
Qed.

Lemma layer_chunk_in_buf (buf : list Z) (off dep : Z) :
  layer_chunk_at buf off dep = true -> off + 6 <= buf_len buf.
Proof.
  unfold layer_chunk_at. rewrite !andb_true_iff. intros [[Ht _] _].
  apply Z.eqb_eq in Ht. assert (off + 4 + 2 <= buf_len buf) by
    (apply doc_u16_nonzero; rewrite Ht; discriminate). lia.
Qed.

Lemma mkMach_at_off (buf : list Z) (o : Z) heap next :
  o <= buf_len buf -> mkMach buf o heap next = at_off buf o heap next.
Proof. intros H. unfold at_off. rewrite Z.min_l by lia. reflexivity. Qed.

Ltac lp_eval := cbv [Z.eqb Z.gtb Z.compare Pos.compare Pos.compare_cont Pos.eqb negb orb andb].

(** C6 (amended). Five consecutive layer chunks of Image or Group layers
    with depths 0, 1, 1, 2, 0, read by the chunk loop into a sprite whose
    layer count matches its array, append five layers whose parents are
    [-1, b, b, b + 2, -1], [b] being the index of the first of them: on a
    sprite with no layers, [-1, 0, 0, 2, -1]. The depth-2 layer is parented
    at the layer just before it, the most recent depth-1 layer. *)
Theorem layer_depths_01120_parents (fi : Z) (d : DecState) (buf : list Z) (off : Z) heap next :
  sp_nlayers (ds_sprite d) = Z.of_nat (length (sp_layer_array (ds_sprite d))) ->
  layer_chunks_at buf off [0; 1; 1; 2; 0] = true ->
  let b := sp_nlayers (ds_sprite d) in
  exists d' m',
    ASE__decode_chunks 5 fi d (at_off buf off heap next) = Ret (d', m') /\
    sp_nlayers (ds_sprite d') = b + 5 /\
    take (length (sp_layer_array (ds_sprite d))) (sp_layer_array (ds_sprite d')) =
      sp_layer_array (ds_sprite d) /\
    map ly_parent (drop (length (sp_layer_array (ds_sprite d))) (sp_layer_array (ds_sprite d'))) =
      [-1; b; b; b + 2; -1].
Proof.
  intros Hn Hc b.
  destruct d as [S st ig]; cbn [ds_sprite ds_layers ds_ignore_old] in *.
  set (ls := sp_layer_array S) in *.
  cbn [layer_chunks_at] in Hc. rewrite !andb_true_iff in Hc.
  destruct Hc as [[H0 C0] [[H1 C1] [[H2 C2] [[H3 C3] [[H4 C4] _]]]]].
  apply Z.leb_le in H0, H1, H2, H3, H4.
  destruct (layer_chunk_step fi (mkDecState S st ig) buf off 0 heap next H0 C0 Hn)
    as (S1 & L0 & h1 & n1 & E1 & N1 & A1 & _ & P1).
  cbn [ds_sprite ds_layers ds_ignore_old] in *.
  fold ls in A1, P1. fold b in E1, N1.
  cbn [ASE__decode_chunks]. unfold ld_bind at 1. rewrite E1.
  rewrite mkMach_at_off by (pose proof (layer_chunk_in_buf _ _ _ C1); lia).
  set (o1 := to_int32 (off + doc_u32 buf off)) in *.
  assert (Hn1 : sp_nlayers S1 = Z.of_nat (length (sp_layer_array S1)))
    by (rewrite N1, A1, length_app; cbn [length]; lia).
  destruct (layer_chunk_step fi (mkDecState S1 (mkLayerState b 0) ig) buf o1 1 h1 n1 H1 C1 Hn1)
    as (S2 & L1 & h2 & n2 & E2 & N2 & A2 & _ & P2).
  cbn [ds_sprite ds_layers ds_ignore_old] in *.
  unfold ld_bind at 1. rewrite E2.
  rewrite mkMach_at_off by (pose proof (layer_chunk_in_buf _ _ _ C2); lia).
  set (o2 := to_int32 (o1 + doc_u32 buf o1)) in *.
  assert (Hn2 : sp_nlayers S2 = Z.of_nat (length (sp_layer_array S2)))
    by (rewrite N2, A2, length_app; cbn [length]; lia).
  destruct (layer_chunk_step fi (mkDecState S2 (mkLayerState (sp_nlayers S1) 1) ig) buf o2 1 h2 n2 H2 C2 Hn2)
    as (S3 & L2 & h3 & n3 & E3 & N3 & A3 & _ & P3).
  cbn [ds_sprite ds_layers ds_ignore_old] in *.
  unfold ld_bind at 1. rewrite E3.
  rewrite mkMach_at_off by (pose proof (layer_chunk_in_buf _ _ _ C3); lia).
  set (o3 := to_int32 (o2 + doc_u32 buf o2)) in *.
  assert (Hn3 : sp_nlayers S3 = Z.of_nat (length (sp_layer_array S3)))
    by (rewrite N3, A3, length_app; cbn [length]; lia).
  destruct (layer_chunk_step fi (mkDecState S3 (mkLayerState (sp_nlayers S2) 1) ig) buf o3 2 h3 n3 H3 C3 Hn3)
    as (S4 & L3 & h4 & n4 & E4 & N4 & A4 & _ & P4).
  cbn [ds_sprite ds_layers ds_ignore_old] in *.
  unfold ld_bind at 1. rewrite E4.
  rewrite mkMach_at_off by (pose proof (layer_chunk_in_buf _ _ _ C4); lia).
  set (o4 := to_int32 (o3 + doc_u32 buf o3)) in *.
  assert (Hn4 : sp_nlayers S4 = Z.of_nat (length (sp_layer_array S4)))
    by (rewrite N4, A4, length_app; cbn [length]; lia).
  destruct (layer_chunk_step fi (mkDecState S4 (mkLayerState (sp_nlayers S3) 2) ig) buf o4 0 h4 n4 H4 C4 Hn4)
    as (S5 & L4 & h5 & n5 & E5 & N5 & A5 & _ & P5).
  cbn [ds_sprite ds_layers ds_ignore_old] in *.
  unfold ld_bind at 1. rewrite E5.
  eexists _, _. split; [reflexivity |]. cbn [ds_sprite].
  rewrite A5, A4, A3, A2, A1. rewrite <- !app_assoc. cbn [app].
  split; [rewrite N5, N4, N3, N2, N1; lia |].
  split; [rewrite take_app_length; reflexivity |].
  rewrite drop_app_length. cbn [map].
  rewrite P1, P2, P3, P4, P5. rewrite A3, A2, A1, N3, N2, N1.
  unfold ASE_Layer_parent. cbn [ls_level ls_prev]. lp_eval.
  rewrite <- !app_assoc. cbn [app].
  replace (Z.to_nat (b + 1)) with (length ls + 1)%nat by lia.
  rewrite app_nth2 by lia. replace (length ls + 1 - length ls)%nat with 1%nat by lia.
  cbn [nth]. rewrite P2, A1, N1. unfold ASE_Layer_parent. cbn [ls_level ls_prev]. lp_eval.
  replace (b + 1 + 1 - 2) with b by lia. replace (b + 1 + 1 + 1 + 1 - 2) with (b + 2) by lia. reflexivity.
Qed.

Lemma layer_depths_01120_parents_witness :
  exists d' m',
    ASE__decode_chunks 5 0 (mkDecState ASE_Sprite_zero (mkLayerState 0 0) false)
      (at_off doc_depths_01120 144 ∅ 1) = Ret (d', m') /\
    sp_nlayers (ds_sprite d') = 0 + 5 /\
    take 0 (sp_layer_array (ds_sprite d')) = [] /\
    map ly_parent (drop 0 (sp_layer_array (ds_sprite d'))) = [-1; 0; 0; 0 + 2; -1].
Proof.
  apply (layer_depths_01120_parents 0 (mkDecState ASE_Sprite_zero (mkLayerState 0 0) false)
           doc_depths_01120 144 ∅ 1); [reflexivity | vm_compute; reflexivity].
Defined.
